(** * credi-python-demo: the World Bank fetch, summary and batch code

    A shallow embedding of the logic of the dashboard that is more than
    widget calls:

    - [Automation.fetch_country_data] and the "Run Batch Analysis" loop of
      [pages/3_Automation.py], with what the page does after the loop
      ([BatchPage]);
    - [DataPage.fetch_wb_data] and its button handler, and the sentiment
      labelling step, of [pages/1_Data_And_Text_Analysis.py];
    - the text pipeline ([Text]) and the currency conversion ([Currency]) of
      the same page;
    - the data of the choropleth of [pages/2_Geospatial_Analysis.py]
      ([Geo]).

    Conventions of the model.

    - Python exceptions are the [Raise] case of [result]; sequencing is the
      usual error monad, so the first exception raised is the one returned.
    - The parsed payload of [response.json()] is a [json] tree.  A number is
      an [int] ([JInt], exact) or a [float] ([JNum], an IEEE 754 binary64
      value given by the rational it stands for).  The literals for an
      infinity or a NaN, which Python reads although JSON has none, and a
      literal beyond the range of the format are not covered.  The payloads
      of this API carry no booleans, and [json] has none.
    - The statistics of the summary are computed as [pandas] and [numpy]
      compute them: float arithmetic is that of the format, every operation
      rounded to nearest, ties to even ([Float]), and the summation and the
      rounding of [numpy] are written out ([Numpy]).  The sign of a zero is
      not kept.
    - The network is a function [net] from the request URL to what
      [requests.get] does: raise, or return a [Response].  Since [net] is a
      function, the [st.cache_data] memoisation of the fetch functions is
      not observable and is not modelled.
    - Streamlit calls that only draw are omitted, except [progress.progress],
      whose successive fractions are logged in the batch state. *)

From Stdlib Require Import List String Ascii ZArith QArith Qround Qminmax Qpower
  Qreduction Qcanon Lia Lqa Bool Permutation Sorted.
From Stdlib Require Import DecimalString.
Import ListNotations.

Set Warnings "-register-all".
Local Open Scope string_scope.
Local Open Scope Z_scope.

(** ** Python preliminaries *)

Module Py.

(** The exceptions the modelled code can raise. *)
Inductive exn : Type :=
| Timeout            (* requests.exceptions.Timeout *)
| ConnectionError    (* requests.exceptions.ConnectionError *)
| HTTPError          (* response.raise_for_status() *)
| JSONDecodeError    (* response.json() on a body that is not JSON *)
| TypeError
| KeyError
| IndexError
| ValueError
| OverflowError.     (* an int too large to convert to float *)

Inductive result (A : Type) : Type :=
| Ok (a : A)
| Raise (e : exn).
Arguments Ok {A} a.
Arguments Raise {A} e.

Definition bind {A B : Type} (m : result A) (k : A -> result B) : result B :=
  match m with
  | Ok a => k a
  | Raise e => Raise e
  end.

Notation "x <- m ;; k" := (bind m (fun x => k))
  (at level 61, m at next level, right associativity).

(** Parsed JSON.  An object is the list of its items in document order.
    [JInt z] is the [int] read from a literal without fraction or exponent,
    [JNum q] the [float] of value [q] read from any other number. *)
Inductive json : Type :=
| JNull
| JInt (z : Z)
| JNum (q : Q)
| JStr (s : string)
| JArr (items : list json)
| JObj (members : list (string * json)).

(** [json.loads] keeps the last binding of a repeated key. *)
Fixpoint dict_get (k : string) (o : list (string * json)) : option json :=
  match o with
  | [] => None
  | (k', v) :: rest =>
      match dict_get k rest with
      | Some w => Some w
      | None => if String.eqb k k' then Some v else None
      end
  end.

(** The keys of the parsed [dict], each once, in order of first occurrence. *)
Fixpoint dict_keys (seen : list string) (o : list (string * json)) : list string :=
  match o with
  | [] => []
  | (k, _) :: rest =>
      if existsb (String.eqb k) seen then dict_keys seen rest
      else k :: dict_keys (k :: seen) rest
  end.

Definition chars (s : string) : list json :=
  map (fun c => JStr (String c EmptyString)) (list_ascii_of_string s).

(** [len(x)]; a string is measured in characters of the model, which are
    bytes. *)
Definition len (x : json) : result nat :=
  match x with
  | JArr l => Ok (List.length l)
  | JObj o => Ok (List.length (dict_keys [] o))
  | JStr s => Ok (String.length s)
  | JNull | JInt _ | JNum _ => Raise TypeError
  end.

(** [x[i]] for a non-negative integer literal [i]. *)
Definition getitem_int (x : json) (i : nat) : result json :=
  match x with
  | JArr l => match nth_error l i with Some v => Ok v | None => Raise IndexError end
  | JStr s => match nth_error (chars s) i with Some v => Ok v | None => Raise IndexError end
  | JObj _ => Raise KeyError          (* the keys of a parsed object are strings *)
  | JNull | JInt _ | JNum _ => Raise TypeError
  end.

(** [x[k]] for a string literal [k]. *)
Definition getitem_str (x : json) (k : string) : result json :=
  match x with
  | JObj o => match dict_get k o with Some v => Ok v | None => Raise KeyError end
  | JArr _ | JStr _ | JNull | JInt _ | JNum _ => Raise TypeError
  end.

(** Truth value, as tested by [not x] and [if x]. *)
Definition truthy (x : json) : bool :=
  match x with
  | JNull => false
  | JInt z => negb (z =? 0)
  | JNum q => negb (Qeq_bool q 0)
  | JStr s => negb (String.eqb s "")
  | JArr l => match l with [] => false | _ => true end
  | JObj o => match o with [] => false | _ => true end
  end.

(** The items a [for] loop or comprehension visits. *)
Definition iter (x : json) : result (list json) :=
  match x with
  | JArr l => Ok l
  | JStr s => Ok (chars s)
  | JObj o => Ok (map JStr (dict_keys [] o))
  | JNull | JInt _ | JNum _ => Raise TypeError
  end.

(** [d[k] = v] on a dict kept in insertion order. *)
Fixpoint dict_set {A : Type} (k : string) (v : A) (d : list (string * A))
  : list (string * A) :=
  match d with
  | [] => [(k, v)]
  | (k', w) :: rest =>
      if String.eqb k k' then (k', v) :: rest else (k', w) :: dict_set k v rest
  end.

Definition is_None (x : json) : bool :=
  match x with JNull => true | _ => false end.

(** *** [int(x)] *)

(** The blanks [int] skips around the digits of an ASCII string: tab to
    carriage return, and the space. *)
Definition is_space (c : ascii) : bool :=
  let n := nat_of_ascii c in
  ((9 <=? n) && (n <=? 13) || (n =? 32))%nat.

Definition digit_val (c : ascii) : option Z :=
  let n := nat_of_ascii c in
  if ((48 <=? n) && (n <=? 57))%nat then Some (Z.of_nat n - 48) else None.

Fixpoint lstrip (l : list ascii) : list ascii :=
  match l with
  | c :: rest => if is_space c then lstrip rest else l
  | [] => []
  end.

Definition strip (l : list ascii) : list ascii :=
  rev (lstrip (rev (lstrip l))).

(** Decimal digits, with single underscores allowed between digits.
    [prev] tells whether the previous character was a digit. *)
Fixpoint digits (acc : Z) (prev : bool) (l : list ascii) : option Z :=
  match l with
  | [] => if prev then Some acc else None
  | c :: rest =>
      match digit_val c with
      | Some d => digits (10 * acc + d) true rest
      | None =>
          if (Ascii.eqb c "_"%char && prev)%bool then
            match rest with
            | [] => None
            | _ => digits acc false rest
            end
          else None
      end
  end.

Definition int_of_chars (l : list ascii) : option Z :=
  match strip l with
  | "-"%char :: rest => option_map Z.opp (digits 0 false rest)
  | "+"%char :: rest => digits 0 false rest
  | rest => digits 0 false rest
  end.

(** [sys.int_max_str_digits]: the longest decimal numeral [int] converts
    (CPython 3.11). *)
Definition int_max_str_digits : nat := 4300.

Definition is_digit (c : ascii) : bool :=
  match digit_val c with Some _ => true | None => false end.

(** [int(x)]: a string is parsed in base ten (surrounding blanks, a sign,
    ASCII digits with single underscores between them, at most
    [int_max_str_digits] digits; the digits and blanks beyond ASCII that
    Python also accepts are not covered); a float is truncated towards
    zero. *)
Definition int (x : json) : result Z :=
  match x with
  | JStr s =>
      let l := list_ascii_of_string s in
      match int_of_chars l with
      | Some z =>
          if (List.length (filter is_digit l) <=? int_max_str_digits)%nat then Ok z
          else Raise ValueError
      | None => Raise ValueError
      end
  | JInt z => Ok z
  | JNum q => Ok (Z.quot (Qnum q) (Zpos (Qden q)))
  | JNull | JArr _ | JObj _ => Raise TypeError
  end.

(** *** [round(x, ndigits)] on the exact value: round half to even *)

Definition round_half_even (x : Q) : Z :=
  let f := Qfloor (x + (1 # 2)) in
  if (Qeq_bool (x + (1 # 2)) (inject_Z f) && Z.odd f)%bool then f - 1 else f.

Definition pow10 (ndigits : nat) : positive := Pos.pow 10 (Pos.of_nat ndigits).

Definition round (x : Q) (ndigits : nat) : Q :=
  match ndigits with
  | O => inject_Z (round_half_even x)
  | _ => Qmake (round_half_even (x * inject_Z (Zpos (pow10 ndigits)))) (pow10 ndigits)
  end.

(** *** [requests] *)

(** What [requests.get] returns: the status line and the body, which
    [response.json()] either parses or rejects. *)
Record Response : Type := {
  status_code : Z;
  parsed_body : option json
}.

Definition network : Type := string -> result Response.

Definition response_json (r : Response) : result json :=
  match parsed_body r with
  | Some j => Ok j
  | None => Raise JSONDecodeError
  end.

Definition raise_for_status (r : Response) : result unit :=
  if (400 <=? status_code r) && (status_code r <? 600) then Raise HTTPError
  else Ok tt.

End Py.

(** ** Floating point: IEEE 754 binary64

    The arithmetic of Python's [float] and of [numpy.float64].  A finite
    value is given by the rational it stands for; every operation returns
    the value of the format nearest to the exact result, a tie going to the
    even significand, and an infinity when that value is out of range. *)

Module Float.
Import Py.

Inductive float : Type :=
| Fin (q : Q)
| Inf (negative : bool)
| NaN.

Definition two_to (e : Z) : Q := (2 ^ e)%Q.

(** The binade of a positive rational: [2 ^ ilog2 q <= q < 2 ^ (ilog2 q + 1)]. *)
Definition ilog2 (q : Q) : Z :=
  let e := Z.log2 (Qnum q) - Z.log2 (Zpos (Qden q)) in
  if Qle_bool (two_to e) q then e else e - 1.

(** The exponent of the last place of the values around [q]: 53 significant
    bits, and no place below [2 ^ -1074]. *)
Definition quantum (q : Q) : Z := Z.max (ilog2 q - 52) (-1074).

Definition nearest_pos (q : Q) : Q :=
  let u := two_to (quantum q) in
  (inject_Z (round_half_even (q / u)) * u)%Q.

(** Rounding to 53 bits, the exponent unbounded above. *)
Definition nearest (q : Q) : Q :=
  match Qnum q with
  | Z0 => 0%Q
  | Zpos _ => nearest_pos q
  | Zneg _ => (- nearest_pos (- q))%Q
  end.

(** The value of the format that an exact result is rounded to. *)
Definition rnd (q : Q) : float :=
  let r := nearest (Qred q) in
  if Qle_bool (two_to 1024) r then Inf false
  else if Qle_bool r (- two_to 1024) then Inf true
  else Fin (Qred r).

Definition zero : float := Fin 0.

Definition negative (q : Q) : bool := negb (Qle_bool 0 q).

(** The conversion of an [int]. *)
Definition of_Z (z : Z) : float := rnd (inject_Z z).

Definition add (x y : float) : float :=
  match x, y with
  | NaN, _ | _, NaN => NaN
  | Inf a, Inf b => if Bool.eqb a b then Inf a else NaN
  | Inf a, Fin _ | Fin _, Inf a => Inf a
  | Fin a, Fin b => rnd (a + b)
  end.

Definition mul (x y : float) : float :=
  match x, y with
  | NaN, _ | _, NaN => NaN
  | Inf a, Inf b => Inf (xorb a b)
  | Inf a, Fin q | Fin q, Inf a =>
      if Qeq_bool q 0 then NaN else Inf (xorb a (negative q))
  | Fin a, Fin b => rnd (a * b)
  end.

(** Division as [numpy] does it, a zero divisor giving an infinity or a
    NaN; the zero is taken as positive. *)
Definition div (x y : float) : float :=
  match x, y with
  | NaN, _ | _, NaN => NaN
  | Inf _, Inf _ => NaN
  | Inf a, Fin q => Inf (xorb a (negative q))
  | Fin _, Inf _ => Fin 0
  | Fin a, Fin b =>
      if Qeq_bool b 0 then (if Qeq_bool a 0 then NaN else Inf (negative a))
      else rnd (a / b)
  end.

(** Rounding to an integer, a tie going to the even one. *)
Definition rint (x : float) : float :=
  match x with
  | Fin q => Fin (inject_Z (round_half_even q))
  | _ => x
  end.

(** [x <= y] *)
Definition leb (x y : float) : bool :=
  match x, y with
  | NaN, _ | _, NaN => false
  | Inf true, _ | _, Inf false => true
  | Fin a, Fin b => Qle_bool a b
  | Fin _, Inf true | Inf false, Fin _ | Inf false, Inf true => false
  end.

(** The order of the values that are not [NaN]. *)
Definition fle (x y : float) : Prop :=
  match x, y with
  | NaN, _ | _, NaN => False
  | Inf true, _ | _, Inf false => True
  | Fin a, Fin b => (a <= b)%Q
  | Fin _, Inf true | Inf false, Fin _ | Inf false, Inf true => False
  end.

Definition not_NaN (x : float) : Prop := x <> NaN.

(** A value of the format: [m * 2 ^ e] with a significand below [2 ^ 53]
    and an exponent the format has. *)
Definition double (q : Q) : Prop :=
  exists m e, Z.abs m < 2 ^ 53 /\ -1074 <= e <= 971 /\
              (q == inject_Z m * two_to e)%Q.

(** The rational a finite value stands for. *)
Definition value (x : float) : Q :=
  match x with Fin q => q | _ => 0%Q end.

End Float.

(** ** [numpy] on [float64] *)

Module Numpy.
Import Float.

(** [np.round(x, decimals)], which the [round] of Python calls on a
    [numpy.float64]: multiply by [10 ** decimals], round to an integer,
    divide, each step in the format. *)
Definition around (x : float) (decimals : nat) : float :=
  match decimals with
  | O => rint x
  | _ =>
      let f := of_Z (10 ^ Z.of_nat decimals) in
      div (rint (mul x f)) f
  end.

Definition sequential (acc : float) (a : list float) : float :=
  fold_left add a acc.

(** [r[j] += a[j]] for the eight accumulators. *)
Fixpoint add_lanes (r a : list float) : list float :=
  match r, a with
  | x :: r', y :: a' => add x y :: add_lanes r' a'
  | _, _ => r
  end.

(** The unrolled loop over [blocks] further groups of eight elements: the
    accumulators, and the elements left. *)
Fixpoint unrolled (blocks : nat) (r a : list float) : list float * list float :=
  match blocks with
  | O => (r, a)
  | S k => unrolled k (add_lanes r (firstn 8 a)) (skipn 8 a)
  end.

Definition lanes_sum (r : list float) : float :=
  match r with
  | [r0; r1; r2; r3; r4; r5; r6; r7] =>
      add (add (add r0 r1) (add r2 r3)) (add (add r4 r5) (add r6 r7))
  | _ => NaN                    (* not reached: there are eight accumulators *)
  end.

(** The pairwise summation of a contiguous array: fewer than eight elements
    are added from left to right; up to 128 go to eight accumulators that are
    added at the end, the elements past the last full group of eight after
    them; a longer array is cut in two. *)
Fixpoint pairwise_sum (fuel : nat) (a : list float) : float :=
  let n := List.length a in
  if (n <? 8)%nat then sequential zero a
  else if (n <=? 128)%nat then
    let '(r, rest) := unrolled (n / 8 - 1) (firstn 8 a) (skipn 8 a) in
    sequential (lanes_sum r) rest
  else
    match fuel with
    | O => NaN                  (* not reached when [fuel] is the length *)
    | S fuel' =>
        let n2 := (n / 2 - (n / 2) mod 8)%nat in
        add (pairwise_sum fuel' (firstn n2 a)) (pairwise_sum fuel' (skipn n2 a))
    end.

(** [a.sum()], the reduction starting from the identity. *)
Definition sum (a : list float) : float :=
  add zero (pairwise_sum (List.length a) a).

(** The number of elements that are converted at a time. *)
Definition bufsize : nat := 8 * 1024.

Fixpoint sum_buffers (fuel : nat) (acc : float) (a : list float) : float :=
  match fuel, a with
  | S fuel', _ :: _ =>
      sum_buffers fuel' (add acc (pairwise_sum bufsize (firstn bufsize a)))
        (skipn bufsize a)
  | _, _ => acc
  end.

(** [a.sum(dtype=float64)] for an array of integers, [a] being its elements
    once converted: they go through a buffer, and the sum of each bufferful
    is added to the result. *)
Definition sum_cast (a : list float) : float :=
  sum_buffers (List.length a) zero a.

End Numpy.

(** ** pages/3_Automation.py *)

Module Automation.
Import Py.

(** One entry of the [records] list: [{"Year": ..., "Value": ...}]. *)
Record obs : Type := {
  Year : Z;
  Value : json
}.

(** The two-column frame built from [records]: its rows, top to bottom. *)
Definition DataFrame : Type := list obs.

(** A scalar taken from a frame: a [numpy.int64] or a [numpy.float64]. *)
Inductive number : Type :=
| Int (z : Z)
| Float (x : Float.float).

(** The dict returned by [fetch_country_data]. *)
Record summary : Type := {
  Country : string;
  Mean : number;
  Min : number;
  Max : number;
  Latest_value : number;
  Latest_year : number;
  _data : DataFrame
}.

(** The same dict once ["_data"] has been popped. *)
Record summary_row : Type := {
  row_Country : string;
  row_Mean : number;
  row_Min : number;
  row_Max : number;
  row_Latest_value : number;
  row_Latest_year : number
}.

Definition wb_countries : list (string * (string * string)) :=
  [ ("Albania", ("AL", "ALB"));
    ("Bosnia and Herzegovina", ("BA", "BIH"));
    ("Kosovo", ("XK", "XKX"));
    ("Montenegro", ("ME", "MNE"));
    ("North Macedonia", ("MK", "MKD"));
    ("Serbia", ("RS", "SRB")) ].

Definition indicators : list (string * string) :=
  [ ("GDP per capita (current US$)", "NY.GDP.PCAP.CD");
    ("Unemployment (% of labour force)", "SL.UEM.TOTL.ZS");
    ("Inflation, consumer prices (%)", "FP.CPI.TOTL.ZG") ].

(** [indicators[selected_indicator]] *)
Fixpoint lookup (k : string) (d : list (string * string)) : result string :=
  match d with
  | [] => Raise KeyError
  | (k', v) :: rest => if String.eqb k k' then Ok v else lookup k rest
  end.

Definition url (iso2 indicator_code : string) : string :=
  ("https://api.worldbank.org/v2/country/" ++ iso2 ++ "/indicator/" ++ indicator_code
   ++ "?format=json&per_page=100")%string.

Definition in_range (year_range : Z * Z) (y : Z) : bool :=
  (fst year_range <=? y) && (y <=? snd year_range).

(** The list comprehension of lines 87-91, over the items of [raw[1]].
    For each item the condition is evaluated first ([r['value']], then, only
    when that is not [None], [int(r['date'])]), then the dict display. *)
Fixpoint records_of (items : list json) (year_range : Z * Z) : result (list obs) :=
  match items with
  | [] => Ok []
  | r :: rest =>
      v <- getitem_str r "value" ;;
      if is_None v then records_of rest year_range
      else
        d <- getitem_str r "date" ;;
        y <- int d ;;
        if in_range year_range y then
          d' <- getitem_str r "date" ;;
          y' <- int d' ;;
          v' <- getitem_str r "value" ;;
          tl <- records_of rest year_range ;;
          Ok ({| Year := y'; Value := v' |} :: tl)
        else records_of rest year_range
  end.

(** [sort_values("Year")], as a stable insertion sort. *)
Fixpoint insert_by_Year (o : obs) (l : DataFrame) : DataFrame :=
  match l with
  | [] => [o]
  | h :: t => if Year o <=? Year h then o :: l else h :: insert_by_Year o t
  end.

Fixpoint sort_values (l : DataFrame) : DataFrame :=
  match l with
  | [] => []
  | o :: t => insert_by_Year o (sort_values t)
  end.

(** The ["Value"] column of a frame.  pandas gives it the type [int64]
    when every value is an [int] and [float64] when ints and floats are mixed,
    the ints converted.  An [int] beyond 64 bits would give another type of
    column, which is not covered.  pandas (2.x) raises [TypeError] from
    [mean()] when the column holds strings, lists or dicts. *)
Inductive column : Type :=
| Int64 (l : list Z)
| Float64 (l : list Float.float).

Fixpoint ints (df : DataFrame) : option (list Z) :=
  match df with
  | [] => Some []
  | o :: t =>
      match Value o, ints t with
      | JInt z, Some tl => Some (z :: tl)
      | _, _ => None
      end
  end.

Definition as_float (v : json) : result Float.float :=
  match v with
  | JInt z => Ok (Float.of_Z z)
  | JNum q => Ok (Float.Fin q)
  | _ => Raise TypeError
  end.

Fixpoint floats (df : DataFrame) : result (list Float.float) :=
  match df with
  | [] => Ok []
  | o :: t =>
      x <- as_float (Value o) ;;
      tl <- floats t ;;
      Ok (x :: tl)
  end.

Definition Value_column (df : DataFrame) : result column :=
  match ints df with
  | Some l => Ok (Int64 l)
  | None => l <- floats df ;; Ok (Float64 l)
  end.

(** The cell of a [float64] column that holds the value [v]. *)
Definition float_cell (v : json) : json :=
  match v with
  | JInt z => JNum (Float.value (Float.of_Z z))
  | _ => v
  end.

(** The frame as pandas holds it: the ["Year"] column is [int64] and the
    ["Value"] column has the type of [column]. *)
Definition typed (col : column) (df : DataFrame) : DataFrame :=
  match col with
  | Int64 _ => df
  | Float64 _ => map (fun o => {| Year := Year o; Value := float_cell (Value o) |}) df
  end.

(** [Series.mean()]: the sum of the values as [float64], over their
    number.  The values of an [int64] column are converted on the way. *)
Definition mean (col : column) : Float.float :=
  match col with
  | Int64 l =>
      Float.div (Numpy.sum_cast (map Float.of_Z l))
        (Float.of_Z (Z.of_nat (List.length l)))
  | Float64 l =>
      Float.div (Numpy.sum l) (Float.of_Z (Z.of_nat (List.length l)))
  end.

Definition fmin (a b : Float.float) : Float.float := if Float.leb a b then a else b.
Definition fmax (a b : Float.float) : Float.float := if Float.leb a b then b else a.

(** [Series.min()] and [Series.max()] *)
Definition min {A : Type} (least : A -> A -> A) (d : A) (l : list A) : A :=
  match l with
  | [] => d
  | x :: t => fold_left least t x
  end.

Definition max {A : Type} (greatest : A -> A -> A) (d : A) (l : list A) : A :=
  match l with
  | [] => d
  | x :: t => fold_left greatest t x
  end.

(** [df.iloc[-1]] *)
Definition iloc_last {A : Type} (l : list A) (d : A) : A := List.last l d.

(** [round(x, 2)] on a scalar of a frame: an [int64] is returned as it is,
    a [float64] goes through [np.round]. *)
Definition round2 (x : number) : number :=
  match x with
  | Int z => Int z
  | Float f => Float (Numpy.around f 2)
  end.

(** Lines 93-106: the summary of a list of records.  [df.iloc[-1]] is a
    row that holds the year and the value in one type: the year is a float
    when the values are.  The years are taken to fit in 64 bits, so that
    their column is an [int64] one. *)
Definition summarize (country_name : string) (records : list obs)
  : result (option summary) :=
  match records with
  | [] => Ok None
  | o0 :: _ =>
      let df := sort_values records in
      col <- Value_column df ;;
      let year := Year (iloc_last df o0) in
      Ok (Some
            match col with
            | Int64 l =>
                {| Country := country_name;
                   Mean := round2 (Float (mean col));
                   Min := round2 (Int (min Z.min 0 l));
                   Max := round2 (Int (max Z.max 0 l));
                   Latest_value := round2 (Int (iloc_last l 0));
                   Latest_year := round2 (Int year);
                   _data := typed col df |}
            | Float64 l =>
                {| Country := country_name;
                   Mean := round2 (Float (mean col));
                   Min := round2 (Float (min fmin Float.zero l));
                   Max := round2 (Float (max fmax Float.zero l));
                   Latest_value := round2 (Float (iloc_last l Float.zero));
                   Latest_year := round2 (Float (Float.of_Z year));
                   _data := typed col df |}
            end)
  end.

(** [fetch_country_data], lines 75-106. *)
Definition fetch_country_data (net : network)
    (iso2 iso3 country_name indicator_code : string) (year_range : Z * Z)
  : result (option summary) :=
  response <- net (url iso2 indicator_code) ;;
  raw <- response_json response ;;
  n <- len raw ;;
  if (n <? 2)%nat then Ok None
  else
    raw1 <- getitem_int raw 1 ;;
    if negb (truthy raw1) then Ok None
    else
      items <- iter raw1 ;;
      records <- records_of items year_range ;;
      summarize country_name records.

(** *** The "Run Batch Analysis" handler, lines 108-121 *)

Record batch_state : Type := {
  progress_log : list Q;                        (* arguments of the progress calls, in order *)
  results : list summary_row;
  full_series : list (string * DataFrame)       (* a dict, in insertion order *)
}.

Definition report (x : Q) (st : batch_state) : batch_state :=
  {| progress_log := progress_log st ++ [x];
     results := results st;
     full_series := full_series st |}.

(** [result.pop("_data")]: the frame, and the dict without it. *)
Definition pop_data (s : summary) : DataFrame * summary_row :=
  (_data s,
   {| row_Country := Country s; row_Mean := Mean s; row_Min := Min s;
      row_Max := Max s; row_Latest_value := Latest_value s;
      row_Latest_year := Latest_year s |}).

Definition keep (country_name : string) (s : summary) (st : batch_state)
  : batch_state :=
  let '(df, row) := pop_data s in
  {| progress_log := progress_log st;
     results := results st ++ [row];
     full_series := dict_set country_name df (full_series st) |}.

Definition fraction (i total : nat) : Q :=
  (inject_Z (Z.of_nat i) / inject_Z (Z.of_nat total))%Q.

(** The [for] loop.  [i] is the index [enumerate] gives to the head of
    [entities]; [total] is [len(wb_countries)].  The state reached is
    returned with the exception, if one escaped the loop body. *)
Fixpoint batch_loop (net : network) (selected_indicator : string)
    (year_range : Z * Z) (total i : nat)
    (entities : list (string * (string * string))) (st : batch_state)
  : batch_state * option exn :=
  match entities with
  | [] => (st, None)
  | (country_name, (iso2, iso3)) :: rest =>
      let st1 := report (fraction i total) st in
      match (code <- lookup selected_indicator indicators ;;
             fetch_country_data net iso2 iso3 country_name code year_range) with
      | Raise e => (st1, Some e)
      | Ok None =>
          batch_loop net selected_indicator year_range total (S i) rest st1
      | Ok (Some result) =>
          batch_loop net selected_indicator year_range total (S i) rest
            (keep country_name result st1)
      end
  end.

Definition initial_state : batch_state :=
  {| progress_log := [0%Q]; results := []; full_series := [] |}.

(** The handler, with the list of countries as a parameter. *)
Definition run_batch (net : network) (selected_indicator : string)
    (year_range : Z * Z) (entities : list (string * (string * string)))
  : batch_state * option exn :=
  match batch_loop net selected_indicator year_range (List.length entities) 0
          entities initial_state with
  | (st, None) => (report 1%Q st, None)
  | (st, Some e) => (st, Some e)
  end.

End Automation.

(** ** pages/1_Data_And_Text_Analysis.py *)

Module DataPage.
Import Py.

(** A row is the dict it was built from; a frame has its column labels and
    its rows, top to bottom. *)
Definition row : Type := list (string * json).

Record DataFrame : Type := {
  columns : list string;
  rows : list row
}.

Definition add_labels (cols : list string) (r : row) : list string :=
  fold_left (fun acc k => if existsb (String.eqb k) acc then acc else (acc ++ [k])%list)
            (map fst r) cols.

(** [pd.DataFrame(list_of_dicts)]: the labels are the keys met, in order of
    first appearance; no dict, no column. *)
Definition DataFrame_of (l : list row) : DataFrame :=
  {| columns := fold_left add_labels l []; rows := l |}.

(** A cell as a number.  Every frame built here has numbers in the column
    it is sorted and filtered by, unless the caller names its value column
    ["Year"]; pandas would then order strings too, which this model does not:
    it raises [TypeError] for any cell that is not a number.  A row keeps
    the values of the payload as they are; in a column that mixes them
    pandas shows an [int] as the float of the same value. *)
Definition number_at (by_ : string) (r : row) : result Q :=
  match dict_get by_ r with
  | Some (JInt z) => Ok (inject_Z z)
  | Some (JNum q) => Ok q
  | _ => Raise TypeError
  end.

Fixpoint keyed (by_ : string) (l : list row) : result (list (Q * row)) :=
  match l with
  | [] => Ok []
  | r :: t =>
      q <- number_at by_ r ;;
      tl <- keyed by_ t ;;
      Ok ((q, r) :: tl)
  end.

Fixpoint insert_keyed (x : Q * row) (l : list (Q * row)) : list (Q * row) :=
  match l with
  | [] => [x]
  | h :: t => if Qle_bool (fst x) (fst h) then x :: l else h :: insert_keyed x t
  end.

Fixpoint sort_keyed (l : list (Q * row)) : list (Q * row) :=
  match l with
  | [] => []
  | x :: t => insert_keyed x (sort_keyed t)
  end.

(** [df.sort_values(by)]: [KeyError] when [by] is not a column label. *)
Definition sort_values (by_ : string) (df : DataFrame) : result DataFrame :=
  if existsb (String.eqb by_) (columns df) then
    l <- keyed by_ (rows df) ;;
    Ok {| columns := columns df; rows := map snd (sort_keyed l) |}
  else Raise KeyError.

Definition url (country_code indicator_code : string) : string :=
  ("https://api.worldbank.org/v2/country/" ++ country_code ++ "/indicator/"
   ++ indicator_code ++ "?format=json&per_page=30")%string.

(** The dict display [{"Year": y, indicator_name: v}]. *)
Definition make_row (indicator_name : string) (y : Z) (v : json) : row :=
  dict_set indicator_name v (dict_set "Year" (JInt y) []).

(** The list comprehension of lines 79-82. *)
Fixpoint rows_of (indicator_name : string) (items : list json) : result (list row) :=
  match items with
  | [] => Ok []
  | r :: rest =>
      v <- getitem_str r "value" ;;
      if is_None v then rows_of indicator_name rest
      else
        d <- getitem_str r "date" ;;
        y <- int d ;;
        v' <- getitem_str r "value" ;;
        tl <- rows_of indicator_name rest ;;
        Ok (make_row indicator_name y v' :: tl)
  end.

(** [fetch_wb_data], lines 67-84. *)
Definition fetch_wb_data (net : network)
    (country_code indicator_code indicator_name : string) : result DataFrame :=
  response <- net (url country_code indicator_code) ;;
  _ <- raise_for_status response ;;
  raw <- response_json response ;;
  records <- getitem_int raw 1 ;;
  items <- iter records ;;
  l <- rows_of indicator_name items ;;
  sort_values "Year" (DataFrame_of l).

(** [df[(df["Year"] >= years[0]) & (df["Year"] <= years[1])]] *)
Fixpoint select_years (years : Z * Z) (l : list row) : result (list row) :=
  match l with
  | [] => Ok []
  | r :: t =>
      q <- number_at "Year" r ;;
      tl <- select_years years t ;;
      Ok (if Qle_bool (inject_Z (fst years)) q && Qle_bool q (inject_Z (snd years))
          then r :: tl else tl)
  end.

Definition filter_years (years : Z * Z) (df : DataFrame) : result DataFrame :=
  if existsb (String.eqb "Year") (columns df) then
    l <- select_years years (rows df) ;;
    Ok {| columns := columns df; rows := l |}
  else Raise KeyError.

(** What the "Fetch from World Bank API" handler (lines 86-118) ends with:
    the table it displays, or the error message of its [except] branch. *)
Inductive shown : Type :=
| Fetched (df : DataFrame)
| Failed (e : exn).

Definition fetch_button (net : network)
    (country_code indicator_code indicator_name : string) (years : Z * Z) : shown :=
  match (df <- fetch_wb_data net country_code indicator_code indicator_name ;;
         filter_years years df) with
  | Ok df => Fetched df
  | Raise e => Failed e
  end.

(** *** Sentiment step, lines 537-587 *)

Section Sentiment.

(** [analyzer.polarity_scores(headline)['compound']], from the VADER
    lexicon of [nltk]. *)
Variable compound_of : string -> Q.

Record sentiment_row : Type := {
  Headline : string;
  Score : Q;
  Sentiment : string
}.

Definition gt (a b : Q) : bool := negb (Qle_bool a b).
Definition lt (a b : Q) : bool := negb (Qle_bool b a).

Definition label_of (compound : Q) : string :=
  if gt compound (5 # 100) then "Positive"
  else if lt compound (- (5 # 100)) then "Negative"
  else "Neutral".

Definition sentiment_data (headlines : list string) : list sentiment_row :=
  map (fun headline =>
         let compound := compound_of headline in
         {| Headline := headline;
            Score := round compound 3;
            Sentiment := label_of compound |})
      headlines.

Definition count (p : sentiment_row -> bool) (l : list sentiment_row) : nat :=
  List.length (filter p l).

Definition n_pos (data : list sentiment_row) : nat :=
  count (fun r => gt (Score r) (5 # 100)) data.

Definition n_neu (data : list sentiment_row) : nat :=
  count (fun r => Qle_bool (- (5 # 100)) (Score r) && Qle_bool (Score r) (5 # 100)) data.

Definition n_neg (data : list sentiment_row) : nat :=
  count (fun r => lt (Score r) (- (5 # 100))) data.

End Sentiment.

End DataPage.

(** ** Vocabulary of the statements *)

Module Spec.
Import Py Automation.

(** An entry of [wb_countries.items()]: [(country_name, (iso2, iso3))]. *)
Abbreviation entity := (string * (string * string))%type (only parsing).

(** The item [r] of the payload carries the observation [o]: its ["value"]
    member is [Value o] ([JNull] when absent) and its ["date"] member
    converts to [Year o]. *)
Definition reads (r : json) (o : obs) : Prop :=
  getitem_str r "value" = Ok (Value o) /\
  (d <- getitem_str r "date" ;; int d) = Ok (Year o).

(** The observations a fetch is meant to retain. *)
Definition kept (year_range : Z * Z) (o : obs) : bool :=
  negb (is_None (Value o)) && in_range year_range (Year o).



(** The shape of a World Bank reply: page metadata, then the items. *)
Definition wb_payload (meta : json) (items rest : list json) : json :=
  JArr (meta :: JArr items :: rest).

(** The request sent to [address] is answered, and the body parses to [raw]. *)
Definition serves (net : network) (address : string) (raw : json) : Prop :=
  exists response,
    net address = Ok response /\ parsed_body response = Some raw.

(** What one iteration of the batch loop gets from its fetch. *)
Definition fetched (net : network) (selected_indicator : string)
    (year_range : Z * Z) (e : entity) : result (option summary) :=
  let '(country_name, (iso2, iso3)) := e in
  code <- lookup selected_indicator indicators ;;
  fetch_country_data net iso2 iso3 country_name code year_range.

Definition returns {A : Type} (r : result A) : Prop :=
  match r with Ok _ => True | Raise _ => False end.

(** The two tables of a batch state. *)
Definition tables (st : batch_state)
  : list summary_row * list (string * DataFrame) :=
  (results st, full_series st).

Definition ascending : DataFrame -> Prop :=
  StronglySorted (fun a b => Year a <= Year b).

Definition nondecreasing : list Q -> Prop := StronglySorted Qle.

(** The reports of [k] consecutive loop iterations, the first of index [i]. *)
Definition loop_reports (total i k : nat) : list Q :=
  map (fun j => fraction j total) (seq i k).

(** A page-1 row as an observation: the dict display of [make_row]. *)
Definition row_of (indicator_name : string) (o : obs) : DataPage.row :=
  DataPage.make_row indicator_name (Year o) (Value o).

Definition present (o : obs) : bool := negb (is_None (Value o)).

(** A page-1 row with the number it is sorted by. *)
Definition with_key (indicator_name : string) (o : obs) : Q * DataPage.row :=
  (inject_Z (Year o), row_of indicator_name o).

(** As [serves], for a caller that checks the status first. *)
Definition serves_ok (net : network) (address : string) (raw : json) : Prop :=
  exists response,
    net address = Ok response /\
    raise_for_status response = Ok tt /\
    parsed_body response = Some raw.

(** An [int] that 64 bits hold. *)
Definition int64 (z : Z) : Prop := - 2 ^ 63 <= z < 2 ^ 63.

(** The value is an [int] of 64 bits or a [float], or is absent. *)
Definition int64_or_float_or_null (o : obs) : Prop :=
  match Value o with
  | JNull | JNum _ => True
  | JInt z => int64 z
  | _ => False
  end.

(** The value is an [int] or a [float]. *)
Definition int_or_float (o : obs) : Prop :=
  match Value o with
  | JInt _ | JNum _ => True
  | _ => False
  end.

(** Every value is an [int]: the column of the values is an [int64] one. *)
Definition all_int (l : list obs) : bool :=
  forallb (fun o => match Value o with JInt _ => true | _ => false end) l.

(** The value of an observation as a scalar of a frame whose column of
    values is an [int64] one ([ints]) or a [float64] one. *)
Definition scalar (ints : bool) (v : json) : number :=
  match v, ints with
  | JInt z, true => Int z
  | JInt z, false => Float (Float.of_Z z)
  | JNum q, _ => Float (Float.Fin q)
  | _, _ => Float Float.NaN
  end.

(** The frame of a series, as pandas holds it: in a column of floats an
    [int] is the float nearest to it. *)
Definition frame (ints : bool) (series : list obs) : DataFrame :=
  if ints then series
  else map (fun o => {| Year := Year o;
                        Value := match Value o with
                                 | JInt z => JNum (Float.value (Float.of_Z z))
                                 | _ => Value o
                                 end |}) series.

(** What [np.round(x, 2)] does in [float64]: times 100, to the nearest
    integer with ties to even, divided by 100. *)
Definition np_round2 (x : Float.float) : Float.float :=
  Float.div (Float.rint (Float.mul x (Float.Fin 100))) (Float.Fin 100).

(** A statistic as the summary presents it. *)
Definition presented (x : number) : number :=
  match x with
  | Int z => Int z
  | Float f => Float (np_round2 f)
  end.

(** [total] is a sum of the values of [l] in [float64]: they are added two
    by two in some order, each addition rounded, zeros apart. *)
Inductive summation : list Float.float -> Float.float -> Prop :=
| summation_zero : summation [] Float.zero
| summation_one (x : Float.float) : summation [x] x
| summation_add (l1 l2 : list Float.float) (a b : Float.float) :
    summation l1 a -> summation l2 b -> summation (l1 ++ l2) (Float.add a b)
| summation_perm (l l' : list Float.float) (a : Float.float) :
    Permutation l l' -> summation l a -> summation l' a.

(** A year as a scalar of the same row. *)
Definition year_scalar (ints : bool) (y : Z) : number :=
  if ints then Int y else Float (Float.of_Z y).

(** A scalar as a float, an [int] unrounded. *)
Definition exactly (x : number) : Float.float :=
  match x with
  | Int z => Float.Fin (inject_Z z)
  | Float f => f
  end.

(** [x <= y] between scalars. *)
Definition le (x y : number) : Prop := Float.leb (exactly x) (exactly y) = true.

(** The scalar is the number [q]. *)
Definition is_value (x : number) (q : Q) : Prop :=
  match x with
  | Int z => (inject_Z z == q)%Q
  | Float (Float.Fin r) => (r == q)%Q
  | Float _ => False
  end.

(** The values of a series as the [float64] numbers that are summed. *)
Definition float_values (l : list obs) : list Float.float :=
  map (fun o => exactly (scalar false (Value o))) l.

(** The sum [numpy] returns for the values of a series: those of a column
    of floats are added as they are, those of a column of ints are converted
    first. *)
Definition float_sum (ints : bool) (l : list obs) : Float.float :=
  if ints then Numpy.sum_cast (float_values l) else Numpy.sum (float_values l).

(** A year that, multiplied by 100, is still an integer the format holds. *)
Definition plain_year (y : Z) : Prop := Z.abs y * 100 <= 2 ^ 53.

(** The rows expected of a run: one per entity whose fetch gave a summary,
    in the order of the entities. *)
Fixpoint summarized (net : network) (selected_indicator : string)
    (year_range : Z * Z) (l : list entity) : list summary_row :=
  match l with
  | [] => []
  | e :: t =>
      match fetched net selected_indicator year_range e with
      | Ok (Some s) =>
          snd (pop_data s) :: summarized net selected_indicator year_range t
      | _ => summarized net selected_indicator year_range t
      end
  end.

End Spec.

(** ** Sample replies *)

Module Sample.
Import Py Automation Spec.

Definition item (date : string) (value : json) : json :=
  JObj [("date", JStr date); ("value", value)].

Definition meta : json := JObj [("page", JInt 1); ("pages", JInt 1)].

Definition reply (raw : json) : result Response :=
  Ok {| status_code := 200; parsed_body := Some raw |}.

(** Four yearly items, one past the range 2016-2023 and one without value. *)
Definition items : list json :=
  [ item "2024" (JNum 99); item "2021" (JNum 20);
    item "2020" (JNum 10); item "2019" JNull ].

Definition observations : list obs :=
  [ {| Year := 2024; Value := JNum 99 |}; {| Year := 2021; Value := JNum 20 |};
    {| Year := 2020; Value := JNum 10 |}; {| Year := 2019; Value := JNull |} ].

Definition net : network := fun _ => reply (wb_payload meta items []).

(** The same reply without the item of 2024. *)
Definition net_without_2024 : network :=
  fun _ => reply (wb_payload meta (List.tl items) []).

(** A single value that two decimals cannot hold. *)
Definition net_eighth : network :=
  fun _ => reply (wb_payload meta [item "2020" (JNum (1 # 8))] []).

(** What [json.loads] makes of a literal of value [q] written with a
    fraction: the nearest float. *)
Definition literal (q : Q) : json := JNum (Float.value (Float.rnd q)).

(** Three years with the value 0.025. *)
Definition fortieths : list obs :=
  [ {| Year := 2021; Value := literal (25 # 1000) |};
    {| Year := 2020; Value := literal (25 # 1000) |};
    {| Year := 2019; Value := literal (25 # 1000) |} ].

Definition net_fortieths : network :=
  fun _ => reply (wb_payload meta
                    [ item "2021" (literal (25 # 1000));
                      item "2020" (literal (25 # 1000));
                      item "2019" (literal (25 # 1000)) ] []).

(** One year whose value is an [int] that no float holds: [2 ^ 53 + 1]. *)
Definition net_odd_int : network :=
  fun _ => reply (wb_payload meta [item "2020" (JInt 9007199254740993)] []).


(** The request for Albania times out; every other request is served. *)
Definition net_timeout : network :=
  fun address =>
    if String.eqb address (url "AL" "NY.GDP.PCAP.CD") then Raise Timeout
    else reply (wb_payload meta items []).

(** The error reply of the API: a single element. *)
Definition net_truncated : network :=
  fun _ => reply (JArr [JObj [("message", JArr [JObj [("id", JStr "120")]])]]).

(** Items whose values are all absent. *)
Definition null_items : list json := [ item "2021" JNull; item "2020" JNull ].

Definition null_observations : list obs :=
  [ {| Year := 2021; Value := JNull |}; {| Year := 2020; Value := JNull |} ].

Definition net_all_null : network := fun _ => reply (wb_payload meta null_items []).

Definition two_countries : list entity :=
  [ ("Albania", ("AL", "ALB")); ("Serbia", ("RS", "SRB")) ].

Definition gdp : string := "GDP per capita (current US$)".

End Sample.

(** ** pages/1_Data_And_Text_Analysis.py: the text pipeline, lines 317-487 *)

Module Text.

Definition headlines : list string :=
  [ "Federal Reserve raises interest rates amid inflation concerns";
    "Global GDP growth slows as trade tensions escalate";
    "Unemployment falls to record low despite inflation pressures";
    "Central banks signal pause in rate hike cycle after inflation data";
    "IMF warns of recession risk as growth forecasts downgraded";
    "Consumer prices rise sharply driven by energy and food costs";
    "Labour market remains resilient despite higher borrowing costs";
    "China GDP growth disappoints as property sector woes continue";
    "Eurozone inflation eases but core prices remain stubbornly high";
    "World Bank cuts global growth outlook citing debt distress";
    "US Federal Reserve holds rates steady watching inflation data";
    "Emerging markets face capital outflows as dollar strengthens";
    "Supply chain disruptions ease but inflation remains elevated";
    "Fiscal deficit widens as governments face higher debt servicing costs";
    "Strong jobs report complicates Federal Reserve rate cut plans" ].

(** The set literal, as the list of its members. *)
Definition stopwords : list string :=
  [ "the"; "a"; "an"; "as"; "at"; "by"; "in"; "of"; "on"; "to"; "up";
    "and"; "but"; "for"; "its"; "is"; "are"; "be"; "amid"; "after";
    "despite"; "while"; "with"; "from"; "that"; "has"; "have"; "also";
    "remain"; "remains"; "cut"; "cuts"; "face"; "faces"; "but"; "or" ].

(** Text is a list of characters; the model covers ASCII text, which is
    what the headlines are. *)
Definition between (lo hi : nat) (c : ascii) : bool :=
  let n := nat_of_ascii c in ((lo <=? n) && (n <=? hi))%nat.

(** [a-z] *)
Definition is_lower (c : ascii) : bool := between 97 122 c.

(** The characters [\w] matches: letters, digits and the underscore. *)
Definition is_word (c : ascii) : bool :=
  is_lower c || between 65 90 c || between 48 57 c || between 95 95 c.

(** [str.lower()] *)
Definition lower_char (c : ascii) : ascii :=
  if between 65 90 c then ascii_of_nat (nat_of_ascii c + 32) else c.

Definition lower (s : list ascii) : list ascii := map lower_char s.

(** The pattern [[a-z]+\b] tried at the head of [s]: the repetition takes
    every letter it can and gives them back one by one until the word
    boundary holds, so the longest match wins.  [\b] holds after [c] when
    exactly one of [c] and the next character is a word character, the end of
    the text counting as none. *)
Fixpoint longest (s : list ascii) : option (list ascii) :=
  match s with
  | [] => None
  | c :: rest =>
      if is_lower c then
        match longest rest with
        | Some m => Some (c :: m)
        | None =>
            if xorb (is_word c)
                    (match rest with [] => false | x :: _ => is_word x end)
            then Some [c] else None
        end
      else None
  end.

(** [re.findall(r'\b[a-z]+\b', s)]: the scan tries the pattern at each
    position from left to right and resumes after a match.  [skip] counts
    the characters of the last match still to pass over, [pw] tells whether
    the previous character is a word character (false at the start). *)
Fixpoint findall_from (skip : nat) (pw : bool) (s : list ascii)
  : list (list ascii) :=
  match s with
  | [] => []
  | c :: rest =>
      match skip with
      | S k => findall_from k (is_word c) rest
      | O =>
          if xorb pw (is_word c) then
            match longest s with
            | Some m => m :: findall_from (List.length m - 1) (is_word c) rest
            | None => findall_from 0 (is_word c) rest
            end
          else findall_from 0 (is_word c) rest
      end
  end.

Definition findall (s : list ascii) : list (list ascii) := findall_from 0 false s.

(** [" ".join(headlines).lower()] *)
Definition all_text (headlines : list string) : list ascii :=
  lower (list_ascii_of_string (String.concat " " headlines)).

Definition all_tokens (headlines : list string) : list string :=
  map string_of_list_ascii (findall (all_text headlines)).

(** [t not in stopwords and len(t) >= min_word_len] *)
Definition keep_token (min_word_len : nat) (t : string) : bool :=
  negb (existsb (String.eqb t) stopwords) && (min_word_len <=? String.length t)%nat.

Definition tokens_clean (min_word_len : nat) (tokens : list string) : list string :=
  filter (keep_token min_word_len) tokens.

(** [list(zip(tokens_clean, tokens_clean[1:]))] *)
Definition bigrams (tokens : list string) : list (string * string) :=
  combine tokens (List.tl tokens).

(** [" ".join(b)] for a pair [b]. *)
Definition bigram_label (b : string * string) : string :=
  (fst b ++ " " ++ snd b)%string.

Definition pair_eqb (a b : string * string) : bool :=
  String.eqb (fst a) (fst b) && String.eqb (snd a) (snd b).

(** *** [collections.Counter] *)

Section Counting.
Variable K : Type.
Variable eqb : K -> K -> bool.

(** [self[elem] = self.get(elem, 0) + 1], on a dict kept in insertion
    order. *)
Fixpoint count_one (k : K) (d : list (K * nat)) : list (K * nat) :=
  match d with
  | [] => [(k, 1%nat)]
  | (k', n) :: rest =>
      if eqb k k' then (k', S n) :: rest else (k', n) :: count_one k rest
  end.

(** [Counter(iterable)] *)
Definition Counter (l : list K) : list (K * nat) :=
  fold_left (fun d k => count_one k d) l [].

(** [d.get(k, 0)] *)
Fixpoint get (k : K) (d : list (K * nat)) : nat :=
  match d with
  | [] => 0%nat
  | (k', n) :: rest => if eqb k k' then n else get k rest
  end.

(** [sorted(items, key=itemgetter(1), reverse=True)]: a stable sort, the
    larger counts first. *)
Fixpoint insert_desc (x : K * nat) (l : list (K * nat)) : list (K * nat) :=
  match l with
  | [] => [x]
  | h :: t => if (snd h <=? snd x)%nat then x :: l else h :: insert_desc x t
  end.

Fixpoint sorted_desc (l : list (K * nat)) : list (K * nat) :=
  match l with
  | [] => []
  | x :: t => insert_desc x (sorted_desc t)
  end.

(** [most_common(n)] is [heapq.nlargest(n, items, key=itemgetter(1))], which
    is [sorted(items, key=..., reverse=True)[:n]]. *)
Definition most_common (n : nat) (d : list (K * nat)) : list (K * nat) :=
  firstn n (sorted_desc d).

End Counting.

Arguments count_one {K}.
Arguments Counter {K}.
Arguments get {K}.
Arguments insert_desc {K}.
Arguments sorted_desc {K}.
Arguments most_common {K}.

(** [top_terms] and the rows of [bigram_df]. *)
Definition top_terms (top_n : nat) (tokens : list string) : list (string * nat) :=
  most_common top_n (Counter String.eqb tokens).

Definition bigram_rows (top_n : nat) (tokens : list string) : list (string * nat) :=
  map (fun bc => (bigram_label (fst bc), snd bc))
      (most_common top_n (Counter pair_eqb (bigrams tokens))).

End Text.

(** ** pages/2_Geospatial_Analysis.py: the choropleth data, lines 68-146 *)

Module Geo.
Import Py.

(** [str(year)].  The year is the [int] of a value of the payload, a
    string or an int literal, either of which [int] reads up to
    [int_max_str_digits] digits only: the length up to which [str]
    converts. *)
Definition str_int (z : Z) : string := NilZero.string_of_int (Z.to_int z).

(** [round(x, 3)] on a payload value: only numbers define [__round__]; an
    [int] is returned as it is, a float is rounded on its exact value. *)
Definition round3 (v : json) : result json :=
  match v with
  | JInt z => Ok (JInt z)
  | JNum q => Ok (JNum (round q 3))
  | _ => Raise TypeError
  end.

(** The dict appended to [all_data]. *)
Definition make_row (country_name iso3 indicator_name : string) (year : Z) (v : json)
  : DataPage.row :=
  dict_set indicator_name v
    (dict_set "Year" (JStr (str_int year))
       (dict_set "iso_code" (JStr iso3)
          (dict_set "Country" (JStr country_name) []))).

(** The inner loop, lines 82-92, over the items of [records]. *)
Fixpoint country_rows (country_name iso3 indicator_name : string)
    (year_range : Z * Z) (items : list json) : result (list DataPage.row) :=
  match items with
  | [] => Ok []
  | r :: rest =>
      v <- getitem_str r "value" ;;
      if is_None v then country_rows country_name iso3 indicator_name year_range rest
      else
        d <- getitem_str r "date" ;;
        year <- int d ;;
        if Automation.in_range year_range year then
          v' <- getitem_str r "value" ;;
          q <- round3 v' ;;
          tl <- country_rows country_name iso3 indicator_name year_range rest ;;
          Ok (make_row country_name iso3 indicator_name year q :: tl)
        else country_rows country_name iso3 indicator_name year_range rest
  end.

(** One turn of the outer loop, lines 72-92: what it appends. *)
Definition country_data (net : network) (indicator_code indicator_name : string)
    (year_range : Z * Z) (e : string * (string * string))
  : result (list DataPage.row) :=
  let '(country_name, (iso2, iso3)) := e in
  response <- net (Automation.url iso2 indicator_code) ;;
  _ <- raise_for_status response ;;
  raw <- response_json response ;;
  records <- getitem_int raw 1 ;;
  if truthy records then
    items <- iter records ;;
    country_rows country_name iso3 indicator_name year_range items
  else Ok [].

(** The outer loop, with the dict [wb_countries] as the list of its items. *)
Fixpoint all_data (net : network) (indicator_code indicator_name : string)
    (year_range : Z * Z) (entities : list (string * (string * string)))
  : result (list DataPage.row) :=
  match entities with
  | [] => Ok []
  | e :: rest =>
      rows <- country_data net indicator_code indicator_name year_range e ;;
      tl <- all_data net indicator_code indicator_name year_range rest ;;
      Ok (rows ++ tl)%list
  end.

(** The cells of the column sorted by, when they are all strings. *)
Fixpoint str_keys (by_ : string) (l : list DataPage.row)
  : option (list (string * DataPage.row)) :=
  match l with
  | [] => Some []
  | r :: t =>
      match dict_get by_ r, str_keys by_ t with
      | Some (JStr s), Some tl => Some ((s, r) :: tl)
      | _, _ => None
      end
  end.

(** A stable insertion sort on the key, for the order [leb]. *)
Section Sort.
Context {key : Type} (leb : key -> key -> bool).

Fixpoint insert_by (x : key * DataPage.row) (l : list (key * DataPage.row))
  : list (key * DataPage.row) :=
  match l with
  | [] => [x]
  | h :: t => if leb (fst x) (fst h) then x :: l else h :: insert_by x t
  end.

Fixpoint sort_by (l : list (key * DataPage.row)) : list (key * DataPage.row) :=
  match l with
  | [] => []
  | x :: t => insert_by x (sort_by t)
  end.

End Sort.

(** [df.sort_values(by)] for a column of strings (ordered as Python orders
    [str]) or of numbers; a column that mixes the two cannot be ordered and
    raises [TypeError].  The frames built here hold nothing else. *)
Definition sort_values (by_ : string) (df : DataPage.DataFrame)
  : result DataPage.DataFrame :=
  if existsb (String.eqb by_) (DataPage.columns df) then
    match str_keys by_ (DataPage.rows df) with
    | Some l =>
        Ok {| DataPage.columns := DataPage.columns df;
              DataPage.rows := map snd (sort_by String.leb l) |}
    | None =>
        l <- DataPage.keyed by_ (DataPage.rows df) ;;
        Ok {| DataPage.columns := DataPage.columns df;
              DataPage.rows := map snd (sort_by Qle_bool l) |}
    end
  else Raise KeyError.

(** [fetch_choropleth_data], lines 68-92. *)
Definition fetch_choropleth_data (net : network)
    (indicator_code indicator_name : string) (year_range : Z * Z)
    (entities : list (string * (string * string))) : result DataPage.DataFrame :=
  l <- all_data net indicator_code indicator_name year_range entities ;;
  sort_values "Year" (DataPage.DataFrame_of l).

(** What the "Generate Choropleth map" handler (lines 94-146) shows. *)
Inductive shown : Type :=
| No_data                              (* "No data returned" *)
| Map_of (df : DataPage.DataFrame)
| Failed (e : exn).

(** [df.empty] *)
Definition empty (df : DataPage.DataFrame) : bool :=
  match DataPage.rows df, DataPage.columns df with
  | [], _ | _, [] => true
  | _, _ => false
  end.

Definition choropleth_button (net : network)
    (indicator_code indicator_name : string) (year_range : Z * Z)
    (entities : list (string * (string * string))) : shown :=
  match fetch_choropleth_data net indicator_code indicator_name year_range entities with
  | Ok df => if empty df then No_data else Map_of df
  | Raise e => Failed e
  end.

End Geo.

(** ** pages/1_Data_And_Text_Analysis.py: currency conversion, lines 269-303 *)

Module Currency.
Import Py.

Section Formatting.

(** The text an f-string gives for the float [amount]. *)
Variable float_str : Q -> string.

Definition url (from_code to_code : string) (amount : Q) : string :=
  ("https://api.frankfurter.app/latest?from=" ++ from_code ++ "&to=" ++ to_code
   ++ "&amount=" ++ float_str amount)%string.

(** [fetch_exchange_rate], lines 270-275. *)
Definition fetch_exchange_rate (net : network) (from_code to_code : string)
    (amount : Q) : result json :=
  response <- net (url from_code to_code amount) ;;
  _ <- raise_for_status response ;;
  response_json response.

(** What the "Convert Currency" handler (lines 277-303) shows: the rate
    it computes (printed with four decimals), the converted value and the
    date of the reply. *)
Inductive shown : Type :=
| Same_currency                                   (* the warning *)
| Converted (rate : Float.float) (converted date : json)   (* the three metrics *)
| Failed (e : exn)
| Failed_division.                                (* ZeroDivisionError *)

(** The operand [x] of [x / amount], [amount] being a float: an [int] is
    converted, which fails when it is out of the range of the format. *)
Definition operand (x : json) : result Float.float :=
  match x with
  | JInt z =>
      match Float.of_Z z with
      | Float.Fin q => Ok (Float.Fin q)
      | _ => Raise OverflowError
      end
  | JNum q => Ok (Float.Fin q)
  | _ => Raise TypeError
  end.

Definition convert_button (net : network) (from_code to_code : string)
    (amount : Q) : shown :=
  if String.eqb from_code to_code then Same_currency
  else
    match fetch_exchange_rate net from_code to_code amount with
    | Raise e => Failed e
    | Ok data =>
        match (rates <- getitem_str data "rates" ;; getitem_str rates to_code) with
        | Raise e => Failed e
        | Ok converted =>
            match operand converted with
            | Raise e => Failed e
            | Ok c =>
                if Qeq_bool amount 0 then Failed_division
                else
                  match getitem_str data "date" with
                  | Ok date =>
                      Converted (Float.div c (Float.Fin amount)) converted date
                  | Raise e => Failed e
                  end
            end
        end
    end.

End Formatting.

End Currency.

(** ** pages/3_Automation.py: after the loop, lines 123-148 *)

Module BatchPage.
Import Py Automation.






End BatchPage.

(** ** Vocabulary of the further statements *)

Module Terms.
Import Py.

(** A non-empty run of the letters a to z. *)
Definition letters (m : list ascii) : Prop :=
  m <> [] /\ forallb Text.is_lower m = true.

(** How many times [k] occurs in [l]. *)
Definition occurrences {K : Type} (eqb : K -> K -> bool) (k : K) (l : list K) : nat :=
  List.length (filter (eqb k) l).

(** The counts of a counter, added up. *)
Definition total {K : Type} (d : list (K * nat)) : nat :=
  fold_right Nat.add 0%nat (map snd d).

(** The entries of a counter whose count is [c], in their order. *)
Definition with_count {K : Type} (c : nat) (d : list (K * nat)) : list (K * nat) :=
  filter (fun e => Nat.eqb (snd e) c) d.

(** The order [most_common] lists entries in: no count before a larger one. *)
Definition by_count_desc {K : Type} (a b : K * nat) : Prop := (snd b <= snd a)%nat.

(** The distinct elements of [l], each at its first occurrence. *)
Definition first_occurrences {K : Type} (eqb : K -> K -> bool) (l : list K) : list K :=
  fold_left (fun acc x => if existsb (eqb x) acc then acc else acc ++ [x])%list l [].

(** A string made of the letters a to z only. *)
Definition lowercase (t : string) : Prop :=
  forallb Text.is_lower (list_ascii_of_string t) = true.








(** Whether the fetch for the entity gives a summary; the batch skips the
    entity when it returns [None]. *)
Definition has_summary (net : network) (selected_indicator : string)
    (year_range : Z * Z) (e : Spec.entity) : bool :=
  match Spec.fetched net selected_indicator year_range e with
  | Ok (Some _) => true
  | _ => false
  end.

Definition skipped (net : network) (selected_indicator : string)
    (year_range : Z * Z) (e : Spec.entity) : bool :=
  match Spec.fetched net selected_indicator year_range e with
  | Ok None => true
  | _ => false
  end.

(** The two tables of a batch state name the same countries in the same
    order. *)
Definition aligned (st : Automation.batch_state) : Prop :=
  map Automation.row_Country (Automation.results st)
  = map fst (Automation.full_series st).

(** [s] holds elements of [l], in the order they have in [l]. *)
Inductive subsequence {A : Type} : list A -> list A -> Prop :=
| subsequence_nil : subsequence [] []
| subsequence_skip (x : A) (s l : list A) : subsequence s l -> subsequence s (x :: l)
| subsequence_keep (x : A) (s l : list A) :
    subsequence s l -> subsequence (x :: s) (x :: l).

(** The series the batch keeps for the entity: the frame of its summary
    under its name, or nothing. *)
Definition series_of (net : network) (selected_indicator : string)
    (year_range : Z * Z) (e : Spec.entity) : list (string * Automation.DataFrame) :=
  match Spec.fetched net selected_indicator year_range e with
  | Ok (Some s) => [(fst e, Automation._data s)]
  | _ => []
  end.

End Terms.

(** ** Rounding *)

Section Rounding.
Import Py.

Lemma round_half_even_comp (x y : Q) :
  (x == y)%Q -> round_half_even x = round_half_even y.
Proof.
  intros E. unfold round_half_even.
  assert (E' : (x + (1 # 2) == y + (1 # 2))%Q) by (rewrite E; reflexivity).
  rewrite (Qfloor_comp _ _ E').
  assert (B : Qeq_bool (x + (1 # 2)) (inject_Z (Qfloor (y + (1 # 2))))
            = Qeq_bool (y + (1 # 2)) (inject_Z (Qfloor (y + (1 # 2))))).
  { apply eq_true_iff_eq. rewrite !Qeq_bool_iff. rewrite E'. reflexivity. }
  rewrite B. reflexivity.
Qed.

Lemma round_half_even_mono (x y : Q) :
  (x <= y)%Q -> round_half_even x <= round_half_even y.
Proof.
  intros L. unfold round_half_even.
  set (a := (x + (1 # 2))%Q). set (b := (y + (1 # 2))%Q).
  assert (Lab : (a <= b)%Q) by (unfold a, b; lra).
  pose proof (Qfloor_resp_le _ _ Lab) as F.
  destruct (Qeq_bool a (inject_Z (Qfloor a)) && Z.odd (Qfloor a)) eqn:Ta;
  destruct (Qeq_bool b (inject_Z (Qfloor b)) && Z.odd (Qfloor b)) eqn:Tb;
    try lia.
  destruct (Z.eq_dec (Qfloor a) (Qfloor b)) as [E | N]; [ | lia ].
  exfalso.
  apply andb_true_iff in Tb as [Tb Ob]. apply Qeq_bool_iff in Tb.
  assert (Ea : (a == inject_Z (Qfloor a))%Q).
  { apply Qle_antisym.
    - rewrite E, <- Tb. exact Lab.
    - apply Qfloor_le. }
  apply Qeq_bool_iff in Ea. rewrite Ea, E, Ob in Ta. discriminate.
Qed.

Lemma round_half_even_inject_Z (k : Z) : round_half_even (inject_Z k) = k.
Proof.
  unfold round_half_even.
  assert (F : Qfloor (inject_Z k + (1 # 2)) = k).
  { unfold Qfloor, Qplus, inject_Z. simpl.
    symmetry. apply (Z.div_unique _ 2 k 1); lia. }
  rewrite F.
  assert (B : Qeq_bool (inject_Z k + (1 # 2)) (inject_Z k) = false).
  { apply not_true_iff_false. rewrite Qeq_bool_iff. lra. }
  rewrite B. reflexivity.
Qed.

Lemma round_mono (x y : Q) (n : nat) : (x <= y)%Q -> (round x n <= round y n)%Q.
Proof.
  intros L. unfold round. destruct n as [ | n].
  - rewrite <- Zle_Qle. apply round_half_even_mono, L.
  - set (p := pow10 (S n)).
    assert (M : round_half_even (x * inject_Z (Zpos p))
                <= round_half_even (y * inject_Z (Zpos p))).
    { apply round_half_even_mono. apply Qmult_le_compat_r; [ exact L | ].
      rewrite <- (Zle_Qle 0). lia. }
    unfold Qle. simpl. nia.
Qed.

Lemma round_inject_Z (k : Z) (n : nat) : (round (inject_Z k) n == inject_Z k)%Q.
Proof.
  unfold round. destruct n as [ | n].
  - rewrite round_half_even_inject_Z. reflexivity.
  - set (p := pow10 (S n)).
    rewrite (round_half_even_comp _ (inject_Z (k * Zpos p))).
    + rewrite round_half_even_inject_Z. unfold Qeq. simpl. lia.
    + rewrite inject_Z_mult. reflexivity.
Qed.

End Rounding.

(** ** Binary floating point *)

Section Binary.
Import Py Float.

Lemma two_to_pos (e : Z) : (0 < two_to e)%Q.
Proof. apply Qpower_0_lt. reflexivity. Qed.

Lemma two_to_plus (a b : Z) : (two_to (a + b) == two_to a * two_to b)%Q.
Proof. apply Qpower_plus. discriminate. Qed.

Lemma two_to_le (a b : Z) : a <= b -> (two_to a <= two_to b)%Q.
Proof. intros H. apply Qpower_le_compat_l; [ exact H | discriminate ]. Qed.

Lemma two_to_lt (a b : Z) : a < b -> (two_to a < two_to b)%Q.
Proof. intros H. apply Qpower_lt_compat_l; [ exact H | reflexivity ]. Qed.

Lemma two_to_lt_inv (a b : Z) : (two_to a < two_to b)%Q -> a < b.
Proof. intros H. apply (Qpower_lt_compat_l_inv 2); [ exact H | reflexivity ]. Qed.

Lemma two_to_inject (k : Z) : 0 <= k -> (two_to k == inject_Z (2 ^ k))%Q.
Proof. intros H. unfold two_to. rewrite Zpower_Qpower by exact H. reflexivity. Qed.

Lemma two_to_succ (a : Z) : (two_to (a + 1) == 2 * two_to a)%Q.
Proof. rewrite two_to_plus. change (two_to 1) with 2%Q. ring. Qed.

Lemma ilog2_spec (q : Q) :
  (0 < q)%Q -> (two_to (ilog2 q) <= q)%Q /\ (q < two_to (ilog2 q + 1))%Q.
Proof.
  intros P. destruct q as [n d]. unfold ilog2. cbn [Qnum Qden].
  assert (Pn : 0 < n) by (unfold Qlt in P; simpl in P; lia).
  set (a := Z.log2 n). set (b := Z.log2 (Zpos d)).
  destruct (Z.log2_spec n Pn) as [A1 A2]. fold a in A1, A2.
  destruct (Z.log2_spec (Zpos d) eq_refl) as [B1 B2]. fold b in B1, B2.
  assert (a0 : 0 <= a) by apply Z.log2_nonneg.
  assert (b0 : 0 <= b) by apply Z.log2_nonneg.
  assert (QA1 : (two_to a <= inject_Z n)%Q).
  { rewrite two_to_inject by exact a0. rewrite <- Zle_Qle. exact A1. }
  assert (QA2 : (inject_Z n < two_to (a + 1))%Q).
  { rewrite two_to_inject by lia. rewrite <- Zlt_Qlt. exact A2. }
  assert (QB1 : (two_to b <= inject_Z (Zpos d))%Q).
  { rewrite two_to_inject by exact b0. rewrite <- Zle_Qle. exact B1. }
  assert (QB2 : (inject_Z (Zpos d) < two_to (b + 1))%Q).
  { rewrite two_to_inject by lia. rewrite <- Zlt_Qlt. exact B2. }
  assert (E : (n # d == inject_Z n / inject_Z (Zpos d))%Q) by apply Qmake_Qdiv.
  set (q := n # d) in *. set (D := inject_Z (Zpos d)) in *. set (N := inject_Z n) in *.
  assert (D0 : (0 < D)%Q) by (unfold D; rewrite <- (Zlt_Qlt 0); lia).
  assert (QD : (q * D == N)%Q).
  { rewrite E. field. intros H. rewrite H in D0. discriminate. }
  pose proof (two_to_pos (a - b)) as Pe.
  pose proof (two_to_pos b) as Pb.
  assert (U : (q < two_to (a - b + 1))%Q).
  { assert (X : (two_to (a - b + 1) * two_to b == two_to (a + 1))%Q).
    { rewrite <- two_to_plus. replace (a - b + 1 + b) with (a + 1) by ring. reflexivity. }
    apply Qnot_le_lt. intros C.
    assert (Y : (two_to (a - b + 1) * two_to b <= q * D)%Q).
    { apply Qmult_le_compat_nonneg; split; try lra.
      pose proof (two_to_pos (a - b + 1)). lra. }
    lra. }
  assert (L : (two_to (a - b - 1) < q)%Q).
  { assert (X : (two_to (a - b - 1) * two_to (b + 1) == two_to a)%Q).
    { rewrite <- two_to_plus. replace (a - b - 1 + (b + 1)) with a by ring. reflexivity. }
    apply Qnot_le_lt. intros C.
    assert (Y : (q * D < two_to (a - b - 1) * two_to (b + 1))%Q).
    { apply Qle_lt_trans with (two_to (a - b - 1) * D)%Q.
      - apply Qmult_le_compat_r; lra.
      - apply Qmult_lt_l; [ apply two_to_pos | exact QB2 ]. }
    lra. }
  destruct (Qle_bool (two_to (a - b)) q) eqn:T.
  - apply Qle_bool_iff in T. split; assumption.
  - assert (T' : (q < two_to (a - b))%Q).
    { apply Qnot_le_lt. intros C. apply Qle_bool_iff in C. congruence. }
    replace (a - b - 1 + 1) with (a - b) by ring. split; [ lra | exact T' ].
Qed.

Lemma ilog2_unique (q : Q) (e : Z) :
  (two_to e <= q)%Q -> (q < two_to (e + 1))%Q -> ilog2 q = e.
Proof.
  intros L U.
  assert (P : (0 < q)%Q) by (pose proof (two_to_pos e); lra).
  destruct (ilog2_spec q P) as [L' U'].
  assert (A : e < ilog2 q + 1) by (apply two_to_lt_inv; lra).
  assert (B : ilog2 q < e + 1) by (apply two_to_lt_inv; lra).
  lia.
Qed.

Lemma ilog2_mono (x y : Q) : (0 < x)%Q -> (x <= y)%Q -> ilog2 x <= ilog2 y.
Proof.
  intros P L.
  destruct (ilog2_spec x P) as [Lx Ux].
  destruct (ilog2_spec y) as [Ly Uy]; [ lra | ].
  assert (A : ilog2 x < ilog2 y + 1) by (apply two_to_lt_inv; lra).
  lia.
Qed.


Lemma quantum_mono (x y : Q) : (0 < x)%Q -> (x <= y)%Q -> quantum x <= quantum y.
Proof. intros P L. unfold quantum. pose proof (ilog2_mono x y P L). lia. Qed.

Lemma scaled_lt (q : Q) :
  (0 < q)%Q -> (q < two_to (quantum q + 53))%Q.
Proof.
  intros P. destruct (ilog2_spec q P) as [_ U].
  apply Qlt_le_trans with (1 := U). apply two_to_le. unfold quantum. lia.
Qed.

Lemma scaled_ge (q : Q) :
  (0 < q)%Q -> -1074 < quantum q -> (two_to (quantum q + 52) <= q)%Q.
Proof.
  intros P H. destruct (ilog2_spec q P) as [L _].
  replace (quantum q + 52) with (ilog2 q); [ exact L | unfold quantum in *; lia ].
Qed.

Lemma div_two_to (q : Q) (e k : Z) :
  (q / two_to e == q * two_to (k - e) / two_to k)%Q.
Proof.
  pose proof (two_to_pos e). pose proof (two_to_pos k).
  assert (X : (two_to k == two_to (k - e) * two_to e)%Q).
  { rewrite <- two_to_plus. replace (k - e + e) with k by ring. reflexivity. }
  rewrite X. field. split; intros C; rewrite C in *.
  - discriminate.
  - pose proof (two_to_pos (k - e)) as Z. rewrite C in Z. discriminate.
Qed.

Lemma le_scaled (q : Q) (e k : Z) :
  (two_to (e + k) <= q)%Q -> (two_to k <= q / two_to e)%Q.
Proof.
  intros H. pose proof (two_to_pos e) as Pe.
  apply Qle_shift_div_l; [ exact Pe | ].
  rewrite <- two_to_plus. replace (k + e) with (e + k) by ring. exact H.
Qed.

Lemma scaled_le (q : Q) (e k : Z) :
  (q <= two_to (e + k))%Q -> (q / two_to e <= two_to k)%Q.
Proof.
  intros H. pose proof (two_to_pos e) as Pe.
  apply Qle_shift_div_r; [ exact Pe | ].
  rewrite <- two_to_plus. replace (k + e) with (e + k) by ring. exact H.
Qed.

Lemma significand_le (q : Q) :
  (0 < q)%Q -> round_half_even (q / two_to (quantum q)) <= 2 ^ 53.
Proof.
  intros P. rewrite <- (round_half_even_inject_Z (2 ^ 53)).
  apply round_half_even_mono. rewrite <- two_to_inject by lia.
  apply scaled_le. apply Qlt_le_weak, scaled_lt, P.
Qed.

Lemma significand_ge (q : Q) :
  (0 < q)%Q -> -1074 < quantum q ->
  2 ^ 52 <= round_half_even (q / two_to (quantum q)).
Proof.
  intros P H. rewrite <- (round_half_even_inject_Z (2 ^ 52)) at 1.
  apply round_half_even_mono. rewrite <- two_to_inject by lia.
  apply le_scaled, scaled_ge; assumption.
Qed.

Lemma significand_nonneg (q : Q) (e : Z) :
  (0 <= q)%Q -> 0 <= round_half_even (q / two_to e).
Proof.
  intros P. rewrite <- (round_half_even_inject_Z 0) at 1.
  apply round_half_even_mono. pose proof (two_to_pos e).
  apply Qle_shift_div_l; [ assumption | ]. change (inject_Z 0) with 0%Q. lra.
Qed.

Lemma nearest_pos_le (q : Q) :
  (0 < q)%Q -> (nearest_pos q <= two_to (quantum q + 53))%Q.
Proof.
  intros P. unfold nearest_pos. rewrite (Z.add_comm (quantum q)), two_to_plus.
  apply Qmult_le_compat_r; [ | apply Qlt_le_weak, two_to_pos ].
  rewrite (two_to_inject 53) by lia. rewrite <- Zle_Qle. apply significand_le, P.
Qed.

Lemma nearest_pos_ge (q : Q) :
  (0 < q)%Q -> -1074 < quantum q -> (two_to (quantum q + 52) <= nearest_pos q)%Q.
Proof.
  intros P H. unfold nearest_pos. rewrite (Z.add_comm (quantum q)), two_to_plus.
  apply Qmult_le_compat_r; [ | apply Qlt_le_weak, two_to_pos ].
  rewrite (two_to_inject 52) by lia. rewrite <- Zle_Qle. apply significand_ge; assumption.
Qed.

Lemma nearest_pos_nonneg (q : Q) : (0 <= q)%Q -> (0 <= nearest_pos q)%Q.
Proof.
  intros P. unfold nearest_pos. apply Qmult_le_0_compat.
  - rewrite <- (Zle_Qle 0). apply significand_nonneg, P.
  - apply Qlt_le_weak, two_to_pos.
Qed.

Lemma nearest_pos_mono (x y : Q) :
  (0 < x)%Q -> (x <= y)%Q -> (nearest_pos x <= nearest_pos y)%Q.
Proof.
  intros P L. assert (Py : (0 < y)%Q) by lra.
  pose proof (quantum_mono x y P L) as Q.
  destruct (Z.eq_dec (quantum x) (quantum y)) as [E | N].
  - unfold nearest_pos. rewrite E.
    apply Qmult_le_compat_r; [ | apply Qlt_le_weak, two_to_pos ].
    rewrite <- Zle_Qle. apply round_half_even_mono.
    pose proof (two_to_pos (quantum y)) as U.
    unfold Qdiv. apply Qmult_le_compat_r; [ exact L | ].
    apply Qlt_le_weak, Qinv_lt_0_compat, U.
  - apply Qle_trans with (two_to (quantum x + 53)); [ apply nearest_pos_le, P | ].
    apply Qle_trans with (two_to (quantum y + 52)); [ apply two_to_le; lia | ].
    apply nearest_pos_ge; [ exact Py | ]. unfold quantum in *. lia.
Qed.

Lemma Qnum_sign (q : Q) :
  match Qnum q with
  | Z0 => (q == 0)%Q
  | Zpos _ => (0 < q)%Q
  | Zneg _ => (q < 0)%Q
  end.
Proof. destruct q as [[ | p | p] d]; unfold Qeq, Qlt; simpl; lia. Qed.

Lemma nearest_nonneg (q : Q) : (0 <= q)%Q -> (0 <= nearest q)%Q.
Proof.
  intros P. unfold nearest. pose proof (Qnum_sign q) as S.
  destruct (Qnum q); [ lra | apply nearest_pos_nonneg, P | lra ].
Qed.

Lemma nearest_nonpos (q : Q) : (q <= 0)%Q -> (nearest q <= 0)%Q.
Proof.
  intros P. unfold nearest. pose proof (Qnum_sign q) as S.
  destruct (Qnum q); [ lra | lra | ].
  assert (N : (0 <= nearest_pos (- q))%Q) by (apply nearest_pos_nonneg; lra). lra.
Qed.

Lemma nearest_mono (x y : Q) : (x <= y)%Q -> (nearest x <= nearest y)%Q.
Proof.
  intros L.
  destruct (Qlt_le_dec 0 x) as [Px | Nx].
  - assert (Py : (0 < y)%Q) by lra.
    unfold nearest. pose proof (Qnum_sign x) as Sx. pose proof (Qnum_sign y) as Sy.
    destruct (Qnum x); [ lra | | lra ]. destruct (Qnum y); [ lra | | lra ].
    apply nearest_pos_mono; assumption.
  - destruct (Qlt_le_dec y 0) as [Ny | Py].
    + unfold nearest. pose proof (Qnum_sign x) as Sx. pose proof (Qnum_sign y) as Sy.
      destruct (Qnum x); [ lra | lra | ]. destruct (Qnum y); [ lra | lra | ].
      assert (M : (nearest_pos (- y) <= nearest_pos (- x))%Q)
        by (apply nearest_pos_mono; lra).
      lra.
    + apply Qle_trans with 0%Q; [ apply nearest_nonpos, Nx | apply nearest_nonneg, Py ].
Qed.

Lemma rnd_mono (x y : Q) : (x <= y)%Q -> fle (rnd x) (rnd y).
Proof.
  intros L. unfold rnd.
  assert (M : (nearest (Qred x) <= nearest (Qred y))%Q).
  { apply nearest_mono. rewrite !Qred_correct. exact L. }
  set (a := nearest (Qred x)) in *. set (b := nearest (Qred y)) in *.
  pose proof (two_to_pos 1024) as T.
  destruct (Qle_bool (two_to 1024) a) eqn:A1.
  - apply Qle_bool_iff in A1.
    assert (B1 : Qle_bool (two_to 1024) b = true) by (apply Qle_bool_iff; lra).
    rewrite B1. exact I.
  - destruct (Qle_bool a (- two_to 1024)) eqn:A2; [ destruct (Qle_bool (two_to 1024) b); [ exact I | destruct (Qle_bool b (- two_to 1024)); exact I ] | ].
    destruct (Qle_bool (two_to 1024) b) eqn:B1; [ exact I | ].
    destruct (Qle_bool b (- two_to 1024)) eqn:B2.
    + apply Qle_bool_iff in B2.
      assert (A2' : Qle_bool a (- two_to 1024) = true) by (apply Qle_bool_iff; lra).
      congruence.
    + simpl. rewrite !Qred_correct. exact M.
Qed.

Lemma rnd_comp (x y : Q) : (x == y)%Q -> rnd x = rnd y.
Proof. intros E. unfold rnd. rewrite (Qred_complete x y E). reflexivity. Qed.

Lemma rnd_not_NaN (x : Q) : rnd x <> NaN.
Proof.
  unfold rnd. destruct (Qle_bool _ _); [ discriminate | ].
  destruct (Qle_bool _ _); discriminate.
Qed.


Lemma nearest_pos_exact (q : Q) (m e : Z) :
  0 < m < 2 ^ 53 -> -1074 <= e -> (q == inject_Z m * two_to e)%Q ->
  (nearest_pos q == q)%Q.
Proof.
  intros Hm He E.
  pose proof (two_to_pos e) as Pe.
  assert (Pm : (0 < inject_Z m)%Q) by (rewrite <- (Zlt_Qlt 0); lia).
  assert (P : (0 < q)%Q) by (rewrite E; apply Qmult_lt_0_compat; assumption).
  assert (U : (q < two_to (53 + e))%Q).
  { rewrite E, two_to_plus. apply Qmult_lt_r; [ exact Pe | ].
    rewrite (two_to_inject 53) by lia. rewrite <- Zlt_Qlt. lia. }
  destruct (ilog2_spec q P) as [L _].
  assert (I : ilog2 q < 53 + e) by (apply two_to_lt_inv; lra).
  assert (K : quantum q <= e) by (unfold quantum; lia).
  unfold nearest_pos. set (k := quantum q) in *.
  assert (S : (q / two_to k == inject_Z (m * 2 ^ (e - k)))%Q).
  { rewrite inject_Z_mult, <- (two_to_inject (e - k)) by lia.
    rewrite E. replace e with ((e - k) + k) at 1 by ring. rewrite two_to_plus.
    pose proof (two_to_pos k) as Pk. field. intros C. rewrite C in Pk. discriminate. }
  rewrite (round_half_even_comp _ _ S), round_half_even_inject_Z.
  rewrite inject_Z_mult, <- (two_to_inject (e - k)) by lia.
  rewrite <- Qmult_assoc, <- two_to_plus. replace (e - k + k) with e by ring.
  symmetry. exact E.
Qed.

Lemma nearest_exact (q : Q) : double q -> (nearest q == q)%Q.
Proof.
  intros (m & e & Hm & He & E). unfold nearest.
  pose proof (Qnum_sign q) as S. pose proof (two_to_pos e) as Pe.
  destruct (Qnum q).
  - symmetry. exact S.
  - assert (0 < m).
    { destruct (Z_lt_le_dec 0 m) as [ | N]; [ assumption | exfalso ].
      assert (X : (inject_Z m <= 0)%Q) by (change 0%Q with (inject_Z 0); rewrite <- Zle_Qle; exact N).
      assert (Y : (inject_Z m * two_to e <= 0 * two_to e)%Q)
        by (apply Qmult_le_compat_r; lra).
      lra. }
    apply (nearest_pos_exact q m e); [ lia | lia | exact E ].
  - assert (m < 0).
    { destruct (Z_lt_le_dec m 0) as [ | N]; [ assumption | exfalso ].
      assert (X : (0 <= inject_Z m)%Q) by (change 0%Q with (inject_Z 0); rewrite <- Zle_Qle; exact N).
      assert (Y : (0 <= inject_Z m * two_to e)%Q)
        by (apply Qmult_le_0_compat; lra).
      lra. }
    rewrite (nearest_pos_exact (- q) (- m) e); [ ring | lia | lia | ].
    rewrite E, inject_Z_opp. ring.
Qed.

Lemma double_bound (q : Q) : double q -> (- two_to 1024 < q)%Q /\ (q < two_to 1024)%Q.
Proof.
  intros (m & e & Hm & He & E). pose proof (two_to_pos e) as Pe.
  assert (B : (two_to 53 * two_to e <= two_to 1024)%Q).
  { rewrite <- two_to_plus. apply two_to_le. lia. }
  assert (M1 : (inject_Z m < two_to 53)%Q).
  { rewrite (two_to_inject 53) by lia. rewrite <- Zlt_Qlt. lia. }
  assert (M2 : (- two_to 53 < inject_Z m)%Q).
  { rewrite (two_to_inject 53) by lia. rewrite <- inject_Z_opp, <- Zlt_Qlt. lia. }
  assert (X1 : (inject_Z m * two_to e < two_to 53 * two_to e)%Q)
    by (apply Qmult_lt_r; assumption).
  assert (X2 : (- two_to 53 * two_to e < inject_Z m * two_to e)%Q)
    by (apply Qmult_lt_r; assumption).
  rewrite E. split; lra.
Qed.

Lemma double_comp (x y : Q) : (x == y)%Q -> double x -> double y.
Proof. intros E (m & e & H). exists m, e. rewrite <- E. exact H. Qed.

(** A value of the format is rounded to itself. *)
Lemma rnd_double (q : Q) : double q -> rnd q = Fin (Qred q).
Proof.
  intros D. unfold rnd.
  assert (D' : double (Qred q)) by (apply (double_comp q); [ symmetry; apply Qred_correct | exact D ]).
  assert (N : (nearest (Qred q) == q)%Q)
    by (rewrite (nearest_exact _ D'); apply Qred_correct).
  destruct (double_bound q D) as [B1 B2].
  destruct (Qle_bool (two_to 1024) (nearest (Qred q))) eqn:A1.
  { apply Qle_bool_iff in A1. lra. }
  destruct (Qle_bool (nearest (Qred q)) (- two_to 1024)) eqn:A2.
  { apply Qle_bool_iff in A2. lra. }
  f_equal. apply Qred_complete, N.
Qed.

Lemma double_inject_Z (z : Z) : Z.abs z <= 2 ^ 53 -> double (inject_Z z).
Proof.
  intros H. destruct (Z.eq_dec (Z.abs z) (2 ^ 53)) as [E | N].
  - exists (z / 2), 1. split; [ | split; [ lia | ] ].
    + apply Z.abs_lt. assert (Z.abs z = 9007199254740992) by exact E. 
      split.
      * apply Z.lt_le_trans with (-4503599627370496); [ reflexivity | ].
        apply Z.div_le_lower_bound; lia.
      * apply Z.div_lt_upper_bound; lia.
    + change (two_to 1) with 2%Q. rewrite <- (inject_Z_mult _ 2).
      assert (X : z = z / 2 * 2).
      { assert (z = 2 ^ 53 \/ z = - 2 ^ 53) as [-> | ->] by lia; reflexivity. }
      rewrite <- X. reflexivity.
  - exists z, 0. split; [ lia | split; [ lia | ] ].
    change (two_to 0) with 1%Q. ring.
Qed.

Lemma Qred_inject_Z (z : Z) : Qred (inject_Z z) = inject_Z z.
Proof. apply Qred_identity. simpl. apply Z.gcd_1_r. Qed.

Lemma rnd_inject_Z (z : Z) : Z.abs z <= 2 ^ 53 -> rnd (inject_Z z) = Fin (inject_Z z).
Proof. intros H. rewrite rnd_double by (apply double_inject_Z, H). f_equal. apply Qred_inject_Z. Qed.


Lemma leb_fle (x y : float) : leb x y = true <-> fle x y.
Proof.
  destruct x as [a | [ | ] | ], y as [b | [ | ] | ]; simpl;
    try (split; [ intros _; exact I | reflexivity ]);
    try (split; [ discriminate | intros [] ]).
  apply Qle_bool_iff.
Qed.

Lemma fle_refl (x : float) : x <> NaN -> fle x x.
Proof. destruct x as [a | [ | ] | ]; simpl; intros H; try exact I; [ apply Qle_refl | congruence ]. Qed.

Lemma fle_trans (x y z : float) : fle x y -> fle y z -> fle x z.
Proof.
  destruct x as [a | [ | ] | ], y as [b | [ | ] | ], z as [c | [ | ] | ]; simpl;
    try tauto. apply Qle_trans.
Qed.

Lemma fle_total (x y : float) : x <> NaN -> y <> NaN -> fle x y \/ fle y x.
Proof.
  destruct x as [a | [ | ] | ], y as [b | [ | ] | ]; simpl; try tauto; try congruence.
  intros _ _. destruct (Qlt_le_dec a b); [ left; lra | right; assumption ].
Qed.

Lemma fle_not_NaN (x y : float) : fle x y -> x <> NaN /\ y <> NaN.
Proof.
  destruct x as [a | [ | ] | ], y as [b | [ | ] | ]; simpl; try tauto;
    intros _; split; discriminate.
Qed.

Lemma negative_pos (c : Q) : (0 < c)%Q -> negative c = false.
Proof.
  intros P. unfold negative. apply negb_false_iff, Qle_bool_iff. lra.
Qed.

Lemma nonzero_pos (c : Q) : (0 < c)%Q -> Qeq_bool c 0 = false.
Proof.
  intros P. apply not_true_iff_false. rewrite Qeq_bool_iff. lra.
Qed.

Lemma mul_mono (c : Q) (x y : float) :
  (0 < c)%Q -> fle x y -> fle (mul x (Fin c)) (mul y (Fin c)).
Proof.
  intros P L. pose proof (negative_pos c P) as N. pose proof (nonzero_pos c P) as Z.
  destruct x as [a | [ | ] | ], y as [b | [ | ] | ]; simpl in *;
    rewrite ?N, ?Z; simpl; try tauto.
  - apply rnd_mono. apply Qmult_le_compat_r; lra.
  - pose proof (rnd_not_NaN (a * c)). destruct (rnd (a * c)) as [ | [ | ] | ]; simpl; tauto.
  - pose proof (rnd_not_NaN (b * c)). destruct (rnd (b * c)) as [ | [ | ] | ]; simpl; tauto.
Qed.

Lemma div_mono (c : Q) (x y : float) :
  (0 < c)%Q -> fle x y -> fle (div x (Fin c)) (div y (Fin c)).
Proof.
  intros P L. pose proof (negative_pos c P) as N. pose proof (nonzero_pos c P) as Z.
  destruct x as [a | [ | ] | ], y as [b | [ | ] | ]; simpl in *;
    rewrite ?N, ?Z; simpl; try tauto.
  - apply rnd_mono. unfold Qdiv. apply Qmult_le_compat_r; [ lra | ].
    apply Qlt_le_weak, Qinv_lt_0_compat, P.
  - pose proof (rnd_not_NaN (a / c)). destruct (rnd (a / c)) as [ | [ | ] | ]; simpl; tauto.
  - pose proof (rnd_not_NaN (b / c)). destruct (rnd (b / c)) as [ | [ | ] | ]; simpl; tauto.
Qed.

Lemma rint_mono (x y : float) : fle x y -> fle (rint x) (rint y).
Proof.
  destruct x as [a | [ | ] | ], y as [b | [ | ] | ]; simpl; try tauto.
  intros L. rewrite <- Zle_Qle. apply round_half_even_mono, L.
Qed.



Lemma of_Z_not_NaN (z : Z) : of_Z z <> NaN.
Proof. apply rnd_not_NaN. Qed.

Lemma hundred : of_Z (10 ^ Z.of_nat 2) = Fin 100.
Proof. apply (rnd_inject_Z 100). vm_compute. discriminate. Qed.

Lemma around_2 (x : float) :
  Numpy.around x 2 = div (rint (mul x (Fin 100))) (Fin 100).
Proof. unfold Numpy.around. rewrite hundred. reflexivity. Qed.

(** [np.round] never reverses the order of two values, although each of
    its three steps is rounded. *)
Lemma around_mono (x y : float) :
  fle x y -> fle (Numpy.around x 2) (Numpy.around y 2).
Proof.
  intros L. rewrite !around_2.
  apply div_mono; [ reflexivity | ]. apply rint_mono.
  apply mul_mono; [ reflexivity | exact L ].
Qed.

Lemma around_not_NaN (x : float) : x <> NaN -> Numpy.around x 2 <> NaN.
Proof.
  intros H. apply (fle_not_NaN (Numpy.around x 2) (Numpy.around x 2)).
  apply around_mono, fle_refl, H.
Qed.

(** A year in the hundreds or thousands goes through [np.round] unchanged. *)
Lemma around_year (y : Z) :
  Z.abs y * 100 <= 2 ^ 53 -> Numpy.around (of_Z y) 2 = Fin (inject_Z y).
Proof.
  intros H. rewrite around_2. unfold of_Z.
  rewrite rnd_inject_Z by lia. cbn [mul].
  rewrite (rnd_comp _ (inject_Z (y * 100))) by (rewrite inject_Z_mult; reflexivity).
  rewrite rnd_inject_Z by lia. cbn [rint].
  rewrite round_half_even_inject_Z. cbn [div].
  change (Qeq_bool 100 0) with false. cbv iota.
  rewrite (rnd_comp _ (inject_Z y)).
  - apply rnd_inject_Z. lia.
  - rewrite inject_Z_mult. change (inject_Z 100) with 100%Q. field.
Qed.

(** The summation needs no more fuel than the length of the array. *)
Lemma pairwise_sum_fuel (fuel fuel' : nat) (a : list float) :
  (List.length a <= fuel)%nat -> (List.length a <= fuel')%nat ->
  Numpy.pairwise_sum fuel a = Numpy.pairwise_sum fuel' a.
Proof.
  revert fuel' a. induction fuel as [ | fuel IH]; intros fuel' a H H'.
  - destruct a; [ | simpl in H; lia ]. destruct fuel'; reflexivity.
  - destruct fuel' as [ | fuel'].
    { destruct a; [ reflexivity | simpl in H'; lia ]. }
    cbn [Numpy.pairwise_sum].
    destruct (List.length a <? 8)%nat eqn:A; [ reflexivity | ].
    destruct (List.length a <=? 128)%nat eqn:B; [ reflexivity | ].
    apply Nat.leb_gt in B.
    set (n := List.length a) in *.
    assert (D : (n / 2 <= n - 1)%nat).
    { assert (X : (n / 2 < n)%nat) by (apply Nat.div_lt; lia). lia. }
    assert (M : ((n / 2) mod 8 < 8)%nat) by (apply Nat.mod_upper_bound; lia).
    assert (M' : ((n / 2) mod 8 <= n / 2)%nat) by (apply Nat.Div0.mod_le).
    assert (G : (64 <= n / 2)%nat).
    { apply Nat.div_le_lower_bound; lia. }
    set (n2 := (n / 2 - (n / 2) mod 8)%nat).
    assert (L1 : (List.length (firstn n2 a) <= n - 1)%nat).
    { rewrite length_firstn. unfold n2. fold n. lia. }
    assert (L2 : (List.length (skipn n2 a) <= n - 1)%nat).
    { rewrite length_skipn. unfold n2. fold n. lia. }
    f_equal; apply IH; lia.
Qed.

(** Nor does the buffered sum. *)
Lemma sum_buffers_fuel (fuel fuel' : nat) (acc : float) (a : list float) :
  (List.length a <= fuel)%nat -> (List.length a <= fuel')%nat ->
  Numpy.sum_buffers fuel acc a = Numpy.sum_buffers fuel' acc a.
Proof.
  revert fuel' acc a. induction fuel as [ | fuel IH]; intros fuel' acc a H H'.
  - destruct a; [ | simpl in H; lia ]. destruct fuel'; reflexivity.
  - destruct fuel' as [ | fuel'].
    { destruct a; [ reflexivity | simpl in H'; lia ]. }
    destruct a as [ | x a]; [ reflexivity | ].
    cbn [Numpy.sum_buffers]. apply IH.
    + rewrite length_skipn. simpl in H |- *. lia.
    + rewrite length_skipn. simpl in H' |- *. lia.
Qed.

End Binary.
(** ** The summation of [numpy] *)

Section Summation.
Import Py Float Numpy Spec.

Lemma sequential_summation (l l0 : list float) (acc : float) :
  summation l0 acc -> summation (l0 ++ l) (sequential acc l).
Proof.
  revert l0 acc. induction l as [ | x l IH]; intros l0 acc H.
  - rewrite app_nil_r. exact H.
  - cbn [sequential fold_left]. change (fold_left add l (add acc x))
      with (sequential (add acc x) l).
    replace (l0 ++ x :: l)%list with ((l0 ++ [x]) ++ l)%list
      by (rewrite <- app_assoc; reflexivity).
    apply IH. apply summation_add; [ exact H | constructor ].
Qed.

(** The accumulators: each is a sum of the elements it has taken. *)
Lemma add_lanes_summation (r a : list float) (taken : list (list float)) :
  Forall2 summation taken r -> (List.length r <= List.length a)%nat ->
  exists taken',
    Forall2 summation taken' (add_lanes r a) /\
    Permutation (List.concat taken') (List.concat taken ++ firstn (List.length r) a).
Proof.
  intros F. revert a. induction F as [ | l x taken r Hx F IH]; intros a L.
  - exists []. split; [ constructor | reflexivity ].
  - destruct a as [ | y a]; [ simpl in L; lia | ].
    destruct (IH a) as (taken' & F' & P'); [ simpl in L; lia | ].
    exists ((l ++ [y]) :: taken')%list. split.
    + cbn [add_lanes]. constructor; [ | exact F' ].
      apply summation_add; [ exact Hx | constructor ].
    + cbn [List.concat List.length firstn]. rewrite <- !app_assoc.
      apply Permutation_app_head. cbn [app].
      rewrite P'. apply Permutation_middle.
Qed.

Lemma add_lanes_length (r a : list float) :
  List.length (add_lanes r a) = List.length r.
Proof.
  revert a. induction r as [ | x r IH]; intros a; [ reflexivity | ].
  destruct a; [ reflexivity | ]. cbn [add_lanes List.length]. rewrite IH. reflexivity.
Qed.

Lemma unrolled_summation (blocks : nat) (r a : list float)
    (taken : list (list float)) :
  Forall2 summation taken r -> List.length r = 8%nat ->
  (8 * blocks <= List.length a)%nat ->
  exists taken',
    Forall2 summation taken' (fst (unrolled blocks r a)) /\
    List.length (fst (unrolled blocks r a)) = 8%nat /\
    Permutation (List.concat taken' ++ snd (unrolled blocks r a)) (List.concat taken ++ a).
Proof.
  revert r a taken. induction blocks as [ | k IH]; intros r a taken F R L.
  - exists taken. cbn [unrolled fst snd]. auto.
  - cbn [unrolled].
    destruct (add_lanes_summation r (firstn 8 a) taken F) as (t1 & F1 & P1).
    { rewrite length_firstn. lia. }
    destruct (IH (add_lanes r (firstn 8 a)) (skipn 8 a) t1 F1) as (t2 & F2 & R2 & P2).
    { rewrite add_lanes_length. exact R. }
    { rewrite length_skipn. lia. }
    exists t2. split; [ exact F2 | ]. split; [ exact R2 | ].
    rewrite P2, P1. rewrite R.
    rewrite firstn_all2 by (rewrite length_firstn; lia).
    rewrite <- app_assoc, firstn_skipn. reflexivity.
Qed.

Lemma lanes_sum_summation (r : list float) (taken : list (list float)) :
  Forall2 summation taken r -> List.length r = 8%nat ->
  summation (List.concat taken) (lanes_sum r).
Proof.
  intros F R.
  do 8 (destruct F as [ | ? ? ? ? ? F]; [ discriminate | ]).
  destruct F; [ | discriminate ].
  cbn [lanes_sum List.concat]. rewrite app_nil_r.
  repeat match goal with
         | |- context [ (?a ++ ?b ++ ?c)%list ] => rewrite (app_assoc a b c)
         end.
  eapply summation_perm; [ | apply summation_add;
    [ apply summation_add; [ apply summation_add | apply summation_add ]
    | apply summation_add; [ apply summation_add | apply summation_add ] ];
    eassumption ].
  rewrite <- !app_assoc. reflexivity.
Qed.

(** Whatever the length of the array, what [numpy] returns is a sum of its
    elements. *)
Lemma pairwise_sum_summation (fuel : nat) (a : list float) :
  (List.length a <= fuel)%nat -> summation a (pairwise_sum fuel a).
Proof.
  revert a. induction fuel as [ | fuel IH]; intros a L.
  - destruct a; [ | simpl in L; lia ]. apply summation_zero.
  - cbn [pairwise_sum].
    destruct (List.length a <? 8)%nat eqn:A.
    { apply (sequential_summation a [] zero), summation_zero. }
    apply Nat.ltb_ge in A.
    destruct (List.length a <=? 128)%nat eqn:B.
    + assert (F0 : Forall2 summation (map (fun x => [x]) (firstn 8 a)) (firstn 8 a)).
      { generalize (firstn 8 a). intros l. induction l; constructor; [ constructor | assumption ]. }
      assert (C0 : List.concat (map (fun x : float => [x]) (firstn 8 a)) = firstn 8 a).
      { generalize (firstn 8 a). intros l. induction l as [ | x l IHl]; [ reflexivity | ].
        cbn [map List.concat app]. rewrite IHl. reflexivity. }
      destruct (unrolled_summation (List.length a / 8 - 1) (firstn 8 a) (skipn 8 a) _ F0)
        as (taken & F & R & P).
      { rewrite length_firstn. lia. }
      { rewrite length_skipn.
        pose proof (Nat.Div0.mul_div_le (List.length a) 8) as D. lia. }
      destruct (unrolled (List.length a / 8 - 1) (firstn 8 a) (skipn 8 a)) as [r rest].
      cbn [fst snd] in F, R, P.
      eapply summation_perm; [ | apply sequential_summation,
                                  (lanes_sum_summation r taken F R) ].
      rewrite P, C0. rewrite firstn_skipn. reflexivity.
    + apply Nat.leb_gt in B.
      set (n := List.length a) in *.
      assert (D : (n / 2 < n)%nat) by (apply Nat.div_lt; lia).
      assert (M : ((n / 2) mod 8 < 8)%nat) by (apply Nat.mod_upper_bound; lia).
      assert (M' : ((n / 2) mod 8 <= n / 2)%nat) by (apply Nat.Div0.mod_le).
      assert (G : (64 <= n / 2)%nat) by (apply Nat.div_le_lower_bound; lia).
      set (n2 := (n / 2 - (n / 2) mod 8)%nat).
      rewrite <- (firstn_skipn n2 a) at 1.
      apply summation_add; apply IH.
      * rewrite length_firstn. fold n. lia.
      * rewrite length_skipn. fold n. lia.
Qed.

Lemma sum_summation (a : list float) : summation a (Numpy.sum a).
Proof.
  unfold Numpy.sum. change a with ([] ++ a)%list at 1.
  apply summation_add; [ apply summation_zero | ].
  apply pairwise_sum_summation. lia.
Qed.

Lemma sum_buffers_summation (fuel : nat) (l0 a : list float) (acc : float) :
  (List.length a <= fuel)%nat -> summation l0 acc ->
  summation (l0 ++ a) (sum_buffers fuel acc a).
Proof.
  revert l0 a acc. induction fuel as [ | fuel IH]; intros l0 a acc L H.
  - destruct a; [ | simpl in L; lia ]. rewrite app_nil_r. exact H.
  - destruct a as [ | x a]; [ rewrite app_nil_r; exact H | ].
    cbn [sum_buffers]. set (b := (x :: a)%list) in *.
    rewrite <- (firstn_skipn bufsize b) at 1. rewrite app_assoc.
    apply IH.
    + rewrite length_skipn. unfold b in *. simpl in L |- *. lia.
    + apply summation_add; [ exact H | ].
      apply pairwise_sum_summation. rewrite length_firstn. lia.
Qed.

Lemma sum_cast_summation (a : list float) : summation a (Numpy.sum_cast a).
Proof.
  unfold Numpy.sum_cast. change a with ([] ++ a)%list at 1.
  apply sum_buffers_summation; [ lia | apply summation_zero ].
Qed.

Lemma float_sum_summation (ints : bool) (l : list Automation.obs) :
  summation (float_values l) (float_sum ints l).
Proof. destruct ints; [ apply sum_cast_summation | apply sum_summation ]. Qed.

Lemma np_round2_around (x : float) : Numpy.around x 2 = np_round2 x.
Proof. apply around_2. Qed.

Lemma round2_presented (x : Automation.number) :
  Automation.round2 x = presented x.
Proof. destruct x; [ reflexivity | ]. cbn [Automation.round2 presented]. rewrite np_round2_around. reflexivity. Qed.

End Summation.

(** ** Minimum and maximum *)

Section Extremes.
Context {A : Type} (le : A -> A -> Prop) (ok : A -> Prop) (least : A -> A -> A).
Hypothesis le_refl : forall a, ok a -> le a a.
Hypothesis le_trans : forall a b c, le a b -> le b c -> le a c.
Hypothesis least_one : forall a b, least a b = a \/ least a b = b.
Hypothesis least_le : forall a b, ok a -> ok b -> le (least a b) a /\ le (least a b) b.

Lemma fold_least (t : list A) (x : A) :
  ok x -> Forall ok t ->
  In (fold_left least t x) (x :: t) /\
  ok (fold_left least t x) /\
  forall y, In y (x :: t) -> le (fold_left least t x) y.
Proof.
  revert x. induction t as [ | h t IH]; intros x Hx Ht; cbn [fold_left].
  - split; [ now left | ]. split; [ exact Hx | ].
    intros y [<- | []]. apply le_refl, Hx.
  - apply Forall_cons_iff in Ht as [Hh Ht].
    assert (Hm : ok (least x h)) by (destruct (least_one x h) as [-> | ->]; assumption).
    destruct (IH (least x h) Hm Ht) as (I & O & L).
    destruct (least_le x h Hx Hh) as [L1 L2].
    split; [ | split; [ exact O | ] ].
    + destruct I as [I | I]; [ | right; right; exact I ].
      rewrite <- I. destruct (least_one x h) as [-> | ->]; [ now left | right; now left ].
    + intros y [<- | [<- | Hy]].
      * apply le_trans with (least x h); [ apply L; now left | exact L1 ].
      * apply le_trans with (least x h); [ apply L; now left | exact L2 ].
      * apply L. now right.
Qed.

End Extremes.

Section Statistics.
Import Py Float Automation.

Lemma min_Z (l : list Z) (d : Z) :
  l <> [] -> In (min Z.min d l) l /\ forall y, In y l -> min Z.min d l <= y.
Proof.
  destruct l as [ | x t]; [ congruence | intros _ ]. cbn [min].
  destruct (fold_least Z.le (fun _ => True) Z.min) with (t := t) (x := x)
    as (I & _ & L); auto.
  - intros; lia.
  - intros; lia.
  - intros; lia.
  - intros; lia.
  - apply Forall_forall. auto.
Qed.

Lemma max_Z (l : list Z) (d : Z) :
  l <> [] -> In (max Z.max d l) l /\ forall y, In y l -> y <= max Z.max d l.
Proof.
  destruct l as [ | x t]; [ congruence | intros _ ]. cbn [max].
  destruct (fold_least (fun a b => b <= a) (fun _ => True) Z.max) with (t := t) (x := x)
    as (I & _ & L); auto.
  - intros; lia.
  - intros; lia.
  - intros; lia.
  - intros; lia.
  - apply Forall_forall. auto.
Qed.

Lemma fmin_one (a b : float) : fmin a b = a \/ fmin a b = b.
Proof. unfold fmin. destruct (leb a b); auto. Qed.

Lemma fmax_one (a b : float) : fmax a b = a \/ fmax a b = b.
Proof. unfold fmax. destruct (leb a b); auto. Qed.

Lemma fmin_le (a b : float) :
  not_NaN a -> not_NaN b -> fle (fmin a b) a /\ fle (fmin a b) b.
Proof.
  intros Ha Hb. unfold fmin. destruct (leb a b) eqn:E.
  - apply leb_fle in E. split; [ apply fle_refl, Ha | exact E ].
  - split; [ | apply fle_refl, Hb ].
    destruct (fle_total a b Ha Hb) as [L | L]; [ | exact L ].
    apply leb_fle in L. congruence.
Qed.

Lemma fmax_le (a b : float) :
  not_NaN a -> not_NaN b -> fle a (fmax a b) /\ fle b (fmax a b).
Proof.
  intros Ha Hb. unfold fmax. destruct (leb a b) eqn:E.
  - apply leb_fle in E. split; [ exact E | apply fle_refl, Hb ].
  - split; [ apply fle_refl, Ha | ].
    destruct (fle_total a b Ha Hb) as [L | L]; [ | exact L ].
    apply leb_fle in L. congruence.
Qed.

Lemma min_float (l : list float) (d : float) :
  l <> [] -> Forall not_NaN l ->
  In (min fmin d l) l /\ forall y, In y l -> fle (min fmin d l) y.
Proof.
  destruct l as [ | x t]; [ congruence | intros _ F ]. cbn [min].
  apply Forall_cons_iff in F as [Hx Ht].
  destruct (fold_least fle not_NaN fmin) with (t := t) (x := x) as (I & _ & L); auto.
  - apply fle_refl.
  - apply fle_trans.
  - apply fmin_one.
  - apply fmin_le.
Qed.

Lemma max_float (l : list float) (d : float) :
  l <> [] -> Forall not_NaN l ->
  In (max fmax d l) l /\ forall y, In y l -> fle y (max fmax d l).
Proof.
  destruct l as [ | x t]; [ congruence | intros _ F ]. cbn [max].
  apply Forall_cons_iff in F as [Hx Ht].
  destruct (fold_least (fun a b => fle b a) not_NaN fmax) with (t := t) (x := x)
    as (I & _ & L); auto.
  - apply fle_refl.
  - intros a b c H1 H2. apply (fle_trans c b a); assumption.
  - apply fmax_one.
  - apply fmax_le.
Qed.

End Statistics.

(** ** Sorting by year *)

Section Sorting.
Import Py Automation Spec.

Lemma insert_by_Year_perm (o : obs) (l : DataFrame) :
  Permutation (insert_by_Year o l) (o :: l).
Proof.
  induction l as [ | h t IH]; simpl; [ reflexivity | ].
  destruct (Year o <=? Year h); [ reflexivity | ].
  rewrite IH. apply perm_swap.
Qed.

Lemma sort_values_perm (l : DataFrame) : Permutation (sort_values l) l.
Proof.
  induction l as [ | o t IH]; simpl; [ reflexivity | ].
  rewrite insert_by_Year_perm. now constructor.
Qed.

Lemma insert_by_Year_ascending (o : obs) (l : DataFrame) :
  ascending l -> ascending (insert_by_Year o l).
Proof.
  unfold ascending. induction l as [ | h t IH]; intros S; simpl.
  - repeat constructor.
  - destruct (Year o <=? Year h) eqn:C.
    + apply Z.leb_le in C. constructor; [ exact S | ].
      inversion S as [ | ? ? St Ht]; subst. constructor; [ exact C | ].
      eapply Forall_impl; [ | exact Ht ]. simpl. intros; lia.
    + apply Z.leb_gt in C. inversion S as [ | ? ? St Ht]; subst.
      constructor; [ apply IH, St | ].
      eapply Permutation_Forall; [ symmetry; apply insert_by_Year_perm | ].
      constructor; [ lia | exact Ht ].
Qed.

Lemma sort_values_ascending (l : DataFrame) : ascending (sort_values l).
Proof.
  induction l as [ | o t IH]; simpl; [ constructor | ].
  apply insert_by_Year_ascending, IH.
Qed.

Lemma ascending_last (l : DataFrame) (d o : obs) :
  ascending l -> In o l -> Year o <= Year (iloc_last l d).
Proof.
  unfold ascending, iloc_last. induction l as [ | h t IH]; intros S H; [ destruct H | ].
  inversion S as [ | ? ? St Ht]; subst.
  destruct t as [ | h' t'].
  - destruct H as [<- | []]. simpl. lia.
  - change (last (h :: h' :: t') d) with (last (h' :: t') d).
    destruct H as [<- | H].
    + rewrite Forall_forall in Ht. 
      assert (I : In (last (h' :: t') d) (h' :: t')).
      { clear. revert h'. induction t' as [ | x t' IH]; intros h'.
        - now left.
        - right. apply IH. }
      apply Ht, I.
    + apply IH; assumption.
Qed.

Lemma iloc_last_In {A : Type} (l : list A) (d : A) : l <> [] -> In (iloc_last l d) l.
Proof.
  unfold iloc_last. induction l as [ | h t IH]; [ congruence | intros _ ].
  destruct t as [ | h' t']; [ now left | ].
  right. apply IH. discriminate.
Qed.

End Sorting.

(** ** One fetch *)

Section Fetch.
Import Py Automation Spec.

Lemma records_of_reads (items : list json) (observations : list obs) (yr : Z * Z) :
  Forall2 reads items observations ->
  records_of items yr = Ok (filter (kept yr) observations).
Proof.
  induction 1 as [ | r o items observations [Hv Hd] _ IH]; [ reflexivity | ].
  destruct o as [y v]. simpl in Hv, Hd. unfold kept. simpl.
  rewrite Hv. simpl.
  destruct (is_None v); simpl; [ exact IH | ].
  destruct (getitem_str r "date") as [d | e]; simpl in Hd |- *; [ | discriminate ].
  rewrite Hd. simpl.
  destruct (in_range yr y); [ | exact IH ].
  rewrite IH. reflexivity.
Qed.

Lemma fetch_payload (net : network) (iso2 iso3 name code : string) (yr : Z * Z)
    (meta : json) (items rest : list json) (observations : list obs) :
  serves net (url iso2 code) (wb_payload meta items rest) ->
  Forall2 reads items observations ->
  fetch_country_data net iso2 iso3 name code yr
  = summarize name (filter (kept yr) observations).
Proof.
  intros (response & Hn & Hb) R. unfold fetch_country_data.
  rewrite Hn. simpl. unfold response_json. rewrite Hb. simpl.
  destruct items as [ | r items].
  - inversion R; subst. reflexivity.
  - cbn -[records_of summarize]. rewrite (records_of_reads _ _ yr R). reflexivity.
Qed.

Lemma summarize_empty (name : string) : summarize name [] = Ok None.
Proof. reflexivity. Qed.

Lemma last_map {A B : Type} (f : A -> B) (l : list A) (d : A) (d' : B) :
  l <> [] -> iloc_last (map f l) d' = f (iloc_last l d).
Proof.
  unfold iloc_last. induction l as [ | h t IH]; [ congruence | intros _ ].
  destruct t; [ reflexivity | ]. apply IH. discriminate.
Qed.

Lemma ints_Value (df : DataFrame) (zs : list Z) :
  ints df = Some zs -> map Value df = map JInt zs.
Proof.
  revert zs. induction df as [ | o t IH]; intros zs; cbn [ints].
  - intros [= <-]. reflexivity.
  - destruct (Value o) eqn:V; try discriminate.
    destruct (ints t) as [tl | ]; [ | discriminate ].
    intros [= <-]. cbn [map]. rewrite V, (IH tl eq_refl). reflexivity.
Qed.

Lemma ints_all_int (df : DataFrame) :
  match ints df with
  | Some _ => all_int df = true
  | None => all_int df = false
  end.
Proof.
  induction df as [ | o t IH]; [ reflexivity | ]. cbn [ints all_int forallb].
  fold (all_int t).
  destruct (Value o); try reflexivity.
  destruct (ints t); [ exact IH | exact IH ].
Qed.

Lemma all_int_perm (l l' : list obs) : Permutation l l' -> all_int l = all_int l'.
Proof.
  intros P. unfold all_int. apply eq_true_iff_eq.
  rewrite !forallb_forall. split; intros H o Ho; apply H.
  - apply Permutation_in with (1 := Permutation_sym P), Ho.
  - apply Permutation_in with (1 := P), Ho.
Qed.

Lemma scalar_float (o : obs) :
  int_or_float o -> scalar false (Value o) = Float (exactly (scalar false (Value o))).
Proof. unfold int_or_float. destruct (Value o); intros H; try destruct H; reflexivity. Qed.

Lemma floats_values (df : DataFrame) :
  Forall int_or_float df -> floats df = Ok (float_values df).
Proof.
  induction 1 as [ | o t Ho _ IH]; [ reflexivity | ].
  cbn [floats float_values map]. fold (float_values t). rewrite IH.
  unfold int_or_float in Ho. destruct (Value o); try destruct Ho; reflexivity.
Qed.

Lemma float_values_not_NaN (df : DataFrame) :
  Forall int_or_float df -> Forall Float.not_NaN (float_values df).
Proof.
  intros F. unfold float_values. apply Forall_map.
  eapply Forall_impl; [ | exact F ]. intros o Ho. unfold int_or_float in Ho.
  destruct (Value o); try destruct Ho; cbn [scalar exactly].
  - apply of_Z_not_NaN.
  - discriminate.
Qed.

Lemma float_values_ints (df : DataFrame) (zs : list Z) :
  map Value df = map JInt zs -> float_values df = map Float.of_Z zs.
Proof.
  revert zs. induction df as [ | o t IH]; intros [ | z zs]; try discriminate.
  - reflexivity.
  - cbn [map float_values]. fold (float_values t). intros [= V E].
    rewrite V, (IH zs E). reflexivity.
Qed.




Lemma le_Int (a b : Z) : a <= b -> le (Int a) (Int b).
Proof. intros H. unfold le. cbn [exactly Float.leb]. apply Qle_bool_iff. rewrite <- Zle_Qle. exact H. Qed.

Lemma le_Float (x y : Float.float) : Float.fle x y -> le (Float x) (Float y).
Proof. intros H. unfold le. cbn [exactly]. apply leb_fle, H. Qed.

(** The summary of a series of numbers, each statistic told by the
    observation it comes from. *)
Lemma summarize_scalars (name : string) (records : list obs) :
  records <> [] -> Forall int_or_float records ->
  exists s lo hi latest,
    summarize name records = Ok (Some s) /\
    Country s = name /\
    _data s = frame (all_int records) (sort_values records) /\
    Mean s
    = round2 (Float (Float.div (float_sum (all_int records) (sort_values records))
                               (Float.of_Z (Z.of_nat (List.length records))))) /\
    In lo records /\ In hi records /\
    (forall o, In o records ->
               le (scalar (all_int records) (Value lo)) (scalar (all_int records) (Value o)) /\
               le (scalar (all_int records) (Value o)) (scalar (all_int records) (Value hi))) /\
    Min s = round2 (scalar (all_int records) (Value lo)) /\
    Max s = round2 (scalar (all_int records) (Value hi)) /\
    In latest records /\
    (forall o', In o' records -> Year o' <= Year latest) /\
    Latest_value s = round2 (scalar (all_int records) (Value latest)) /\
    Latest_year s = round2 (year_scalar (all_int records) (Year latest)).
Proof.
  intros N F.
  pose proof (sort_values_perm records) as P.
  assert (Fs : Forall int_or_float (sort_values records)).
  { eapply Permutation_Forall; [ symmetry; exact P | exact F ]. }
  destruct records as [ | o0 t] eqn:E; [ congruence | ]. rewrite <- E in *.
  assert (Ns : sort_values records <> []).
  { intros H. rewrite H in P. apply Permutation_nil in P. congruence. }
  set (df := sort_values records) in *.
  set (latest := iloc_last df o0).
  assert (Il : In latest records).
  { eapply Permutation_in; [ exact P | ]. apply iloc_last_In, Ns. }
  assert (Ml : forall o', In o' records -> Year o' <= Year latest).
  { intros o' Ho'. apply ascending_last; [ apply sort_values_ascending | ].
    eapply Permutation_in; [ symmetry; exact P | exact Ho' ]. }
  assert (S : summarize name records
              = (col <- Value_column df ;;
                 Ok (Some
                       match col with
                       | Int64 l =>
                           {| Country := name;
                              Mean := round2 (Float (mean col));
                              Min := round2 (Int (min Z.min 0 l));
                              Max := round2 (Int (max Z.max 0 l));
                              Latest_value := round2 (Int (iloc_last l 0));
                              Latest_year := round2 (Int (Year latest));
                              _data := typed col df |}
                       | Float64 l =>
                           {| Country := name;
                              Mean := round2 (Float (mean col));
                              Min := round2 (Float (min fmin Float.zero l));
                              Max := round2 (Float (max fmax Float.zero l));
                              Latest_value := round2 (Float (iloc_last l Float.zero));
                              Latest_year := round2 (Float (Float.of_Z (Year latest)));
                              _data := typed col df |}
                       end))).
  { unfold summarize. rewrite E at 1. reflexivity. }
  assert (Len : List.length df = List.length records)
    by (apply Permutation_length, P).
  rewrite S. clear S. unfold Value_column.
  rewrite (all_int_perm records df (Permutation_sym P)).
  pose proof (ints_all_int df) as A.
  destruct (ints df) as [zs | ] eqn:Iz; rewrite A; cbn [bind].
  - (* an int64 column *)
    pose proof (ints_Value df zs Iz) as V.
    assert (Nz : zs <> []).
    { intros ->. destruct df; [ congruence | discriminate ]. }
    destruct (min_Z zs 0 Nz) as [Imin Lmin]. destruct (max_Z zs 0 Nz) as [Imax Lmax].
    assert (Back : forall z, In z zs -> exists o, In o records /\ Value o = JInt z).
    { intros z Hz. apply (in_map JInt) in Hz. rewrite <- V in Hz.
      apply in_map_iff in Hz as (o & Ho & Io). exists o. split; [ | exact Ho ].
      eapply Permutation_in; [ exact P | exact Io ]. }
    assert (Forth : forall o, In o records -> exists z, In z zs /\ Value o = JInt z).
    { intros o Ho. apply (Permutation_in (l' := df)) in Ho; [ | symmetry; exact P ].
      apply (in_map Value) in Ho. rewrite V in Ho.
      apply in_map_iff in Ho as (z & Hz & Iz'). exists z. auto. }
    destruct (Back _ Imin) as (lo & Ilo & Vlo). destruct (Back _ Imax) as (hi & Ihi & Vhi).
    assert (L : Value latest = JInt (iloc_last zs 0)).
    { unfold latest. rewrite <- (last_map Value df o0 JNull Ns), V.
      apply last_map, Nz. }
    eexists. exists lo, hi, latest. split; [ reflexivity | ].
    cbn [Country _data Mean Min Max Latest_value Latest_year typed year_scalar].
    rewrite Vlo, Vhi, L. cbn [scalar].
    split; [ reflexivity | ]. split; [ reflexivity | ].
    split.
    { cbn [mean float_sum]. rewrite (float_values_ints df zs V).
      rewrite <- Len, <- (length_map Value df), V, length_map. reflexivity. }
    split; [ exact Ilo | ]. split; [ exact Ihi | ]. split.
    { intros o Ho. destruct (Forth o Ho) as (z & Hz & ->). cbn [scalar].
      split; apply le_Int; [ apply Lmin | apply Lmax ]; exact Hz. }
    repeat split; assumption.
  - (* a float64 column *)
    rewrite (floats_values df Fs). cbn [bind].
    set (vals := float_values df).
    assert (Nv : vals <> []).
    { unfold vals, float_values. intros H. apply map_eq_nil in H. congruence. }
    pose proof (float_values_not_NaN df Fs) as NN. fold vals in NN.
    destruct (min_float vals Float.zero Nv NN) as [Imin Lmin].
    destruct (max_float vals Float.zero Nv NN) as [Imax Lmax].
    assert (Back : forall x, In x vals ->
                   exists o, In o records /\ scalar false (Value o) = Float x).
    { intros x Hx. unfold vals, float_values in Hx.
      apply in_map_iff in Hx as (o & Ho & Io). exists o. split.
      - eapply Permutation_in; [ exact P | exact Io ].
      - rewrite <- Ho. apply scalar_float.
        rewrite Forall_forall in Fs. apply Fs, Io. }
    assert (Forth : forall o, In o records ->
                    exists x, In x vals /\ scalar false (Value o) = Float x).
    { intros o Ho. assert (Io : In o df)
        by (eapply Permutation_in; [ symmetry; exact P | exact Ho ]).
      exists (exactly (scalar false (Value o))). split.
      - unfold vals, float_values. apply in_map_iff. exists o. auto.
      - apply scalar_float. rewrite Forall_forall in Fs. apply Fs, Io. }
    destruct (Back _ Imin) as (lo & Ilo & Vlo). destruct (Back _ Imax) as (hi & Ihi & Vhi).
    assert (L : scalar false (Value latest) = Float (iloc_last vals Float.zero)).
    { destruct (Forth latest Il) as (x & _ & Hx). rewrite Hx. f_equal.
      assert (X : exactly (scalar false (Value latest)) = x) by (rewrite Hx; reflexivity).
      rewrite <- X. unfold vals, float_values, latest.
      symmetry. apply (last_map (fun o => exactly (scalar false (Value o)))), Ns. }
    eexists. exists lo, hi, latest. split; [ reflexivity | ].
    cbn [Country _data Mean Min Max Latest_value Latest_year typed year_scalar].
    rewrite Vlo, Vhi, L.
    split; [ reflexivity | ]. split; [ reflexivity | ].
    split.
    { cbn [mean float_sum]. unfold vals, float_values. rewrite length_map, Len.
      reflexivity. }
    split; [ exact Ilo | ]. split; [ exact Ihi | ]. split.
    { intros o Ho. destruct (Forth o Ho) as (x & Hx & ->).
      split; apply le_Float; [ apply Lmin | apply Lmax ]; exact Hx. }
    repeat split; assumption.
Qed.


End Fetch.

(** ** The batch loop *)

Section Batch.
Import Py Automation Spec.
Variable net : network.
Variable sel : string.
Variable yr : Z * Z.

Lemma batch_loop_cons (total i : nat) (e : entity) (rest : list entity)
    (st : batch_state) :
  batch_loop net sel yr total i (e :: rest) st
  = match fetched net sel yr e with
    | Raise x => (report (fraction i total) st, Some x)
    | Ok None => batch_loop net sel yr total (S i) rest (report (fraction i total) st)
    | Ok (Some s) =>
        batch_loop net sel yr total (S i) rest
          (keep (fst e) s (report (fraction i total) st))
    end.
Proof. destruct e as [name [iso2 iso3]]. reflexivity. Qed.

Lemma batch_loop_app (total i : nat) (l1 l2 : list entity) (st : batch_state) :
  batch_loop net sel yr total i (l1 ++ l2) st
  = match batch_loop net sel yr total i l1 st with
    | (st', None) => batch_loop net sel yr total (i + List.length l1) l2 st'
    | (st', Some x) => (st', Some x)
    end.
Proof.
  revert i st. induction l1 as [ | e l1 IH]; intros i st.
  - simpl. rewrite Nat.add_0_r. reflexivity.
  - change ((e :: l1) ++ l2)%list with (e :: (l1 ++ l2))%list.
    rewrite !batch_loop_cons.
    replace (i + List.length (e :: l1))%nat with (S i + List.length l1)%nat
      by (simpl; lia).
    destruct (fetched net sel yr e) as [[s | ] | x]; [ apply IH | apply IH | reflexivity ].
Qed.


Lemma batch_loop_log (l : list entity) :
  forall total i st,
    exists k,
      (k <= List.length l)%nat /\
      progress_log (fst (batch_loop net sel yr total i l st))
      = (progress_log st ++ loop_reports total i k)%list /\
      match snd (batch_loop net sel yr total i l st) with
      | None => k = List.length l
      | Some _ => (1 <= k)%nat
      end.
Proof.
  induction l as [ | e l IH]; intros total i st.
  - exists 0%nat. simpl. rewrite app_nil_r. auto.
  - rewrite batch_loop_cons.
    destruct (fetched net sel yr e) as [[s | ] | x].
    + destruct (IH total (S i) (keep (fst e) s (report (fraction i total) st)))
        as (k & Hk & Hl & Hr).
      exists (S k). split; [ simpl; lia | ]. split; [ | destruct (snd _); simpl; lia ].
      rewrite Hl. unfold loop_reports. simpl. rewrite <- app_assoc. reflexivity.
    + destruct (IH total (S i) (report (fraction i total) st)) as (k & Hk & Hl & Hr).
      exists (S k). split; [ simpl; lia | ]. split; [ | destruct (snd _); simpl; lia ].
      rewrite Hl. unfold loop_reports. simpl. rewrite <- app_assoc. reflexivity.
    + exists 1%nat. simpl. split; [ lia | ]. split; [ reflexivity | lia ].
Qed.

End Batch.

(** ** Progress fractions *)

Section Fractions.
Import Py Automation Spec.

Lemma inv_total_nonneg (total : nat) : (0 <= / inject_Z (Z.of_nat total))%Q.
Proof. apply Qinv_le_0_compat. rewrite <- (Zle_Qle 0). lia. Qed.

Lemma fraction_mono (i j total : nat) :
  (i <= j)%nat -> (fraction i total <= fraction j total)%Q.
Proof.
  intros H. unfold fraction, Qdiv.
  apply Qmult_le_compat_r; [ | apply inv_total_nonneg ].
  rewrite <- Zle_Qle. lia.
Qed.

Lemma fraction_nonneg (i total : nat) : (0 <= fraction i total)%Q.
Proof.
  unfold fraction, Qdiv. apply Qmult_le_0_compat; [ | apply inv_total_nonneg ].
  rewrite <- (Zle_Qle 0). lia.
Qed.

Lemma fraction_lt_1 (i total : nat) : (i < total)%nat -> (fraction i total < 1)%Q.
Proof.
  intros H. unfold fraction. apply Qlt_shift_div_r.
  - rewrite <- (Zlt_Qlt 0). lia.
  - rewrite Qmult_1_l. rewrite <- Zlt_Qlt. lia.
Qed.

Lemma fraction_full (total : nat) : (0 < total)%nat -> (fraction total total == 1)%Q.
Proof.
  intros H. unfold fraction, Qdiv. apply Qmult_inv_r.
  intros E. assert (L : (0 < inject_Z (Z.of_nat total))%Q)
    by (rewrite <- (Zlt_Qlt 0); lia).
  rewrite E in L. discriminate.
Qed.

Lemma loop_reports_sorted (total i k : nat) :
  nondecreasing (loop_reports total i k).
Proof.
  unfold nondecreasing, loop_reports. revert i.
  induction k as [ | k IH]; intros i; simpl; constructor; [ apply IH | ].
  apply Forall_forall. intros x Hx. apply in_map_iff in Hx as (j & <- & Hj).
  apply in_seq in Hj. apply fraction_mono. lia.
Qed.

Lemma loop_reports_lt_1 (total i k : nat) :
  (i + k <= total)%nat -> Forall (fun x => x < 1)%Q (loop_reports total i k).
Proof.
  intros H. apply Forall_forall. intros x Hx.
  apply in_map_iff in Hx as (j & <- & Hj). apply in_seq in Hj.
  apply fraction_lt_1. lia.
Qed.

Lemma nondecreasing_snoc (l : list Q) (y : Q) :
  nondecreasing l -> Forall (fun x => x <= y)%Q l -> nondecreasing (l ++ [y]).
Proof.
  unfold nondecreasing. induction 1 as [ | x l S IH F]; intros B; simpl.
  - repeat constructor.
  - inversion B; subst. constructor; [ auto | ].
    apply Forall_app. split; [ exact F | repeat constructor; assumption ].
Qed.

End Fractions.

(** ** The summary of one country *)


Section Summaries.
Import Py Automation Spec.


Lemma kept_nonempty (yr : Z * Z) (observations : list obs) (o : obs) :
  In o observations -> kept yr o = true -> filter (kept yr) observations <> [].
Proof.
  intros Ho K E. assert (I : In o (filter (kept yr) observations))
    by (apply filter_In; auto).
  rewrite E in I. destruct I.
Qed.

Lemma kept_scalars (yr : Z * Z) (observations : list obs) :
  Forall int64_or_float_or_null observations ->
  Forall int_or_float (filter (kept yr) observations).
Proof.
  intros F. apply Forall_forall. intros o Ho.
  apply filter_In in Ho as [Ho K].
  rewrite Forall_forall in F. specialize (F o Ho).
  unfold kept in K. unfold int64_or_float_or_null in F. unfold int_or_float.
  destruct (Value o); try exact I; try destruct F. discriminate.
Qed.

(** [round(x, 2)] keeps the order of two scalars of one column. *)
Lemma round2_scalars (records : list obs) (a b : obs) :
  Forall int_or_float records -> In a records -> In b records ->
  le (scalar (all_int records) (Value a)) (scalar (all_int records) (Value b)) ->
  le (round2 (scalar (all_int records) (Value a)))
     (round2 (scalar (all_int records) (Value b))).
Proof.
  intros F Ha Hb. rewrite Forall_forall in F.
  destruct (all_int records) eqn:A.
  - unfold all_int in A. rewrite forallb_forall in A.
    pose proof (A a Ha) as Va. pose proof (A b Hb) as Vb.
    destruct (Value a); try discriminate. destruct (Value b); try discriminate.
    exact (fun H => H).
  - rewrite (scalar_float a (F a Ha)), (scalar_float b (F b Hb)).
    cbn [round2]. unfold le. cbn [exactly]. rewrite !leb_fle. apply around_mono.
Qed.

Lemma in_range_plain (yr : Z * Z) (y : Z) :
  plain_year (fst yr) -> plain_year (snd yr) -> in_range yr y = true -> plain_year y.
Proof.
  unfold plain_year, in_range. intros A B H.
  apply andb_true_iff in H as [H1 H2]. apply Z.leb_le in H1, H2. lia.
Qed.

Lemma latest_year_value (ints : bool) (y : Z) :
  plain_year y -> is_value (round2 (year_scalar ints y)) (inject_Z y).
Proof.
  intros H. destruct ints; cbn [year_scalar round2 is_value].
  - reflexivity.
  - rewrite (around_year y H). cbn [is_value]. reflexivity.
Qed.

(** C2, as the code has it.  When the reply holds at least one
    observation in the range whose value is present, the fetch returns a
    summary whose minimum is at most its maximum and whose latest year is
    the greatest year among the retained observations.  The mean is not
    bounded by them: see [mean_outside_bounds]. *)
Theorem summary_bounds (net : network) (iso2 iso3 name code : string)
    (yr : Z * Z) (meta : json) (items rest : list json)
    (observations : list obs) (o : obs) :
  serves net (url iso2 code) (wb_payload meta items rest) ->
  Forall2 reads items observations ->
  Forall int64_or_float_or_null observations ->
  plain_year (fst yr) -> plain_year (snd yr) ->
  In o observations -> kept yr o = true ->
  exists s,
    fetch_country_data net iso2 iso3 name code yr = Ok (Some s) /\
    le (Min s) (Max s) /\
    exists latest,
      In latest observations /\ kept yr latest = true /\
      is_value (Latest_year s) (inject_Z (Year latest)) /\
      forall o', In o' observations -> kept yr o' = true ->
                 Year o' <= Year latest.
Proof.
  intros Sv R F P1 P2 Ho K.
  rewrite (fetch_payload net iso2 iso3 name code yr meta items rest observations Sv R).
  pose proof (kept_scalars yr observations F) as Fk.
  destruct (summarize_scalars name (filter (kept yr) observations)
              (kept_nonempty yr observations o Ho K) Fk)
    as (s & lo & hi & latest & Hs & _ & _ & _ & Ilo & Ihi & B & Hmin & Hmax
        & Il & Ml & _ & Hy).
  exists s. split; [ exact Hs | ]. split.
  - rewrite Hmin, Hmax. apply round2_scalars; try assumption. apply (B hi Ihi).
  - apply filter_In in Il as [Il Kl].
    exists latest. split; [ exact Il | ]. split; [ exact Kl | ]. split.
    + rewrite Hy. apply latest_year_value.
      unfold kept in Kl. apply andb_true_iff in Kl as [_ Kl].
      apply (in_range_plain yr); assumption.
    + intros o' Ho' K'. apply Ml, filter_In. auto.
Qed.

Lemma summary_bounds_witness :
  exists s,
    fetch_country_data Sample.net "AL" "ALB" "Albania" "NY.GDP.PCAP.CD" (2016, 2023)
    = Ok (Some s) /\
    le (Min s) (Max s) /\
    exists latest,
      In latest Sample.observations /\ kept (2016, 2023) latest = true /\
      is_value (Latest_year s) (inject_Z (Year latest)) /\
      forall o', In o' Sample.observations -> kept (2016, 2023) o' = true ->
                 Year o' <= Year latest.
Proof.
  apply (summary_bounds Sample.net "AL" "ALB" "Albania" "NY.GDP.PCAP.CD" (2016, 2023)
           Sample.meta Sample.items [] Sample.observations
           {| Year := 2021; Value := JNum 20 |}).
  - eexists. split; reflexivity.
  - repeat constructor.
  - repeat (apply Forall_cons; [ exact I | ]). apply Forall_nil.
  - vm_compute. discriminate.
  - vm_compute. discriminate.
  - simpl. auto.
  - reflexivity.
Defined.

(** C2 as stated fails for the mean.  Three years at 0.025 have a
    [float64] sum slightly above 0.075, and their mean is rounded to 0.03
    while the maximum, 0.025 itself, is rounded to 0.02.  The mean of the
    single [int] [2 ^ 53 + 1] is the float [2 ^ 53], below the minimum, which
    is that [int]. *)
Lemma mean_outside_bounds :
  (exists s,
     fetch_country_data Sample.net_fortieths "AL" "ALB" "Albania" "NY.GDP.PCAP.CD"
       (2016, 2023) = Ok (Some s) /\
     map Year (_data s) = [2019; 2020; 2021] /\
     Mean s = Float (Float.rnd (3 # 100)) /\
     Max s = Float (Float.rnd (2 # 100)) /\
     ~ le (Mean s) (Max s)) /\
  (exists s,
     fetch_country_data Sample.net_odd_int "AL" "ALB" "Albania" "NY.GDP.PCAP.CD"
       (2016, 2023) = Ok (Some s) /\
     Mean s = Float (Float.Fin 9007199254740992) /\
     Min s = Int 9007199254740993 /\
     ~ le (Min s) (Mean s)).
Proof.
  split; eexists; (split; [ vm_compute; reflexivity | ]);
    repeat split; try (vm_compute; reflexivity);
    intros H; vm_compute in H; discriminate.
Qed.

(** C3, as the code has it.  The summary is computed on the retained
    observations in the order of their years.  Its mean is a [float64] sum of
    the values, added as [numpy] adds them, over their number; its minimum
    and maximum come from observations whose values bound all the others, and
    its latest value and year from one retained observation of greatest year.
    Each of them is presented through [round(x, 2)], which returns an
    [int64] as it is and takes a [float64] through the three rounded steps of
    [np.round]; the latest year is a float when the values are. *)
Theorem rounded_statistics (net : network) (iso2 iso3 name code : string)
    (yr : Z * Z) (meta : json) (items rest : list json)
    (observations : list obs) (o : obs) :
  serves net (url iso2 code) (wb_payload meta items rest) ->
  Forall2 reads items observations ->
  Forall int64_or_float_or_null observations ->
  int64 (fst yr) -> int64 (snd yr) ->
  In o observations -> kept yr o = true ->
  exists s series ints total lo hi latest,
    fetch_country_data net iso2 iso3 name code yr = Ok (Some s) /\
    Permutation series (filter (kept yr) observations) /\
    ascending series /\
    ints = all_int series /\
    _data s = frame ints series /\
    total = float_sum ints series /\
    summation (float_values series) total /\
    Mean s
    = Float (np_round2 (Float.div total (Float.of_Z (Z.of_nat (List.length series))))) /\
    In lo series /\ In hi series /\
    (forall o', In o' series ->
                le (scalar ints (Value lo)) (scalar ints (Value o')) /\
                le (scalar ints (Value o')) (scalar ints (Value hi))) /\
    Min s = presented (scalar ints (Value lo)) /\
    Max s = presented (scalar ints (Value hi)) /\
    In latest series /\
    (forall o', In o' series -> Year o' <= Year latest) /\
    Latest_value s = presented (scalar ints (Value latest)) /\
    Latest_year s = presented (year_scalar ints (Year latest)).
Proof.
  intros Sv R F _ _ Ho K.
  rewrite (fetch_payload net iso2 iso3 name code yr meta items rest observations Sv R).
  pose proof (kept_scalars yr observations F) as Fk.
  set (records := filter (kept yr) observations) in *.
  destruct (summarize_scalars name records
              (kept_nonempty yr observations o Ho K) Fk)
    as (s & lo & hi & latest & Hs & _ & D & M & Ilo & Ihi & B & Hmin & Hmax
        & Il & Ml & Hv & Hy).
  pose proof (sort_values_perm records) as P.
  assert (A : all_int records = all_int (sort_values records))
    by (apply all_int_perm; symmetry; exact P).
  assert (Back : forall x, In x records -> In x (sort_values records))
    by (intros x; apply Permutation_in; symmetry; exact P).
  assert (Forth : forall x, In x (sort_values records) -> In x records)
    by (intros x; apply Permutation_in; exact P).
  rewrite round2_presented in Hmin, Hmax, Hv, Hy.
  exists s, (sort_values records), (all_int records),
    (float_sum (all_int records) (sort_values records)), lo, hi, latest.
  split; [ exact Hs | ]. split; [ exact P | ].
  split; [ apply sort_values_ascending | ]. split; [ exact A | ].
  split; [ exact D | ]. split; [ reflexivity | ].
  split; [ apply float_sum_summation | ]. split.
  { rewrite M, round2_presented, (Permutation_length P). reflexivity. }
  split; [ apply Back, Ilo | ]. split; [ apply Back, Ihi | ].
  split; [ intros o' Ho'; apply B, Forth, Ho' | ].
  split; [ exact Hmin | ]. split; [ exact Hmax | ].
  split; [ apply Back, Il | ].
  split; [ intros o' Ho'; apply Ml, Forth, Ho' | ].
  split; assumption.
Qed.

Lemma rounded_statistics_witness :
  exists s series ints total lo hi latest,
    fetch_country_data Sample.net_eighth "AL" "ALB" "Albania" "NY.GDP.PCAP.CD"
      (2016, 2023) = Ok (Some s) /\
    Permutation series
      (filter (kept (2016, 2023)) [ {| Year := 2020; Value := JNum (1 # 8) |} ]) /\
    ascending series /\
    ints = all_int series /\
    _data s = frame ints series /\
    total = float_sum ints series /\
    summation (float_values series) total /\
    Mean s
    = Float (np_round2 (Float.div total (Float.of_Z (Z.of_nat (List.length series))))) /\
    In lo series /\ In hi series /\
    (forall o', In o' series ->
                le (scalar ints (Value lo)) (scalar ints (Value o')) /\
                le (scalar ints (Value o')) (scalar ints (Value hi))) /\
    Min s = presented (scalar ints (Value lo)) /\
    Max s = presented (scalar ints (Value hi)) /\
    In latest series /\
    (forall o', In o' series -> Year o' <= Year latest) /\
    Latest_value s = presented (scalar ints (Value latest)) /\
    Latest_year s = presented (year_scalar ints (Year latest)).
Proof.
  apply (rounded_statistics Sample.net_eighth "AL" "ALB" "Albania" "NY.GDP.PCAP.CD"
           (2016, 2023) Sample.meta [Sample.item "2020" (JNum (1 # 8))] []
           [ {| Year := 2020; Value := JNum (1 # 8) |} ]
           {| Year := 2020; Value := JNum (1 # 8) |}).
  - eexists. split; reflexivity.
  - repeat constructor.
  - repeat (apply Forall_cons; [ exact I | ]). apply Forall_nil.
  - unfold int64. simpl. lia.
  - unfold int64. simpl. lia.
  - simpl. auto.
  - reflexivity.
Defined.

(** C3 as stated fails: for the one-value series (2020, 0.125) the summary
    reports the float nearest to 0.12 as mean, minimum, maximum and latest
    value, none of which is the unrounded 0.125. *)
Lemma unrounded_statistics_refuted :
  exists s,
    fetch_country_data Sample.net_eighth "AL" "ALB" "Albania" "NY.GDP.PCAP.CD"
      (2016, 2023) = Ok (Some s) /\
    map Value (_data s) = [JNum (1 # 8)] /\
    Mean s = Float (Float.rnd (12 # 100)) /\
    Min s = Float (Float.rnd (12 # 100)) /\
    Max s = Float (Float.rnd (12 # 100)) /\
    Latest_value s = Float (Float.rnd (12 # 100)) /\
    ~ is_value (Mean s) (1 # 8) /\
    ~ is_value (Min s) (1 # 8) /\
    ~ is_value (Max s) (1 # 8) /\
    ~ is_value (Latest_value s) (1 # 8).
Proof.
  eexists. split; [ vm_compute; reflexivity | ].
  repeat split; try (vm_compute; reflexivity);
    intros H; vm_compute in H; discriminate.
Qed.

End Summaries.

(** ** Runs of the batch *)

Section BatchRuns.
Import Py Automation Spec.
Variable net : network.
Variable sel : string.
Variable yr : Z * Z.




Lemma batch_loop_returns (l : list entity) :
  Forall (fun e => returns (fetched net sel yr e)) l ->
  forall total i st,
    snd (batch_loop net sel yr total i l st) = None /\
    results (fst (batch_loop net sel yr total i l st))
    = (results st ++ summarized net sel yr l)%list /\
    progress_log (fst (batch_loop net sel yr total i l st))
    = (progress_log st ++ loop_reports total i (List.length l))%list.
Proof.
  induction 1 as [ | e l He _ IH]; intros total i st.
  - simpl. rewrite !app_nil_r. auto.
  - rewrite batch_loop_cons. cbn [summarized].
    destruct (fetched net sel yr e) as [[s | ] | x]; [ | | destruct He ].
    + destruct (IH total (S i) (keep (fst e) s (report (fraction i total) st)))
        as (R1 & R2 & R3).
      split; [ exact R1 | ]. rewrite R2, R3. unfold loop_reports. simpl.
      rewrite <- !app_assoc. auto.
    + destruct (IH total (S i) (report (fraction i total) st)) as (R1 & R2 & R3).
      split; [ exact R1 | ]. rewrite R2, R3. unfold loop_reports. simpl.
      rewrite <- !app_assoc. auto.
Qed.

(** C1, as the code has it.  The batch loop has no handler: when the fetch
    of an entity raises, the run ends there with that exception.  The
    entities before it have their rows (one per summary; those whose fetch
    returned [None] have none, and nothing else records them), the ones after
    it are not processed, and the last progress report is the one that
    announced the failing entity. *)
Theorem batch_stops_at_failure (l1 l2 : list entity) (e : entity) (x : exn) :
  Forall (fun e' => returns (fetched net sel yr e')) l1 ->
  fetched net sel yr e = Raise x ->
  let n := List.length (l1 ++ e :: l2) in
  let st := fst (run_batch net sel yr (l1 ++ e :: l2)) in
  snd (run_batch net sel yr (l1 ++ e :: l2)) = Some x /\
  results st = summarized net sel yr l1 /\
  progress_log st = 0%Q :: loop_reports n 0 (S (List.length l1)) /\
  Forall (fun p => p < 1)%Q (progress_log st).
Proof.
  intros F He n st. subst st. unfold run_batch. fold n.
  rewrite batch_loop_app.
  destruct (batch_loop_returns l1 F n 0%nat initial_state) as (R1 & R2 & R3).
  destruct (batch_loop net sel yr n 0 l1 initial_state) as [s1 r1].
  simpl in R1, R2, R3. subst r1.
  rewrite batch_loop_cons, He. simpl.
  split; [ reflexivity | ]. split; [ exact R2 | ].
  assert (L : (progress_log s1 ++ [fraction (List.length l1) n])%list
              = 0%Q :: loop_reports n 0 (S (List.length l1))).
  { rewrite R3. unfold loop_reports. rewrite seq_S, map_app. reflexivity. }
  split; [ exact L | ]. rewrite L.
  constructor; [ reflexivity | ].
  apply loop_reports_lt_1. unfold n. rewrite length_app. simpl. lia.
Qed.


Lemma batch_loop_all_none (l : list entity) :
  Forall (fun e => fetched net sel yr e = Ok None) l ->
  forall total i st,
    batch_loop net sel yr total i l st
    = ({| progress_log := progress_log st ++ loop_reports total i (List.length l);
          results := results st;
          full_series := full_series st |}, None).
Proof.
  induction 1 as [ | e l He _ IH]; intros total i st.
  - destruct st. simpl. rewrite app_nil_r. reflexivity.
  - rewrite batch_loop_cons, He, IH. unfold loop_reports. simpl.
    rewrite <- app_assoc. reflexivity.
Qed.

Lemma records_of_empty_range (items : list json) (records : list obs) :
  snd yr < fst yr -> records_of items yr = Ok records -> records = [].
Proof.
  intros E. revert records. induction items as [ | r items IH]; intros records; simpl.
  - intros [= <-]. reflexivity.
  - destruct (getitem_str r "value") as [v | ]; simpl; [ | discriminate ].
    destruct (is_None v); [ apply IH | ].
    destruct (getitem_str r "date") as [d | ]; simpl; [ | discriminate ].
    destruct (int d) as [y | ]; simpl; [ | discriminate ].
    assert (O : in_range yr y = false).
    { unfold in_range. apply andb_false_iff.
      destruct (fst yr <=? y) eqn:A; [ right | now left ].
      apply Z.leb_le in A. apply Z.leb_gt. lia. }
    rewrite O. apply IH.
Qed.

Lemma fetch_empty_range (iso2 iso3 name code : string) (r : option summary) :
  snd yr < fst yr ->
  fetch_country_data net iso2 iso3 name code yr = Ok r -> r = None.
Proof.
  intros E. unfold fetch_country_data.
  destruct (net (url iso2 code)) as [response | ]; simpl; [ | discriminate ].
  destruct (response_json response) as [raw | ]; simpl; [ | discriminate ].
  destruct (len raw) as [n | ]; simpl; [ | discriminate ].
  destruct (n <? 2)%nat; [ congruence | ].
  destruct (getitem_int raw 1) as [raw1 | ]; simpl; [ | discriminate ].
  destruct (negb (truthy raw1)); [ congruence | ].
  destruct (iter raw1) as [items | ]; simpl; [ | discriminate ].
  destruct (records_of items yr) as [records | ] eqn:R; simpl; [ | discriminate ].
  rewrite (records_of_empty_range items records E R). simpl. congruence.
Qed.

Lemma fetched_empty_range (e : entity) :
  snd yr < fst yr -> returns (fetched net sel yr e) ->
  fetched net sel yr e = Ok None.
Proof.
  intros E. destruct e as [name [iso2 iso3]]. unfold fetched.
  destruct (lookup sel indicators) as [code | ]; simpl; [ | intros [] ].
  destruct (fetch_country_data net iso2 iso3 name code yr) as [r | ] eqn:F;
    [ intros _ | intros [] ].
  rewrite (fetch_empty_range iso2 iso3 name code r E F). reflexivity.
Qed.

(** C6, as the code has it.  Nothing validates the configuration.  With
    an empty list of entities, or a range whose start exceeds its end, a run
    in which no fetch raises ends normally: every entity is visited, none
    yields a row, and both tables are empty. *)
Theorem no_configuration_check (entities : list entity) :
  entities = [] \/ snd yr < fst yr ->
  Forall (fun e => returns (fetched net sel yr e)) entities ->
  let n := List.length entities in
  run_batch net sel yr entities
  = ({| progress_log := 0%Q :: loop_reports n 0 n ++ [1%Q];
        results := [];
        full_series := [] |}, None).
Proof.
  intros C F n.
  assert (A : Forall (fun e => fetched net sel yr e = Ok None) entities).
  { destruct C as [-> | E]; [ constructor | ].
    eapply Forall_impl; [ | exact F ]. intros e. apply fetched_empty_range, E. }
  unfold run_batch. rewrite (batch_loop_all_none entities A). reflexivity.
Qed.

(** C7, as the code has it.  The progress reports of a run never
    decrease, and the loop reports [i / total] when [i] entities are done.
    A run in which no fetch raises ends with the report 1, which is
    [total / total] unless there is no entity; every earlier report is below
    1, so 1 is reported once, after the last entity.  A run ended by an
    exception never reports 1. *)
Theorem progress_reports (entities : list entity) :
  let n := List.length entities in
  let st := fst (run_batch net sel yr entities) in
  nondecreasing (progress_log st) /\
  (exists k,
      (k <= n)%nat /\
      progress_log st
      = ((0%Q :: loop_reports n 0 k)
           ++ match snd (run_batch net sel yr entities) with
              | None => [1%Q]
              | Some _ => []
              end)%list /\
      Forall (fun p => p < 1)%Q (0%Q :: loop_reports n 0 k) /\
      match snd (run_batch net sel yr entities) with
      | None => k = n
      | Some _ => (1 <= k)%nat
      end) /\
  match n with
  | O => True
  | S _ => (fraction n n == 1)%Q
  end.
Proof.
  intros n st. subst st. unfold run_batch. fold n.
  destruct (batch_loop_log net sel yr entities n 0%nat initial_state)
    as (k & Hk & Hl & Hr).
  destruct (batch_loop net sel yr n 0 entities initial_state) as [s r].
  cbn [fst snd] in Hl, Hr. change (progress_log initial_state) with [0%Q] in Hl.
  assert (B : Forall (fun p => p < 1)%Q (0%Q :: loop_reports n 0 k)).
  { constructor; [ reflexivity | apply loop_reports_lt_1; fold n in Hk; lia ]. }
  assert (S0 : nondecreasing (0%Q :: loop_reports n 0 k)).
  { constructor; [ apply loop_reports_sorted | ].
    apply Forall_forall. intros p Hp. apply in_map_iff in Hp as (j & <- & _).
    apply fraction_nonneg. }
  split; [ | split ].
  - destruct r as [x | ]; cbn [fst progress_log report]; rewrite Hl.
    + exact S0.
    + apply (nondecreasing_snoc (0%Q :: loop_reports n 0 k) 1%Q S0).
      eapply Forall_impl; [ | exact B ]. intros p. apply Qlt_le_weak.
  - exists k. split; [ exact Hk | ].
    destruct r as [x | ]; cbn [fst snd progress_log report]; rewrite Hl.
    + rewrite app_nil_r. auto.
    + auto.
  - destruct n eqn:E; [ exact I | ]. apply fraction_full. lia.
Qed.



End BatchRuns.

Section BatchSamples.
Import Py Automation Spec.

Lemma batch_stops_at_failure_witness :
  snd (run_batch Sample.net_timeout Sample.gdp (2016, 2023)
         ([("Serbia", ("RS", "SRB"))] ++ ("Albania", ("AL", "ALB"))
            :: [("Kosovo", ("XK", "XKX"))]))
  = Some Timeout /\
  results (fst (run_batch Sample.net_timeout Sample.gdp (2016, 2023)
                  ([("Serbia", ("RS", "SRB"))] ++ ("Albania", ("AL", "ALB"))
                     :: [("Kosovo", ("XK", "XKX"))])))
  = summarized Sample.net_timeout Sample.gdp (2016, 2023) [("Serbia", ("RS", "SRB"))] /\
  progress_log (fst (run_batch Sample.net_timeout Sample.gdp (2016, 2023)
                  ([("Serbia", ("RS", "SRB"))] ++ ("Albania", ("AL", "ALB"))
                     :: [("Kosovo", ("XK", "XKX"))])))
  = 0%Q :: loop_reports 3 0 2 /\
  Forall (fun p => p < 1)%Q
    (progress_log (fst (run_batch Sample.net_timeout Sample.gdp (2016, 2023)
                  ([("Serbia", ("RS", "SRB"))] ++ ("Albania", ("AL", "ALB"))
                     :: [("Kosovo", ("XK", "XKX"))])))).
Proof.
  apply (batch_stops_at_failure Sample.net_timeout Sample.gdp (2016, 2023)
           [("Serbia", ("RS", "SRB"))] [("Kosovo", ("XK", "XKX"))]
           ("Albania", ("AL", "ALB")) Timeout).
  - constructor; [ exact I | constructor ].
  - reflexivity.
Defined.

(** C1 as stated fails: with two countries, when the request for the first
    times out the run ends with that exception; the second country, whose
    fetch would have given a summary, is never processed and no row and no
    skip record exists. *)
Lemma continue_after_failure_refuted :
  snd (run_batch Sample.net_timeout Sample.gdp (2016, 2023) Sample.two_countries)
  = Some Timeout /\
  tables (fst (run_batch Sample.net_timeout Sample.gdp (2016, 2023)
                 Sample.two_countries)) = ([], []) /\
  progress_log (fst (run_batch Sample.net_timeout Sample.gdp (2016, 2023)
                       Sample.two_countries)) = [0%Q; fraction 0 2] /\
  exists s,
    fetched Sample.net_timeout Sample.gdp (2016, 2023) ("Serbia", ("RS", "SRB"))
    = Ok (Some s).
Proof.
  repeat split. eexists. reflexivity.
Qed.

(** C7 as stated fails: when the request for the first of two countries
    times out, the only reports are the initial 0 and the 0/2 that announces
    that country; 1 is never reported. *)
Lemma progress_never_completes :
  snd (run_batch Sample.net_timeout Sample.gdp (2016, 2023) Sample.two_countries)
  = Some Timeout /\
  progress_log (fst (run_batch Sample.net_timeout Sample.gdp (2016, 2023)
                       Sample.two_countries)) = [0%Q; fraction 0 2] /\
  Forall (fun p => ~ (p == 1)%Q)
    (progress_log (fst (run_batch Sample.net_timeout Sample.gdp (2016, 2023)
                          Sample.two_countries))).
Proof.
  split; [ reflexivity | ]. split; [ reflexivity | ].
  repeat (apply Forall_cons; [ intros H; vm_compute in H; discriminate | ]).
  apply Forall_nil.
Qed.

Lemma no_configuration_check_witness :
  run_batch Sample.net Sample.gdp (2023, 2016) wb_countries
  = ({| progress_log := 0%Q :: loop_reports 6 0 6 ++ [1%Q];
        results := [];
        full_series := [] |}, None).
Proof.
  apply (no_configuration_check Sample.net Sample.gdp (2023, 2016) wb_countries).
  - right. simpl. lia.
  - repeat (apply Forall_cons; [ exact I | ]). apply Forall_nil.
Defined.

(** C6 as stated fails: an empty list of entities, and a range that starts
    after it ends, both give a run that ends normally, the second after
    visiting all six countries. *)
Lemma configuration_error_refuted :
  snd (run_batch Sample.net Sample.gdp (2016, 2023) []) = None /\
  snd (run_batch Sample.net Sample.gdp (2023, 2016) wb_countries) = None /\
  progress_log (fst (run_batch Sample.net Sample.gdp (2023, 2016) wb_countries))
  = 0%Q :: loop_reports 6 0 6 ++ [1%Q].
Proof. repeat split. Qed.



(** C8.  A reply with fewer than two top-level elements, or whose second
    element is null or empty, makes the fetch return [None], which is also
    what it returns for a well-formed reply none of whose observations is
    retained: the two calls have the same result. *)
Theorem malformed_as_empty (net1 net2 : network) (iso2 iso3 name code : string)
    (yr : Z * Z) (raw : json) (n : nat)
    (meta : json) (items rest : list json) (observations : list obs) :
  serves net1 (url iso2 code) raw ->
  len raw = Ok n ->
  (n < 2)%nat \/ (exists x, getitem_int raw 1 = Ok x /\ truthy x = false) ->
  serves net2 (url iso2 code) (wb_payload meta items rest) ->
  Forall2 reads items observations ->
  filter (kept yr) observations = [] ->
  fetch_country_data net1 iso2 iso3 name code yr = Ok None /\
  fetch_country_data net1 iso2 iso3 name code yr
  = fetch_country_data net2 iso2 iso3 name code yr.
Proof.
  intros (response & Hn & Hb) L M Sv R E.
  assert (F1 : fetch_country_data net1 iso2 iso3 name code yr = Ok None).
  { unfold fetch_country_data. rewrite Hn. simpl. unfold response_json.
    rewrite Hb. simpl. rewrite L. simpl.
    destruct (n <? 2)%nat eqn:C; [ reflexivity | ].
    destruct M as [M | (x & Hx & Tx)].
    - apply Nat.ltb_ge in C. lia.
    - rewrite Hx. simpl. rewrite Tx. reflexivity. }
  split; [ exact F1 | ]. rewrite F1.
  rewrite (fetch_payload net2 iso2 iso3 name code yr meta items rest observations Sv R).
  rewrite E. reflexivity.
Qed.

Lemma malformed_as_empty_witness :
  fetch_country_data Sample.net_truncated "AL" "ALB" "Albania" "NY.GDP.PCAP.CD"
    (2016, 2023) = Ok None /\
  fetch_country_data Sample.net_truncated "AL" "ALB" "Albania" "NY.GDP.PCAP.CD"
    (2016, 2023)
  = fetch_country_data Sample.net_all_null "AL" "ALB" "Albania" "NY.GDP.PCAP.CD"
      (2016, 2023).
Proof.
  apply (malformed_as_empty Sample.net_truncated Sample.net_all_null
           "AL" "ALB" "Albania" "NY.GDP.PCAP.CD" (2016, 2023)
           (JArr [JObj [("message", JArr [JObj [("id", JStr "120")]])]]) 1
           Sample.meta Sample.null_items [] Sample.null_observations).
  - eexists. split; reflexivity.
  - reflexivity.
  - left. lia.
  - eexists. split; reflexivity.
  - repeat constructor.
  - reflexivity.
Defined.

End BatchSamples.

(** ** The data page: rows and observations *)

Section DataPageFacts.
Import Py Spec.
Import Automation(obs, Year, Value, in_range).
Variable indicator_name : string.
Hypothesis not_Year : indicator_name <> "Year".
#[local] Arguments String.eqb : simpl never.

Lemma Qle_bool_inject (a b : Z) : Qle_bool (inject_Z a) (inject_Z b) = (a <=? b).
Proof. unfold Qle_bool, inject_Z. simpl. rewrite !Z.mul_1_r. reflexivity. Qed.

Lemma row_of_unfold (o : obs) :
  row_of indicator_name o
  = [("Year", JInt (Year o)); (indicator_name, Value o)].
Proof.
  unfold row_of, DataPage.make_row. simpl.
  apply String.eqb_neq in not_Year. rewrite not_Year. reflexivity.
Qed.

Lemma number_at_Year (o : obs) :
  DataPage.number_at "Year" (row_of indicator_name o) = Ok (inject_Z (Year o)).
Proof.
  rewrite row_of_unfold. unfold DataPage.number_at. simpl.
  assert (E : String.eqb "Year" indicator_name = false).
  { apply String.eqb_neq. congruence. }
  rewrite E. reflexivity.
Qed.

Abbreviation with_key := (Spec.with_key indicator_name).

Lemma keyed_rows (l : list obs) :
  DataPage.keyed "Year" (map (row_of indicator_name) l) = Ok (map with_key l).
Proof.
  induction l as [ | o l IH]; [ reflexivity | ].
  cbn [map DataPage.keyed]. rewrite number_at_Year, IH. reflexivity.
Qed.

Lemma insert_keyed_map (o : obs) (l : list obs) :
  DataPage.insert_keyed (with_key o) (map with_key l)
  = map with_key (Automation.insert_by_Year o l).
Proof.
  induction l as [ | h t IH]; [ reflexivity | ].
  cbn [map DataPage.insert_keyed Automation.insert_by_Year].
  change (fst (with_key o)) with (inject_Z (Year o)).
  change (fst (with_key h)) with (inject_Z (Year h)).
  rewrite Qle_bool_inject.
  destruct (Year o <=? Year h); [ reflexivity | ].
  cbn [map]. f_equal. exact IH.
Qed.

Lemma sort_keyed_map (l : list obs) :
  DataPage.sort_keyed (map with_key l) = map with_key (Automation.sort_values l).
Proof.
  induction l as [ | o l IH]; [ reflexivity | ].
  cbn [map DataPage.sort_keyed Automation.sort_values].
  rewrite IH. apply insert_keyed_map.
Qed.

Lemma select_years_map (years : Z * Z) (l : list obs) :
  DataPage.select_years years (map (row_of indicator_name) l)
  = Ok (map (row_of indicator_name) (filter (fun o => in_range years (Year o)) l)).
Proof.
  induction l as [ | o l IH]; [ reflexivity | ].
  cbn [map DataPage.select_years filter]. rewrite number_at_Year, IH.
  cbn [bind]. rewrite !Qle_bool_inject. unfold in_range.
  destruct ((fst years <=? Year o) && (Year o <=? snd years)); reflexivity.
Qed.

Lemma labels_of_rows (l : list obs) :
  l <> [] ->
  DataPage.columns (DataPage.DataFrame_of (map (row_of indicator_name) l))
  = ["Year"; indicator_name].
Proof.
  assert (Fix : forall o, DataPage.add_labels ["Year"; indicator_name]
                            (row_of indicator_name o) = ["Year"; indicator_name]).
  { intros o. rewrite row_of_unfold. unfold DataPage.add_labels. simpl.
    rewrite String.eqb_refl. rewrite orb_true_r. reflexivity. }
  assert (All : forall t, fold_left DataPage.add_labels (map (row_of indicator_name) t)
                            ["Year"; indicator_name] = ["Year"; indicator_name]).
  { induction t as [ | o t IH]; [ reflexivity | ]. cbn [map fold_left].
    rewrite Fix. exact IH. }
  destruct l as [ | o t]; [ congruence | intros _ ].
  unfold DataPage.DataFrame_of. cbn [DataPage.columns map fold_left].
  replace (DataPage.add_labels [] (row_of indicator_name o))
    with ["Year"; indicator_name]; [ apply All | ].
  rewrite row_of_unfold. unfold DataPage.add_labels. simpl.
  apply String.eqb_neq in not_Year. rewrite not_Year. reflexivity.
Qed.

Lemma rows_of_reads (items : list json) (observations : list obs) :
  Forall2 reads items observations ->
  DataPage.rows_of indicator_name items
  = Ok (map (row_of indicator_name) (filter present observations)).
Proof.
  induction 1 as [ | r o items observations [Hv Hd] _ IH]; [ reflexivity | ].
  destruct o as [y v]. simpl in Hv, Hd. unfold present.
  cbn [DataPage.rows_of filter Value]. rewrite Hv. cbn [bind].
  destruct (is_None v); cbn [negb]; [ exact IH | ].
  destruct (getitem_str r "date") as [d | e]; cbn [bind] in Hd |- *; [ | discriminate ].
  rewrite Hd, IH. reflexivity.
Qed.

Lemma fetch_wb_data_payload (net : network) (country_code code : string)
    (meta : json) (items rest : list json) (observations : list obs) :
  serves_ok net (DataPage.url country_code code) (wb_payload meta items rest) ->
  Forall2 reads items observations ->
  filter present observations <> [] ->
  DataPage.fetch_wb_data net country_code code indicator_name
  = Ok {| DataPage.columns := ["Year"; indicator_name];
          DataPage.rows :=
            map (row_of indicator_name)
                (Automation.sort_values (filter present observations)) |}.
Proof.
  intros (response & Hn & Hs & Hb) R N. unfold DataPage.fetch_wb_data.
  rewrite Hn. cbn [bind]. rewrite Hs. cbn [bind]. unfold response_json.
  rewrite Hb. cbn [bind wb_payload getitem_int nth_error iter].
  rewrite (rows_of_reads items observations R). cbn [bind].
  unfold DataPage.sort_values. rewrite (labels_of_rows _ N).
  cbn [existsb]. rewrite String.eqb_refl. cbn [orb DataPage.rows DataPage.DataFrame_of].
  rewrite keyed_rows. cbn [bind]. rewrite sort_keyed_map, map_map.
  reflexivity.
Qed.

Lemma kept_split (years : Z * Z) (l : list obs) :
  filter (fun o => in_range years (Year o)) (filter present l) = filter (kept years) l.
Proof.
  induction l as [ | o l IH]; [ reflexivity | ].
  unfold kept, present in *. cbn [filter].
  destruct (negb (is_None (Value o))); cbn [filter andb]; rewrite IH; reflexivity.
Qed.

End DataPageFacts.

(** ** Filtering a sorted list *)

Section Filtering.
Context {A : Type} (p : A -> bool).

Lemma filter_perm (l l' : list A) :
  Permutation l l' -> Permutation (filter p l) (filter p l').
Proof.
  induction 1 as [ | x l l' _ IH | x y l | l l' l'' _ IH1 _ IH2 ]; simpl.
  - constructor.
  - destruct (p x); [ constructor | ]; exact IH.
  - destruct (p x), (p y); try reflexivity. apply perm_swap.
  - etransitivity; eassumption.
Qed.


End Filtering.

(** ** The series of a fetch, on both pages *)

Section Series.
Import Py Spec.
Import Automation(obs, Year, Value, in_range).




(** The scenario of the range (2016, 2023): the item of 2024 is not in the
    series, and removing it from the reply changes nothing. *)
Example observation_of_2024_excluded :
  Automation.fetch_country_data Sample.net "AL" "ALB" "Albania" "NY.GDP.PCAP.CD"
    (2016, 2023)
  = Automation.fetch_country_data Sample.net_without_2024 "AL" "ALB" "Albania"
      "NY.GDP.PCAP.CD" (2016, 2023) /\
  option_map Automation._data
    match Automation.fetch_country_data Sample.net "AL" "ALB" "Albania"
            "NY.GDP.PCAP.CD" (2016, 2023) with
    | Ok r => r
    | Raise _ => None
    end
  = Some [ {| Year := 2020; Value := JNum 10 |}; {| Year := 2021; Value := JNum 20 |} ].
Proof. split; reflexivity. Qed.

(** C9.  When every item of the reply has an absent value, the frame is
    built from no dict, has no ["Year"] column, and sorting it raises
    [KeyError]: [fetch_wb_data] raises instead of returning an empty table,
    and the handler shows the error. *)
Theorem all_null_raises (net : network) (country_code code indicator_name : string)
    (years : Z * Z) (raw records : json) (items : list json) :
  serves_ok net (DataPage.url country_code code) raw ->
  getitem_int raw 1 = Ok records ->
  iter records = Ok items ->
  Forall (fun r => getitem_str r "value" = Ok JNull) items ->
  DataPage.fetch_wb_data net country_code code indicator_name = Raise KeyError /\
  DataPage.fetch_button net country_code code indicator_name years
  = DataPage.Failed KeyError.
Proof.
  intros (response & Hn & Hs & Hb) H1 Hi F.
  assert (E : DataPage.rows_of indicator_name items = Ok []).
  { clear Hi. induction F as [ | r items Hr _ IH]; [ reflexivity | ].
    cbn [DataPage.rows_of]. rewrite Hr. exact IH. }
  assert (W : DataPage.fetch_wb_data net country_code code indicator_name
              = Raise KeyError).
  { unfold DataPage.fetch_wb_data. rewrite Hn. cbn [bind]. rewrite Hs. cbn [bind].
    unfold response_json. rewrite Hb. cbn [bind]. rewrite H1. cbn [bind].
    rewrite Hi. cbn [bind]. rewrite E. reflexivity. }
  split; [ exact W | ]. unfold DataPage.fetch_button. rewrite W. reflexivity.
Qed.

Lemma all_null_raises_witness :
  DataPage.fetch_wb_data Sample.net_all_null "AL" "NY.GDP.MKTP.CD" "GDP (US$)"
  = Raise KeyError /\
  DataPage.fetch_button Sample.net_all_null "AL" "NY.GDP.MKTP.CD" "GDP (US$)"
    (2016, 2023) = DataPage.Failed KeyError.
Proof.
  apply (all_null_raises Sample.net_all_null "AL" "NY.GDP.MKTP.CD" "GDP (US$)"
           (2016, 2023) (wb_payload Sample.meta Sample.null_items [])
           (JArr Sample.null_items) Sample.null_items).
  - eexists. split; [ reflexivity | split; reflexivity ].
  - reflexivity.
  - reflexivity.
  - repeat constructor.
Defined.

End Series.

(** ** Sentiment labels and counts *)

Section SentimentFacts.
Import DataPage.

Lemma gt_iff (a b : Q) : gt a b = true <-> (b < a)%Q.
Proof.
  unfold gt. rewrite negb_true_iff. split.
  - intros H. apply Qnot_le_lt. intros L. apply (proj2 (Qle_bool_iff _ _)) in L. congruence.
  - intros H. apply not_true_iff_false. intros L.
    apply (proj1 (Qle_bool_iff _ _)) in L. apply (Qlt_not_le _ _ H), L.
Qed.

Lemma lt_iff (a b : Q) : lt a b = true <-> (a < b)%Q.
Proof. apply gt_iff. Qed.

Lemma counts_partition (data : list sentiment_row) :
  (n_pos data + n_neu data + n_neg data = List.length data)%nat.
Proof.
  unfold n_pos, n_neu, n_neg, count.
  induction data as [ | r data IH]; [ reflexivity | ].
  cbn [filter]. unfold gt, lt.
  destruct (Qle_bool (Score r) (5 # 100)) eqn:A;
    destruct (Qle_bool (- (5 # 100)) (Score r)) eqn:B;
    cbn [negb andb List.length]; unfold gt, lt in IH; try lia.
  exfalso.
  assert (HA : (5 # 100 < Score r)%Q).
  { apply Qnot_le_lt. intros L. apply (proj2 (Qle_bool_iff _ _)) in L. congruence. }
  assert (HB : (Score r < - (5 # 100))%Q).
  { apply Qnot_le_lt. intros L. apply (proj2 (Qle_bool_iff _ _)) in L. congruence. }
  lra.
Qed.

(** C10.  The sentiment step makes one row per headline, in order; the
    label of a row is Positive exactly when the compound score of its
    headline exceeds 0.05, Negative exactly when it is below -0.05 and
    Neutral exactly when it is between the two; and the three counts
    displayed add up to the number of headlines. *)
Theorem sentiment_labels (compound_of : string -> Q) (headlines : list string) :
  map Headline (sentiment_data compound_of headlines) = headlines /\
  map Sentiment (sentiment_data compound_of headlines)
  = map (fun h => label_of (compound_of h)) headlines /\
  (forall c : Q,
      (label_of c = "Positive" <-> (5 # 100 < c)%Q) /\
      (label_of c = "Negative" <-> (c < - (5 # 100))%Q) /\
      (label_of c = "Neutral" <-> (- (5 # 100) <= c)%Q /\ (c <= 5 # 100)%Q)) /\
  (n_pos (sentiment_data compound_of headlines)
   + n_neu (sentiment_data compound_of headlines)
   + n_neg (sentiment_data compound_of headlines) = List.length headlines)%nat.
Proof.
  split; [ | split; [ | split ] ].
  - unfold sentiment_data. rewrite map_map. cbn [Headline]. apply map_id.
  - unfold sentiment_data. rewrite map_map. reflexivity.
  - intros c. unfold label_of.
    destruct (gt c (5 # 100)) eqn:G; [ | destruct (lt c (- (5 # 100))) eqn:L ].
    + apply gt_iff in G.
      repeat split; intros; first [ congruence | assumption | lra | exfalso; lra ].
    + apply lt_iff in L.
      repeat split; intros; first [ congruence | assumption | lra | exfalso; lra ].
    + assert (NG : ~ (5 # 100 < c)%Q).
      { intros H. apply gt_iff in H. congruence. }
      assert (NL : ~ (c < - (5 # 100))%Q).
      { intros H. apply lt_iff in H. congruence. }
      repeat split; intros; first [ congruence | lra | exfalso; auto ].
  - rewrite counts_partition. unfold sentiment_data. apply length_map.
Qed.

(** The counts are taken on the score rounded to three decimals, the labels
    on the score itself: a headline scored 0.0503 is labelled Positive and
    counted as neutral. *)
Example label_and_count_differ :
  map Sentiment (sentiment_data (fun _ => 503 # 10000) ["h"]) = ["Positive"] /\
  n_pos (sentiment_data (fun _ => 503 # 10000) ["h"]) = 0%nat /\
  n_neu (sentiment_data (fun _ => 503 # 10000) ["h"]) = 1%nat.
Proof. repeat split. Qed.

End SentimentFacts.

(** ** Tokens of the headlines *)

Section Tokens.
Import Text Terms.

Lemma is_lower_word (c : ascii) : is_lower c = true -> is_word c = true.
Proof. unfold is_word. intros ->. reflexivity. Qed.

Lemma longest_letters (s m : list ascii) :
  longest s = Some m -> letters m /\ exists tail, s = (m ++ tail)%list.
Proof.
  revert m. induction s as [ | c rest IH]; intros m; simpl; [ discriminate | ].
  destruct (is_lower c) eqn:L; [ | discriminate ].
  destruct (longest rest) as [m' | ].
  - intros [= <-]. destruct (IH m' eq_refl) as [[N A] [tail E]].
    split; [ split; [ discriminate | simpl; rewrite L; exact A ] | ].
    exists tail. simpl. rewrite <- E. reflexivity.
  - destruct (xorb _ _); [ | discriminate ]. intros [= <-].
    split; [ split; [ discriminate | simpl; rewrite L; reflexivity ] | ].
    exists rest. reflexivity.
Qed.

Lemma longest_whole (w : list ascii) : letters w -> longest w = Some w.
Proof.
  intros [N A]. induction w as [ | c rest IH]; [ congruence | ].
  simpl in A. apply andb_true_iff in A as [L A]. simpl. rewrite L.
  destruct rest as [ | x rest'].
  - simpl. rewrite (is_lower_word c L). reflexivity.
  - rewrite IH; [ reflexivity | discriminate | exact A ].
Qed.

Lemma longest_none (w : list ascii) :
  forallb is_word w = true -> forallb is_lower w = false -> longest w = None.
Proof.
  induction w as [ | c rest IH]; [ reflexivity | ].
  simpl. intros W A. apply andb_true_iff in W as [Wc W].
  destruct (is_lower c) eqn:L; [ | reflexivity ].
  simpl in A. rewrite (IH W A).
  destruct rest as [ | x rest']; [ discriminate | ].
  simpl in W. apply andb_true_iff in W as [Wx _]. rewrite Wc, Wx. reflexivity.
Qed.

Lemma findall_from_skip_all (s : list ascii) (skip : nat) (pw : bool) :
  (List.length s <= skip)%nat -> findall_from skip pw s = [].
Proof.
  revert skip pw. induction s as [ | c rest IH]; intros skip pw H; [ reflexivity | ].
  simpl in H. destruct skip as [ | k]; [ lia | ].
  simpl. apply IH. lia.
Qed.

Lemma findall_from_inside (s : list ascii) :
  forallb is_word s = true -> findall_from 0 true s = [].
Proof.
  induction s as [ | c rest IH]; [ reflexivity | ].
  simpl. intros W. apply andb_true_iff in W as [Wc W].
  rewrite Wc. simpl. apply IH, W.
Qed.

Lemma longest_separator (a b : list ascii) (sep : ascii) :
  is_word sep = false -> longest (a ++ sep :: b) = longest a.
Proof.
  intros S. induction a as [ | c rest IH].
  - simpl. destruct (is_lower sep) eqn:L; [ | reflexivity ].
    rewrite (is_lower_word sep L) in S. discriminate.
  - change ((c :: rest) ++ sep :: b)%list with (c :: (rest ++ sep :: b))%list.
    cbn [longest]. rewrite IH.
    destruct rest as [ | x rest']; [ simpl; rewrite S | ]; reflexivity.
Qed.

Lemma findall_from_separator (a b : list ascii) (sep : ascii) :
  is_word sep = false ->
  forall skip pw,
    (skip <= List.length a)%nat ->
    findall_from skip pw (a ++ sep :: b)
    = (findall_from skip pw a ++ findall b)%list.
Proof.
  intros S. induction a as [ | c rest IH]; intros skip pw H.
  - simpl in H. assert (skip = 0%nat) by lia. subst skip.
    simpl. rewrite S. destruct pw; simpl.
    + assert (L : is_lower sep = false).
      { destruct (is_lower sep) eqn:L; [ | reflexivity ].
        rewrite (is_lower_word sep L) in S. discriminate. }
      rewrite L. reflexivity.
    + reflexivity.
  - change ((c :: rest) ++ sep :: b)%list with (c :: (rest ++ sep :: b))%list.
    destruct skip as [ | k].
    + cbn [findall_from].
      change (c :: (rest ++ sep :: b))%list with ((c :: rest) ++ sep :: b)%list.
      rewrite (longest_separator (c :: rest) b sep S).
      destruct (xorb pw (is_word c)); [ | apply IH; lia ].
      destruct (longest (c :: rest)) as [m | ] eqn:M; [ | apply IH; lia ].
      rewrite IH; [ reflexivity | ].
      destruct (longest_letters _ _ M) as [_ [tail E]].
      apply (f_equal (@List.length ascii)) in E. rewrite length_app in E.
      simpl in E. lia.
    + cbn [findall_from]. apply IH. simpl in H. lia.
Qed.


Lemma findall_from_letters (s : list ascii) :
  forall skip pw, Forall letters (findall_from skip pw s).
Proof.
  induction s as [ | c rest IH]; intros skip pw; [ constructor | ].
  destruct skip as [ | k]; [ | apply IH ].
  cbn [findall_from]. destruct (xorb pw (is_word c)); [ | apply IH ].
  destruct (longest (c :: rest)) as [m | ] eqn:M; [ | apply IH ].
  constructor; [ apply (longest_letters _ _ M) | apply IH ].
Qed.

(** X1.  On a single word (a non-empty run of word characters) the scan
    returns the word itself when it is made of the letters a to z only, and
    nothing otherwise: a word that holds a digit, an underscore or a capital
    gives no token, not a part of it. *)
Theorem findall_word (w : list ascii) :
  w <> [] -> forallb is_word w = true ->
  findall w = if forallb is_lower w then [w] else [].
Proof.
  intros N W. destruct w as [ | c rest]; [ congruence | ].
  unfold findall. cbn [findall_from].
  assert (Wc : is_word c = true) by (simpl in W; apply andb_true_iff in W; tauto).
  rewrite Wc. cbn [xorb].
  destruct (forallb is_lower (c :: rest)) eqn:A.
  - rewrite (longest_whole (c :: rest)); [ | split; [ discriminate | exact A ] ].
    rewrite findall_from_skip_all; [ reflexivity | simpl; lia ].
  - rewrite (longest_none _ W A). rewrite findall_from_inside; [ reflexivity | ].
    simpl in W. apply andb_true_iff in W. tauto.
Qed.

Lemma findall_word_witness :
  findall (list_ascii_of_string "g20")
  = if forallb is_lower (list_ascii_of_string "g20")
    then [list_ascii_of_string "g20"] else [].
Proof.
  apply (findall_word (list_ascii_of_string "g20")).
  - discriminate.
  - reflexivity.
Defined.

Lemma findall_cut (a b : list ascii) (sep : ascii) :
  is_word sep = false ->
  findall (a ++ sep :: b) = (findall a ++ findall b)%list.
Proof.
  intros S. unfold findall at 1 2.
  apply findall_from_separator; [ exact S | lia ].
Qed.

(** X2.  A character that is not a word character separates the scan:
    the tokens of a text cut at such a character are the tokens of the part
    before it followed by the tokens of the part after it. *)
Theorem findall_separator (a b : list ascii) (sep : ascii) :
  is_word sep = false ->
  findall (a ++ sep :: b) = (findall a ++ findall b)%list.
Proof. apply findall_cut. Qed.

Lemma findall_separator_witness :
  findall (list_ascii_of_string "rates" ++ ","%char :: list_ascii_of_string "fed")
  = (findall (list_ascii_of_string "rates")
     ++ findall (list_ascii_of_string "fed"))%list.
Proof.
  apply (findall_separator (list_ascii_of_string "rates")
           (list_ascii_of_string "fed") ","%char).
  reflexivity.
Defined.

Lemma chars_append (a b : string) :
  list_ascii_of_string (a ++ b)
  = (list_ascii_of_string a ++ list_ascii_of_string b)%list.
Proof. induction a as [ | c a IH]; simpl; [ reflexivity | now rewrite IH ]. Qed.

Lemma all_tokens_cons (h h' : string) (hs : list string) :
  all_tokens (h :: h' :: hs) = (all_tokens [h] ++ all_tokens (h' :: hs))%list.
Proof.
  unfold all_tokens, all_text.
  change (String.concat " " (h :: h' :: hs))
    with (h ++ " " ++ String.concat " " (h' :: hs))%string.
  change (String.concat " " [h]) with h.
  rewrite !chars_append. unfold lower. rewrite !map_app.
  change (map lower_char (list_ascii_of_string " ")) with [" "%char].
  change ([" "%char] ++ ?x)%list with (" "%char :: x).
  rewrite findall_cut by reflexivity. apply map_app.
Qed.

Lemma all_tokens_flat_map (headlines : list string) :
  all_tokens headlines = flat_map (fun h => all_tokens [h]) headlines.
Proof.
  induction headlines as [ | h hs IH]; [ reflexivity | ].
  destruct hs as [ | h' hs].
  - simpl. rewrite app_nil_r. reflexivity.
  - rewrite all_tokens_cons, IH. reflexivity.
Qed.

(** X3.  Tokenising the headlines joined by spaces gives, in order, the
    tokens of each headline taken alone. *)
Theorem all_tokens_per_headline (headlines : list string) :
  all_tokens headlines = flat_map (fun h => all_tokens [h]) headlines.
Proof. apply all_tokens_flat_map. Qed.

Lemma tokens_letters (headlines : list string) (t : string) :
  In t (all_tokens headlines) -> t <> "" /\ lowercase t.
Proof.
  unfold all_tokens. intros I. apply in_map_iff in I as (m & <- & I).
  pose proof (findall_from_letters (all_text headlines) 0 false) as F.
  rewrite Forall_forall in F. destruct (F m I) as [N A].
  unfold lowercase. rewrite list_ascii_of_string_of_list_ascii.
  split; [ | exact A ]. destruct m; [ congruence | discriminate ].
Qed.

(** X4.  Every token is a non-empty string of the letters a to z; in
    particular no token holds a space, a digit or a capital. *)
Theorem all_tokens_lowercase (headlines : list string) :
  Forall (fun t => t <> "" /\ lowercase t) (all_tokens headlines).
Proof. apply Forall_forall. intros t. apply tokens_letters. Qed.

Lemma filter_subsequence {A : Type} (p : A -> bool) (l : list A) :
  subsequence (filter p l) l.
Proof.
  induction l as [ | x l IH]; [ constructor | ].
  cbn [filter]. destruct (p x); constructor; exact IH.
Qed.

Lemma keep_token_iff (m : nat) (t : string) :
  keep_token m t = true <-> ~ In t stopwords /\ (m <= String.length t)%nat.
Proof.
  unfold keep_token. rewrite andb_true_iff, negb_true_iff, Nat.leb_le.
  assert (E : existsb (String.eqb t) stopwords = false <-> ~ In t stopwords).
  { rewrite <- not_true_iff_false, existsb_exists. split.
    - intros H I. apply H. exists t. split; [ exact I | apply String.eqb_refl ].
    - intros H (x & I & Ex). apply String.eqb_eq in Ex. subst x. auto. }
  rewrite E. tauto.
Qed.

Lemma occurrences_kept (m : nat) (t : string) (tokens : list string) :
  keep_token m t = true ->
  occurrences String.eqb t (tokens_clean m tokens) = occurrences String.eqb t tokens.
Proof.
  intros K. unfold occurrences, tokens_clean. f_equal.
  induction tokens as [ | x l IH]; [ reflexivity | ].
  cbn [filter]. destruct (String.eqb t x) eqn:E.
  - apply String.eqb_eq in E. subst x. rewrite K. cbn [filter].
    rewrite String.eqb_refl, IH. reflexivity.
  - destruct (keep_token m x); [ cbn [filter]; rewrite E | ]; exact IH.
Qed.

(** X5.  The cleaned tokens are tokens of the text in the order they have
    there, never more numerous; a token is kept, as often as it occurs, when
    it is no stopword and has at least the minimum length, and dropped
    otherwise; and a larger minimum only removes tokens. *)
Theorem tokens_clean_filter (m m' : nat) (tokens : list string) :
  (m <= m')%nat ->
  subsequence (tokens_clean m tokens) tokens /\
  (List.length (tokens_clean m tokens) <= List.length tokens)%nat /\
  (forall t, In t (tokens_clean m tokens) <->
             In t tokens /\ ~ In t stopwords /\ (m <= String.length t)%nat) /\
  (forall t, ~ In t stopwords -> (m <= String.length t)%nat ->
             occurrences String.eqb t (tokens_clean m tokens)
             = occurrences String.eqb t tokens) /\
  tokens_clean m' tokens
  = filter (fun t => (m' <=? String.length t)%nat) (tokens_clean m tokens).
Proof.
  intros L. split; [ apply filter_subsequence | ].
  split; [ apply filter_length_le | ]. split; [ | split ].
  - intros t. unfold tokens_clean. rewrite filter_In, keep_token_iff. tauto.
  - intros t S M. apply occurrences_kept, keep_token_iff. auto.
  - unfold tokens_clean.
    rewrite (filter_ext (keep_token m')
               (fun t => keep_token m t && (m' <=? String.length t)%nat)).
    + induction tokens as [ | t ts IH]; [ reflexivity | ].
      cbn [filter]. destruct (keep_token m t); cbn [andb filter]; rewrite IH;
        reflexivity.
    + intros t. unfold keep_token.
      destruct (m' <=? String.length t)%nat eqn:A.
      * apply Nat.leb_le in A.
        assert (B : (m <=? String.length t)%nat = true) by (apply Nat.leb_le; lia).
        rewrite B. rewrite !andb_true_r. reflexivity.
      * rewrite !andb_false_r. reflexivity.
Qed.

Lemma tokens_clean_filter_witness :
  subsequence (tokens_clean 4 ["rates"; "the"; "rise"; "sharply"])
    ["rates"; "the"; "rise"; "sharply"] /\
  (List.length (tokens_clean 4 ["rates"; "the"; "rise"; "sharply"])
   <= List.length ["rates"; "the"; "rise"; "sharply"])%nat /\
  (forall t, In t (tokens_clean 4 ["rates"; "the"; "rise"; "sharply"]) <->
             In t ["rates"; "the"; "rise"; "sharply"] /\ ~ In t stopwords /\
             (4 <= String.length t)%nat) /\
  (forall t, ~ In t stopwords -> (4 <= String.length t)%nat ->
             occurrences String.eqb t (tokens_clean 4 ["rates"; "the"; "rise"; "sharply"])
             = occurrences String.eqb t ["rates"; "the"; "rise"; "sharply"]) /\
  tokens_clean 5 ["rates"; "the"; "rise"; "sharply"]
  = filter (fun t => (5 <=? String.length t)%nat)
      (tokens_clean 4 ["rates"; "the"; "rise"; "sharply"]).
Proof.
  apply (tokens_clean_filter 4 5 ["rates"; "the"; "rise"; "sharply"]). lia.
Defined.

End Tokens.
(** ** Counters and the most common entries *)

Section Counters.
Import Text Terms.
Context {K : Type} (eqb : K -> K -> bool).
Hypothesis eqb_eq : forall a b, eqb a b = true <-> a = b.

Lemma key_eqb_refl (a : K) : eqb a a = true.
Proof. apply eqb_eq. reflexivity. Qed.

Lemma key_eqb_neq (a b : K) : eqb a b = false <-> a <> b.
Proof. rewrite <- not_true_iff_false, eqb_eq. tauto. Qed.

Lemma get_count_one (k x : K) (d : list (K * nat)) :
  get eqb k (count_one eqb x d) = if eqb k x then S (get eqb k d) else get eqb k d.
Proof.
  induction d as [ | [k' n] rest IH]; cbn [count_one get].
  - destruct (eqb k x); reflexivity.
  - destruct (eqb x k') eqn:X; cbn [get].
    + apply eqb_eq in X. subst k'. destruct (eqb k x); reflexivity.
    + destruct (eqb k k') eqn:Y; [ | exact IH ].
      apply eqb_eq in Y. subst k'.
      assert (Z : eqb k x = false).
      { apply key_eqb_neq. intros ->. rewrite key_eqb_refl in X. discriminate. }
      rewrite Z. reflexivity.
Qed.

Lemma get_fold (k : K) (l : list K) :
  forall d,
    get eqb k (fold_left (fun d x => count_one eqb x d) l d)
    = (get eqb k d + occurrences eqb k l)%nat.
Proof.
  unfold occurrences. induction l as [ | x l IH]; intros d; cbn [fold_left filter].
  - simpl. lia.
  - rewrite IH, get_count_one. destruct (eqb k x); simpl; lia.
Qed.

Lemma keys_count_one (x : K) (d : list (K * nat)) :
  map fst (count_one eqb x d)
  = if existsb (eqb x) (map fst d) then map fst d else (map fst d ++ [x])%list.
Proof.
  induction d as [ | [k' n] rest IH]; cbn [count_one map fst existsb app];
    [ reflexivity | ].
  destruct (eqb x k'); cbn [orb map fst]; [ reflexivity | ].
  rewrite IH. destruct (existsb (eqb x) (map fst rest)); reflexivity.
Qed.

Lemma key_existsb_In (x : K) (l : list K) : existsb (eqb x) l = true <-> In x l.
Proof.
  rewrite existsb_exists. split.
  - intros (y & I & E). apply eqb_eq in E. subst y. exact I.
  - intros I. exists x. split; [ exact I | apply key_eqb_refl ].
Qed.

Lemma keys_fold (l : list K) :
  forall d,
    NoDup (map fst d) ->
    NoDup (map fst (fold_left (fun d x => count_one eqb x d) l d)) /\
    forall k, In k (map fst (fold_left (fun d x => count_one eqb x d) l d))
              <-> In k (map fst d) \/ In k l.
Proof.
  induction l as [ | x l IH]; intros d N; cbn [fold_left].
  - split; [ exact N | ]. simpl. tauto.
  - assert (N' : NoDup (map fst (count_one eqb x d))).
    { rewrite keys_count_one. destruct (existsb (eqb x) (map fst d)) eqn:E; [ exact N | ].
      apply NoDup_app; [ exact N | repeat constructor; intros [] | ].
      intros y Iy [<- | []]. apply key_existsb_In in Iy. congruence. }
    destruct (IH _ N') as [N'' I]. split; [ exact N'' | ].
    intros k. rewrite I, keys_count_one. simpl.
    destruct (existsb (eqb x) (map fst d)) eqn:E.
    + apply key_existsb_In in E. split; [ tauto | ].
      intros [H | [<- | H]]; auto.
    + rewrite in_app_iff. simpl. tauto.
Qed.

Lemma total_count_one (x : K) (d : list (K * nat)) :
  total (count_one eqb x d) = S (total d).
Proof.
  unfold total. induction d as [ | [k' n] rest IH]; cbn [count_one]; [ reflexivity | ].
  destruct (eqb x k'); cbn [map snd fold_right]; [ reflexivity | ].
  rewrite IH. lia.
Qed.

Lemma total_fold (l : list K) :
  forall d, total (fold_left (fun d x => count_one eqb x d) l d)
            = (total d + List.length l)%nat.
Proof.
  induction l as [ | x l IH]; intros d; cbn [fold_left List.length]; [ lia | ].
  rewrite IH, total_count_one. lia.
Qed.

Lemma get_entry (d : list (K * nat)) (k : K) (n : nat) :
  NoDup (map fst d) -> In (k, n) d -> get eqb k d = n.
Proof.
  induction d as [ | [k' n'] rest IH]; intros N I; [ destruct I | ].
  cbn [map fst] in N. inversion N as [ | ? ? Nk Nr]; subst. cbn [get].
  destruct I as [[= -> ->] | I].
  - rewrite key_eqb_refl. reflexivity.
  - destruct (eqb k k') eqn:E; [ | apply IH; assumption ].
    apply eqb_eq in E. subst k'. exfalso. apply Nk.
    apply (in_map fst) in I. exact I.
Qed.

Lemma keys_first_occurrences (l : list K) :
  forall d,
    map fst (fold_left (fun d x => count_one eqb x d) l d)
    = fold_left (fun acc x => if existsb (eqb x) acc then acc else acc ++ [x])%list
                l (map fst d).
Proof.
  induction l as [ | x l IH]; intros d; cbn [fold_left]; [ reflexivity | ].
  rewrite IH, keys_count_one. reflexivity.
Qed.

(** X6.  A counter has one entry per distinct element, in the order in
    which the elements first occur, each holding the number of times the
    element occurs (at least one), and its counts add up to the number of
    elements counted. *)
Theorem Counter_counts (l : list K) :
  map fst (Counter eqb l) = first_occurrences eqb l /\
  NoDup (map fst (Counter eqb l)) /\
  (forall k, In k (map fst (Counter eqb l)) <-> In k l) /\
  (forall k n, In (k, n) (Counter eqb l) ->
               n = occurrences eqb k l /\ (1 <= n)%nat) /\
  (forall k, get eqb k (Counter eqb l) = occurrences eqb k l) /\
  total (Counter eqb l) = List.length l.
Proof.
  unfold Counter.
  destruct (keys_fold l [] (NoDup_nil K)) as [N I].
  assert (G : forall k, get eqb k (fold_left (fun d x => count_one eqb x d) l [])
                        = occurrences eqb k l).
  { intros k. rewrite get_fold. reflexivity. }
  split; [ apply (keys_first_occurrences l []) | ].
  split; [ exact N | ]. split; [ intros k; rewrite I; simpl; tauto | ].
  split; [ | split; [ exact G | rewrite total_fold; reflexivity ] ].
  intros k n H. pose proof (get_entry _ k n N H) as E. rewrite G in E.
  split; [ congruence | ]. subst n.
  assert (Ik : In k l).
  { apply (in_map fst) in H. apply I in H. simpl in H. tauto. }
  unfold occurrences. clear - Ik eqb_eq.
  induction l as [ | x l IH]; [ destruct Ik | ]. cbn [filter].
  destruct Ik as [-> | Ik].
  - rewrite key_eqb_refl. simpl. lia.
  - destruct (eqb k x); simpl; [ lia | apply IH, Ik ].
Qed.

End Counters.

Lemma Counter_counts_witness :
  map fst (Text.Counter String.eqb ["rate"; "data"; "rate"])
  = Terms.first_occurrences String.eqb ["rate"; "data"; "rate"] /\
  NoDup (map fst (Text.Counter String.eqb ["rate"; "data"; "rate"])) /\
  (forall k, In k (map fst (Text.Counter String.eqb ["rate"; "data"; "rate"]))
             <-> In k ["rate"; "data"; "rate"]) /\
  (forall k n, In (k, n) (Text.Counter String.eqb ["rate"; "data"; "rate"]) ->
               n = Terms.occurrences String.eqb k ["rate"; "data"; "rate"]
               /\ (1 <= n)%nat) /\
  (forall k, Text.get String.eqb k (Text.Counter String.eqb ["rate"; "data"; "rate"])
             = Terms.occurrences String.eqb k ["rate"; "data"; "rate"]) /\
  Terms.total (Text.Counter String.eqb ["rate"; "data"; "rate"]) = 3%nat.
Proof.
  apply (Counter_counts String.eqb String.eqb_eq ["rate"; "data"; "rate"]).
Defined.

Section MostCommon.
Import Text Terms.
Context {K : Type}.

Lemma insert_desc_perm (x : K * nat) (l : list (K * nat)) :
  Permutation (insert_desc x l) (x :: l).
Proof.
  induction l as [ | h t IH]; simpl; [ reflexivity | ].
  destruct (snd h <=? snd x)%nat; [ reflexivity | ].
  rewrite IH. apply perm_swap.
Qed.

Lemma sorted_desc_perm (d : list (K * nat)) : Permutation (sorted_desc d) d.
Proof.
  induction d as [ | x t IH]; simpl; [ reflexivity | ].
  rewrite insert_desc_perm. now constructor.
Qed.

Lemma insert_desc_sorted (x : K * nat) (l : list (K * nat)) :
  StronglySorted by_count_desc l -> StronglySorted by_count_desc (insert_desc x l).
Proof.
  unfold by_count_desc. induction l as [ | h t IH]; intros S; simpl.
  - repeat constructor.
  - inversion S as [ | ? ? St Ht]; subst.
    destruct (snd h <=? snd x)%nat eqn:C.
    + apply Nat.leb_le in C. constructor; [ exact S | ].
      constructor; [ exact C | ].
      eapply Forall_impl; [ | exact Ht ]. simpl. intros; lia.
    + apply Nat.leb_gt in C. constructor; [ apply IH, St | ].
      eapply Permutation_Forall; [ symmetry; apply insert_desc_perm | ].
      constructor; [ lia | exact Ht ].
Qed.

Lemma sorted_desc_sorted (d : list (K * nat)) :
  StronglySorted by_count_desc (sorted_desc d).
Proof.
  induction d as [ | x t IH]; simpl; [ constructor | ].
  apply insert_desc_sorted, IH.
Qed.

Lemma sorted_split (l1 l2 : list (K * nat)) :
  StronglySorted by_count_desc (l1 ++ l2) ->
  StronglySorted by_count_desc l1 /\
  forall x y, In x l1 -> In y l2 -> (snd y <= snd x)%nat.
Proof.
  induction l1 as [ | h t IH]; simpl; intros S.
  - split; [ constructor | intros x y [] ].
  - inversion S as [ | ? ? St Ht]; subst. destruct (IH St) as [S1 B].
    apply Forall_app in Ht as [Ht1 Ht2]. split; [ constructor; assumption | ].
    intros x y [<- | Ix] Iy; [ | apply B; assumption ].
    rewrite Forall_forall in Ht2. apply (Ht2 y Iy).
Qed.

(** X7.  [most_common(n)] lists at most [n] entries of the counter, the
    larger counts first, and leaves aside only entries whose count is no
    larger than that of any entry it lists. *)
Theorem most_common_top (n : nat) (d : list (K * nat)) :
  List.length (most_common n d) = Nat.min n (List.length d) /\
  StronglySorted by_count_desc (most_common n d) /\
  exists rest,
    Permutation d (most_common n d ++ rest) /\
    forall x y, In x (most_common n d) -> In y rest -> (snd y <= snd x)%nat.
Proof.
  unfold most_common.
  pose proof (sorted_desc_sorted d) as S.
  rewrite <- (firstn_skipn n (sorted_desc d)) in S.
  destruct (sorted_split _ _ S) as [S1 B].
  split; [ | split; [ exact S1 | ] ].
  - rewrite length_firstn. rewrite (Permutation_length (sorted_desc_perm d)).
    reflexivity.
  - exists (skipn n (sorted_desc d)). split; [ | exact B ].
    rewrite firstn_skipn. symmetry. apply sorted_desc_perm.
Qed.

Lemma with_count_insert (c : nat) (x : K * nat) (l : list (K * nat)) :
  with_count c (insert_desc x l) = with_count c (x :: l).
Proof.
  unfold with_count. induction l as [ | h t IH]; [ reflexivity | ].
  cbn [insert_desc]. destruct (snd h <=? snd x)%nat eqn:C; [ reflexivity | ].
  apply Nat.leb_gt in C. cbn [filter] in IH |- *. rewrite IH.
  destruct (Nat.eqb (snd h) c) eqn:H; destruct (Nat.eqb (snd x) c) eqn:X;
    try reflexivity.
  apply Nat.eqb_eq in H, X. lia.
Qed.

Lemma with_count_sorted (c : nat) (d : list (K * nat)) :
  with_count c (sorted_desc d) = with_count c d.
Proof.
  induction d as [ | x t IH]; [ reflexivity | ].
  cbn [sorted_desc]. rewrite with_count_insert.
  unfold with_count in *. cbn [filter]. rewrite IH. reflexivity.
Qed.

(** X8.  Ties keep the order of the counter, which is the order of first
    occurrence: among the entries of one count, [most_common(n)] lists the
    earliest ones, in that order. *)
Theorem most_common_stable (n c : nat) (d : list (K * nat)) :
  exists rest, with_count c d = (with_count c (most_common n d) ++ rest)%list.
Proof.
  exists (with_count c (skipn n (sorted_desc d))).
  unfold most_common, with_count. rewrite <- filter_app, firstn_skipn.
  symmetry. apply with_count_sorted.
Qed.

End MostCommon.
(** ** Bigrams *)

Section Bigrams.
Import Text Terms.

Lemma bigrams_cons (a b : string) (l : list string) :
  bigrams (a :: b :: l) = (a, b) :: bigrams (b :: l).
Proof. reflexivity. Qed.

Lemma bigrams_app (l1 l2 : list string) (a b : string) :
  bigrams ((l1 ++ [a]) ++ b :: l2)
  = (bigrams (l1 ++ [a]) ++ (a, b) :: bigrams (b :: l2))%list.
Proof.
  induction l1 as [ | x l1 IH]; [ reflexivity | ].
  destruct l1 as [ | y l1].
  - reflexivity.
  - change (((x :: y :: l1) ++ [a]) ++ b :: l2)%list
      with (x :: y :: ((l1 ++ [a]) ++ b :: l2))%list.
    change ((x :: y :: l1) ++ [a])%list with (x :: y :: (l1 ++ [a]))%list.
    rewrite !bigrams_cons. cbn [app]. f_equal. exact IH.
Qed.

Lemma bigrams_length (l : list string) :
  List.length (bigrams l) = (List.length l - 1)%nat.
Proof.
  unfold bigrams. rewrite length_combine. destruct l; cbn [List.tl List.length]; lia.
Qed.

(** X9.  The bigrams are the pairs of neighbours in the cleaned token
    list, one fewer than the tokens.  As that list runs through all the
    headlines, a bigram also joins the last kept token of a group of
    headlines to the first kept token of the headlines that follow. *)
Theorem bigrams_across_headlines (m : nat) (hs1 hs2 : list string)
    (t1 t2 : list string) (a b : string) :
  tokens_clean m (all_tokens hs1) = (t1 ++ [a])%list ->
  tokens_clean m (all_tokens hs2) = b :: t2 ->
  bigrams (tokens_clean m (all_tokens (hs1 ++ hs2)))
  = (bigrams (tokens_clean m (all_tokens hs1))
     ++ (a, b) :: bigrams (tokens_clean m (all_tokens hs2)))%list /\
  List.length (bigrams (tokens_clean m (all_tokens (hs1 ++ hs2))))
  = (List.length (tokens_clean m (all_tokens (hs1 ++ hs2))) - 1)%nat.
Proof.
  intros E1 E2. split; [ | apply bigrams_length ].
  assert (E : tokens_clean m (all_tokens (hs1 ++ hs2))
              = ((t1 ++ [a]) ++ b :: t2)%list).
  { rewrite all_tokens_flat_map, flat_map_app, <- !all_tokens_flat_map.
    unfold tokens_clean in *. rewrite filter_app, E1, E2. reflexivity. }
  rewrite E, E1, E2. apply bigrams_app.
Qed.

Lemma bigrams_across_headlines_witness :
  bigrams (tokens_clean 4 (all_tokens (["Rates rise"] ++ ["Prices fall"])))
  = (bigrams (tokens_clean 4 (all_tokens ["Rates rise"]))
     ++ ("rise", "prices") :: bigrams (tokens_clean 4 (all_tokens ["Prices fall"])))%list /\
  List.length (bigrams (tokens_clean 4 (all_tokens (["Rates rise"] ++ ["Prices fall"]))))
  = (List.length (tokens_clean 4 (all_tokens (["Rates rise"] ++ ["Prices fall"]))) - 1)%nat.
Proof.
  apply (bigrams_across_headlines 4 ["Rates rise"] ["Prices fall"]
           ["rates"] ["fall"] "rise" "prices"); reflexivity.
Defined.

Lemma pair_eqb_eq (a b : string * string) : pair_eqb a b = true <-> a = b.
Proof.
  destruct a as [a1 a2], b as [b1 b2]. unfold pair_eqb. cbn [fst snd].
  rewrite andb_true_iff, !String.eqb_eq. split; [ intros [-> ->] | intros [= -> ->] ];
    auto.
Qed.

Lemma label_inj (a a' b b' : string) :
  lowercase a -> lowercase a' ->
  bigram_label (a, b) = bigram_label (a', b') -> a = a' /\ b = b'.
Proof.
  unfold bigram_label, lowercase. cbn [fst snd]. revert a'.
  induction a as [ | c r IH]; intros [ | c' r'] La La'; simpl in *.
  - intros [= ->]. auto.
  - intros [= <- _]. discriminate.
  - intros [= -> _]. discriminate.
  - intros [= -> E]. apply andb_true_iff in La as [_ La], La' as [_ La'].
    destruct (IH r' La La' E) as [-> ->]. auto.
Qed.

Lemma NoDup_map_on {A B : Type} (f : A -> B) (l : list A) :
  (forall x y, In x l -> In y l -> f x = f y -> x = y) ->
  NoDup l -> NoDup (map f l).
Proof.
  induction l as [ | x l IH]; intros Inj N; [ constructor | ].
  inversion N as [ | ? ? Nx Nl]; subst. cbn [map]. constructor.
  - intros I. apply in_map_iff in I as (y & E & Iy).
    assert (y = x) by (apply Inj; [ now right | now left | exact E ]).
    subst y. contradiction.
  - apply IH; [ | exact Nl ]. intros a b Ia Ib. apply Inj; now right.
Qed.

Lemma in_bigrams (l : list string) (a b : string) :
  In (a, b) (bigrams l) -> In a l /\ In b l.
Proof.
  unfold bigrams. intros I. split; [ apply (in_combine_l _ _ _ _ I) | ].
  apply in_combine_r in I. destruct l; [ destruct I | now right ].
Qed.

Lemma most_common_keys {K : Type} (n : nat) (d : list (K * nat)) :
  NoDup (map fst d) ->
  NoDup (map fst (most_common n d)) /\
  forall e, In e (most_common n d) -> In e d.
Proof.
  intros N. unfold most_common.
  assert (Ns : NoDup (map fst (sorted_desc d))).
  { eapply Permutation_NoDup; [ | exact N ].
    apply Permutation_map. symmetry. apply sorted_desc_perm. }
  split.
  - rewrite <- (firstn_skipn n (sorted_desc d)), map_app in Ns.
    apply NoDup_app_remove_r in Ns. exact Ns.
  - intros e I. eapply Permutation_in; [ apply sorted_desc_perm | ].
    rewrite <- (firstn_skipn n (sorted_desc d)). apply in_or_app. now left.
Qed.

(** X10.  The rows of the bigram table have pairwise different labels,
    and the frequency beside a label is the number of times its pair of
    tokens occurs among the bigrams. *)
Theorem bigram_rows_distinct (top_n m : nat) (headlines : list string) :
  let tokens := tokens_clean m (all_tokens headlines) in
  NoDup (map fst (bigram_rows top_n tokens)) /\
  forall label c,
    In (label, c) (bigram_rows top_n tokens) ->
    exists a b,
      label = (a ++ " " ++ b)%string /\
      c = occurrences pair_eqb (a, b) (bigrams tokens).
Proof.
  intros tokens. unfold bigram_rows.
  destruct (keys_fold pair_eqb pair_eqb_eq (bigrams tokens) [] (NoDup_nil _))
    as [N I].
  fold (Counter pair_eqb (bigrams tokens)) in N, I.
  destruct (most_common_keys top_n _ N) as [Nm Im].
  assert (Low : forall e, In e (most_common top_n (Counter pair_eqb (bigrams tokens))) ->
                          lowercase (fst (fst e))).
  { intros [[a b] c] Ie. cbn [fst].
    apply Im in Ie. apply (in_map fst) in Ie. apply I in Ie. cbn [fst] in Ie.
    destruct Ie as [[] | Ie]. apply in_bigrams in Ie as [Ia _].
    unfold tokens, tokens_clean in Ia. apply filter_In in Ia as [Ia _].
    apply (tokens_letters headlines a Ia). }
  split.
  - rewrite map_map. cbn [fst].
    rewrite <- (map_map fst bigram_label). apply NoDup_map_on; [ | exact Nm ].
    intros [a1 b1] [a2 b2] I1 I2 E.
    apply in_map_iff in I1 as (e1 & E1 & I1), I2 as (e2 & E2 & I2).
    pose proof (Low e1 I1) as L1. pose proof (Low e2 I2) as L2.
    rewrite E1 in L1. rewrite E2 in L2. cbn [fst] in L1, L2.
    destruct (label_inj a1 a2 b1 b2 L1 L2 E) as [-> ->]. reflexivity.
  - intros label c Il. apply in_map_iff in Il as ([[a b] c'] & [= <- <-] & Ie).
    exists a, b. split; [ reflexivity | ].
    apply Im in Ie. pose proof (get_entry pair_eqb pair_eqb_eq _ _ _ N Ie) as G.
    unfold Counter in G. rewrite (get_fold pair_eqb pair_eqb_eq) in G.
    simpl in G. congruence.
Qed.

End Bigrams.

(** ** Counts and labels of the sentiment step *)

Section CountsAndLabels.
Import Py DataPage.

Lemma filter_length_impl {A : Type} (p q : A -> bool) (l : list A) :
  (forall x, In x l -> p x = true -> q x = true) ->
  (List.length (filter p l) <= List.length (filter q l))%nat.
Proof.
  induction l as [ | x l IH]; intros H; [ reflexivity | ].
  cbn [filter].
  assert (IH' : (List.length (filter p l) <= List.length (filter q l))%nat)
    by (apply IH; intros y Iy; apply H; now right).
  destruct (p x) eqn:P.
  - rewrite (H x (or_introl eq_refl) P). simpl. lia.
  - destruct (q x); simpl; lia.
Qed.

Lemma round3_threshold : (round (5 # 100) 3 == 5 # 100)%Q.
Proof. reflexivity. Qed.

Lemma round3_threshold_neg : (round (- (5 # 100)) 3 == - (5 # 100))%Q.
Proof. reflexivity. Qed.

Lemma rounded_above (c : Q) : (5 # 100 < round c 3)%Q -> (5 # 100 < c)%Q.
Proof.
  intros H. apply Qnot_le_lt. intros L.
  apply (round_mono _ _ 3) in L. rewrite round3_threshold in L.
  apply (Qlt_not_le _ _ H), L.
Qed.

Lemma rounded_below (c : Q) : (round c 3 < - (5 # 100))%Q -> (c < - (5 # 100))%Q.
Proof.
  intros H. apply Qnot_le_lt. intros L.
  apply (round_mono _ _ 3) in L. rewrite round3_threshold_neg in L.
  apply (Qlt_not_le _ _ H), L.
Qed.

Lemma row_counted (compound_of : string -> Q) (headlines : list string)
    (r : sentiment_row) :
  In r (sentiment_data compound_of headlines) ->
  (gt (Score r) (5 # 100) = true -> Sentiment r = "Positive") /\
  (lt (Score r) (- (5 # 100)) = true -> Sentiment r = "Negative") /\
  (Sentiment r = "Neutral" ->
   Qle_bool (- (5 # 100)) (Score r) && Qle_bool (Score r) (5 # 100) = true).
Proof.
  intros I. unfold sentiment_data in I. apply in_map_iff in I as (h & <- & _).
  cbn [Score Sentiment]. set (c := compound_of h).
  split; [ | split ]; intros H.
  - apply gt_iff, rounded_above in H. apply gt_iff in H.
    unfold label_of. rewrite H. reflexivity.
  - apply lt_iff, rounded_below in H.
    assert (G : gt c (5 # 100) = false).
    { apply not_true_iff_false. intros G. apply gt_iff in G. lra. }
    apply lt_iff in H. unfold label_of. rewrite G, H. reflexivity.
  - unfold label_of in H.
    destruct (gt c (5 # 100)) eqn:G; [ discriminate | ].
    destruct (lt c (- (5 # 100))) eqn:L; [ discriminate | ].
    assert (G' : (c <= 5 # 100)%Q).
    { apply Qnot_lt_le. intros X. apply gt_iff in X. congruence. }
    assert (L' : (- (5 # 100) <= c)%Q).
    { apply Qnot_lt_le. intros X. apply lt_iff in X. congruence. }
    apply andb_true_iff. split; apply Qle_bool_iff.
    + rewrite <- round3_threshold_neg. apply round_mono, L'.
    + rewrite <- round3_threshold. apply round_mono, G'.
Qed.

(** X11.  The three counts are taken on the rounded scores and the labels
    on the scores themselves, and they agree one way only.  In every row of
    the table, a score counted as positive goes with the label Positive, a
    score counted as negative with the label Negative, and the label Neutral
    with a score counted as neutral; so the headlines counted as positive or
    negative are no more than those labelled so, and those labelled Neutral
    no more than those counted as neutral. *)
Theorem counts_within_labels (compound_of : string -> Q) (headlines : list string) :
  let data := sentiment_data compound_of headlines in
  Forall (fun r =>
            (gt (Score r) (5 # 100) = true -> Sentiment r = "Positive") /\
            (lt (Score r) (- (5 # 100)) = true -> Sentiment r = "Negative") /\
            (Sentiment r = "Neutral" ->
             Qle_bool (- (5 # 100)) (Score r) && Qle_bool (Score r) (5 # 100) = true))
         data /\
  (n_pos data <= count (fun r => String.eqb (Sentiment r) "Positive") data)%nat /\
  (n_neg data <= count (fun r => String.eqb (Sentiment r) "Negative") data)%nat /\
  (count (fun r => String.eqb (Sentiment r) "Neutral") data <= n_neu data)%nat.
Proof.
  intros data.
  pose proof (row_counted compound_of headlines) as Row. fold data in Row.
  split; [ apply Forall_forall; exact Row | ].
  unfold n_pos, n_neg, n_neu, count.
  split; [ | split ]; apply filter_length_impl; intros r I H;
    destruct (Row r I) as (P & N & U).
  - rewrite (P H). reflexivity.
  - rewrite (N H). reflexivity.
  - apply String.eqb_eq in H. apply U, H.
Qed.

End CountsAndLabels.

(** ** The status of a reply, and years out of range *)

Section Status.
Import Py Spec.
Import Automation(obs, Year, Value, in_range).

(** X12.  A reply with an error status (400 to 599) makes the data page
    fail with [HTTPError] whatever its body holds, while
    [fetch_country_data], which never reads the status, treats the same reply
    exactly as it would with status 200. *)
Theorem error_status_two_pages (net : network)
    (iso2 iso3 name code indicator_name : string) (yr : Z * Z)
    (response : Response) :
  net (DataPage.url iso2 code) = Ok response ->
  net (Automation.url iso2 code) = Ok response ->
  400 <= status_code response < 600 ->
  DataPage.fetch_button net iso2 code indicator_name yr = DataPage.Failed HTTPError /\
  Automation.fetch_country_data net iso2 iso3 name code yr
  = Automation.fetch_country_data
      (fun _ => Ok {| status_code := 200; parsed_body := parsed_body response |})
      iso2 iso3 name code yr.
Proof.
  intros H1 H3 S. split.
  - unfold DataPage.fetch_button, DataPage.fetch_wb_data. rewrite H1. cbn [bind].
    unfold raise_for_status.
    assert (A : (400 <=? status_code response) && (status_code response <? 600) = true).
    { apply andb_true_iff. split; [ apply Z.leb_le | apply Z.ltb_lt ]; lia. }
    rewrite A. reflexivity.
  - unfold Automation.fetch_country_data. rewrite H3. reflexivity.
Qed.

Lemma error_status_two_pages_witness :
  DataPage.fetch_button
    (fun _ => Ok {| status_code := 503;
                    parsed_body := Some (wb_payload Sample.meta Sample.items []) |})
    "AL" "NY.GDP.PCAP.CD" "GDP (US$)" (2016, 2023)
  = DataPage.Failed HTTPError /\
  Automation.fetch_country_data
    (fun _ => Ok {| status_code := 503;
                    parsed_body := Some (wb_payload Sample.meta Sample.items []) |})
    "AL" "ALB" "Albania" "NY.GDP.PCAP.CD" (2016, 2023)
  = Automation.fetch_country_data
      (fun _ => Ok {| status_code := 200;
                      parsed_body :=
                        parsed_body
                          {| status_code := 503;
                             parsed_body :=
                               Some (wb_payload Sample.meta Sample.items []) |} |})
      "AL" "ALB" "Albania" "NY.GDP.PCAP.CD" (2016, 2023).
Proof.
  apply (error_status_two_pages
           (fun _ => Ok {| status_code := 503;
                           parsed_body :=
                             Some (wb_payload Sample.meta Sample.items []) |})
           "AL" "ALB" "Albania" "NY.GDP.PCAP.CD" "GDP (US$)" (2016, 2023)
           {| status_code := 503;
              parsed_body := Some (wb_payload Sample.meta Sample.items []) |}).
  - reflexivity.
  - reflexivity.
  - simpl. lia.
Defined.

(** X13.  On the data page, a reply with at least one present value but
    none in the chosen years gives a table with its two columns and no row
    (the page reports zero records), not an error. *)
Theorem no_year_in_range_empty_table (net : network)
    (country_code code indicator_name : string) (years : Z * Z)
    (meta : json) (items rest : list json) (observations : list obs) :
  serves_ok net (DataPage.url country_code code) (wb_payload meta items rest) ->
  Forall2 reads items observations ->
  indicator_name <> "Year" ->
  filter present observations <> [] ->
  filter (kept years) observations = [] ->
  DataPage.fetch_button net country_code code indicator_name years
  = DataPage.Fetched {| DataPage.columns := ["Year"; indicator_name];
                        DataPage.rows := [] |}.
Proof.
  intros Sok R NY P K. unfold DataPage.fetch_button.
  rewrite (fetch_wb_data_payload indicator_name NY net country_code code meta items
             rest observations Sok R P).
  cbn [bind]. unfold DataPage.filter_years. cbn [DataPage.columns existsb].
  rewrite String.eqb_refl. cbn [orb DataPage.rows].
  rewrite (select_years_map indicator_name NY). cbn [bind].
  assert (E : filter (fun o => in_range years (Year o))
                (Automation.sort_values (filter present observations)) = []).
  { destruct (filter _ (Automation.sort_values _)) as [ | o l] eqn:F; [ reflexivity | ].
    exfalso.
    assert (I : In o (filter (fun o => in_range years (Year o))
                         (Automation.sort_values (filter present observations))))
      by (rewrite F; now left).
    apply filter_In in I as [I Ir].
    apply (Permutation_in _ (sort_values_perm _)) in I.
    assert (I' : In o (filter (kept years) observations)).
    { rewrite <- kept_split. apply filter_In. auto. }
    rewrite K in I'. destruct I'. }
  rewrite E. reflexivity.
Qed.

Lemma no_year_in_range_empty_table_witness :
  DataPage.fetch_button Sample.net "AL" "NY.GDP.PCAP.CD" "GDP (US$)" (1990, 1995)
  = DataPage.Fetched {| DataPage.columns := ["Year"; "GDP (US$)"];
                        DataPage.rows := [] |}.
Proof.
  apply (no_year_in_range_empty_table Sample.net "AL" "NY.GDP.PCAP.CD" "GDP (US$)"
           (1990, 1995) Sample.meta Sample.items [] Sample.observations).
  - eexists. split; [ reflexivity | split; reflexivity ].
  - repeat constructor.
  - discriminate.
  - discriminate.
  - reflexivity.
Defined.

End Status.

(** ** The choropleth data *)

Section Choropleth.
Import Py Spec Terms.
Import Automation(obs, Year, Value, in_range).
#[local] Arguments String.eqb : simpl never.

Section SortBy.
Context {key : Type} (leb : key -> key -> bool).

Lemma insert_by_perm (x : key * DataPage.row) (l : list (key * DataPage.row)) :
  Permutation (Geo.insert_by leb x l) (x :: l).
Proof.
  induction l as [ | h t IH]; simpl; [ reflexivity | ].
  destruct (leb (fst x) (fst h)); [ reflexivity | ].
  rewrite IH. apply perm_swap.
Qed.

Lemma sort_by_perm (l : list (key * DataPage.row)) :
  Permutation (Geo.sort_by leb l) l.
Proof.
  induction l as [ | x t IH]; simpl; [ reflexivity | ].
  rewrite insert_by_perm. now constructor.
Qed.

End SortBy.

Lemma str_keys_length (by_ : string) (l : list DataPage.row)
    (k : list (string * DataPage.row)) :
  Geo.str_keys by_ l = Some k -> List.length k = List.length l.
Proof.
  revert k. induction l as [ | r t IH]; intros k; simpl.
  - intros [= <-]. reflexivity.
  - destruct (dict_get by_ r) as [[ | | | s | | ] | ]; try discriminate.
    destruct (Geo.str_keys by_ t) as [tl | ]; [ | discriminate ].
    intros [= <-]. simpl. f_equal. apply IH. reflexivity.
Qed.

Lemma keyed_length (by_ : string) (l : list DataPage.row)
    (k : list (Q * DataPage.row)) :
  DataPage.keyed by_ l = Ok k -> List.length k = List.length l.
Proof.
  revert k. induction l as [ | r t IH]; intros k; simpl.
  - intros [= <-]. reflexivity.
  - destruct (DataPage.number_at by_ r); simpl; [ | discriminate ].
    destruct (DataPage.keyed by_ t) as [tl | ]; simpl; [ | discriminate ].
    intros [= <-]. simpl. f_equal. apply IH. reflexivity.
Qed.

Lemma sort_values_rows (by_ : string) (df df' : DataPage.DataFrame) :
  Geo.sort_values by_ df = Ok df' ->
  List.length (DataPage.rows df') = List.length (DataPage.rows df) /\
  DataPage.columns df' = DataPage.columns df /\
  DataPage.columns df <> [].
Proof.
  unfold Geo.sort_values.
  destruct (existsb (String.eqb by_) (DataPage.columns df)) eqn:E; [ | discriminate ].
  assert (C : DataPage.columns df <> []).
  { intros H. rewrite H in E. discriminate. }
  destruct (Geo.str_keys by_ (DataPage.rows df)) as [k | ] eqn:K.
  - intros [= <-]. cbn [DataPage.rows DataPage.columns].
    rewrite length_map, (Permutation_length (sort_by_perm _ _)).
    split; [ apply (str_keys_length _ _ _ K) | auto ].
  - destruct (DataPage.keyed by_ (DataPage.rows df)) as [k | ] eqn:Q; simpl;
      [ | discriminate ].
    intros [= <-]. cbn [DataPage.rows DataPage.columns].
    rewrite length_map, (Permutation_length (sort_by_perm _ _)).
    split; [ apply (keyed_length _ _ _ Q) | auto ].
Qed.

(** X14.  [fetch_choropleth_data] never returns an empty frame: when no
    observation is retained the frame has no column to sort by and the fetch
    raises [KeyError].  The "No data returned" message of the handler is
    therefore never shown; the handler shows a map with at least one row, or
    the failure. *)
Theorem choropleth_never_empty (net : network) (code indicator_name : string)
    (yr : Z * Z) (entities : list entity) :
  match Geo.choropleth_button net code indicator_name yr entities with
  | Geo.No_data => False
  | Geo.Map_of df => DataPage.rows df <> [] /\ DataPage.columns df <> []
  | Geo.Failed _ => True
  end /\
  match Geo.all_data net code indicator_name yr entities with
  | Ok [] =>
      Geo.choropleth_button net code indicator_name yr entities = Geo.Failed KeyError
  | _ => True
  end.
Proof.
  unfold Geo.choropleth_button, Geo.fetch_choropleth_data.
  destruct (Geo.all_data net code indicator_name yr entities) as [l | e];
    cbn [bind]; [ | auto ].
  destruct l as [ | r l]; [ split; reflexivity | ].
  split; [ | exact I ].
  destruct (Geo.sort_values "Year" (DataPage.DataFrame_of (r :: l))) as [df | e] eqn:S;
    [ | exact I ].
  destruct (sort_values_rows _ _ _ S) as (L & C & N).
  cbn [DataPage.DataFrame_of DataPage.rows List.length] in L.
  assert (R : DataPage.rows df <> []).
  { intros H. rewrite H in L. discriminate. }
  assert (C' : DataPage.columns df <> []) by (rewrite C; exact N).
  assert (E : Geo.empty df = false).
  { unfold Geo.empty. destruct (DataPage.rows df); [ congruence | ].
    destruct (DataPage.columns df); [ congruence | reflexivity ]. }
  rewrite E. split; assumption.
Qed.

Lemma all_data_app (net : network) (code indicator_name : string) (yr : Z * Z)
    (l1 l2 : list entity) :
  Geo.all_data net code indicator_name yr (l1 ++ l2)
  = (r1 <- Geo.all_data net code indicator_name yr l1 ;;
     r2 <- Geo.all_data net code indicator_name yr l2 ;;
     Ok (r1 ++ r2)%list).
Proof.
  induction l1 as [ | e l1 IH].
  - simpl. destruct (Geo.all_data net code indicator_name yr l2); reflexivity.
  - change ((e :: l1) ++ l2)%list with (e :: (l1 ++ l2))%list.
    cbn [Geo.all_data]. rewrite IH.
    destruct (Geo.country_data net code indicator_name yr e); cbn [bind];
      [ | reflexivity ].
    destruct (Geo.all_data net code indicator_name yr l1); cbn [bind];
      [ | reflexivity ].
    destruct (Geo.all_data net code indicator_name yr l2); cbn [bind];
      [ | reflexivity ].
    rewrite app_assoc. reflexivity.
Qed.

Lemma all_data_returns (net : network) (code indicator_name : string) (yr : Z * Z)
    (l : list entity) :
  Forall (fun e => returns (Geo.country_data net code indicator_name yr e)) l ->
  returns (Geo.all_data net code indicator_name yr l).
Proof.
  induction 1 as [ | e l He _ IH]; [ exact I | ].
  cbn [Geo.all_data].
  destruct (Geo.country_data net code indicator_name yr e); [ | destruct He ].
  cbn [bind]. destruct (Geo.all_data net code indicator_name yr l); [ exact I | destruct IH ].
Qed.

(** X15.  The choropleth fetch is all or nothing: when the turn of one
    country raises (a failed request, an error status, a body that is not
    JSON, a reply with fewer than two elements, an unreadable item), the
    whole fetch raises that exception and the handler shows the failure,
    whatever the countries before it returned; no partial map is drawn. *)
Theorem choropleth_all_or_nothing (net : network) (code indicator_name : string)
    (yr : Z * Z) (l1 l2 : list entity) (e : entity) (x : exn) :
  Forall (fun e' => returns (Geo.country_data net code indicator_name yr e')) l1 ->
  Geo.country_data net code indicator_name yr e = Raise x ->
  Geo.fetch_choropleth_data net code indicator_name yr (l1 ++ e :: l2) = Raise x /\
  Geo.choropleth_button net code indicator_name yr (l1 ++ e :: l2) = Geo.Failed x.
Proof.
  intros F He.
  assert (A : Geo.all_data net code indicator_name yr (l1 ++ e :: l2) = Raise x).
  { rewrite all_data_app. pose proof (all_data_returns _ _ _ _ _ F) as R.
    destruct (Geo.all_data net code indicator_name yr l1); [ | destruct R ].
    cbn [bind Geo.all_data]. rewrite He. reflexivity. }
  unfold Geo.choropleth_button, Geo.fetch_choropleth_data. rewrite A. auto.
Qed.






















(** X17.  The error reply of the API, an array with fewer than two
    elements, is taken differently by the two pages: [fetch_country_data]
    returns [None], so the batch skips the country, while the choropleth
    fetch indexes the reply without checking its length, raises [IndexError]
    and shows no map at all. *)
Theorem short_reply_two_pages (net : network) (iso2 iso3 name code ind : string)
    (yr : Z * Z) (elements : list json) (others : list entity) :
  serves_ok net (Automation.url iso2 code) (JArr elements) ->
  (List.length elements < 2)%nat ->
  Automation.fetch_country_data net iso2 iso3 name code yr = Ok None /\
  Geo.country_data net code ind yr (name, (iso2, iso3)) = Raise IndexError /\
  Geo.choropleth_button net code ind yr ((name, (iso2, iso3)) :: others)
  = Geo.Failed IndexError.
Proof.
  intros (response & Hn & Hs & Hb) L.
  assert (G : Geo.country_data net code ind yr (name, (iso2, iso3)) = Raise IndexError).
  { unfold Geo.country_data. rewrite Hn. cbn [bind]. rewrite Hs. cbn [bind].
    unfold response_json. rewrite Hb. cbn [bind getitem_int].
    destruct elements as [ | a [ | b t]]; [ reflexivity | reflexivity | ].
    simpl in L. lia. }
  split; [ | split; [ exact G | ] ].
  - unfold Automation.fetch_country_data. rewrite Hn. cbn [bind].
    unfold response_json. rewrite Hb. cbn [bind len].
    apply Nat.ltb_lt in L. rewrite L. reflexivity.
  - unfold Geo.choropleth_button, Geo.fetch_choropleth_data. cbn [Geo.all_data].
    rewrite G. reflexivity.
Qed.

End Choropleth.

Lemma choropleth_all_or_nothing_witness :
  Geo.fetch_choropleth_data Sample.net_timeout "NY.GDP.PCAP.CD" "GDP" (2016, 2023)
    ([("Serbia", ("RS", "SRB"))] ++ ("Albania", ("AL", "ALB"))
       :: [("Kosovo", ("XK", "XKX"))]) = Py.Raise Py.Timeout /\
  Geo.choropleth_button Sample.net_timeout "NY.GDP.PCAP.CD" "GDP" (2016, 2023)
    ([("Serbia", ("RS", "SRB"))] ++ ("Albania", ("AL", "ALB"))
       :: [("Kosovo", ("XK", "XKX"))]) = Geo.Failed Py.Timeout.
Proof.
  apply (choropleth_all_or_nothing Sample.net_timeout "NY.GDP.PCAP.CD" "GDP"
           (2016, 2023) [("Serbia", ("RS", "SRB"))] [("Kosovo", ("XK", "XKX"))]
           ("Albania", ("AL", "ALB")) Py.Timeout).
  - constructor; [ exact I | constructor ].
  - reflexivity.
Defined.


Lemma short_reply_two_pages_witness :
  Automation.fetch_country_data Sample.net_truncated "AL" "ALB" "Albania"
    "NY.GDP.PCAP.CD" (2016, 2023) = Py.Ok None /\
  Geo.country_data Sample.net_truncated "NY.GDP.PCAP.CD" "GDP" (2016, 2023)
    ("Albania", ("AL", "ALB")) = Py.Raise Py.IndexError /\
  Geo.choropleth_button Sample.net_truncated "NY.GDP.PCAP.CD" "GDP" (2016, 2023)
    (("Albania", ("AL", "ALB")) :: [("Serbia", ("RS", "SRB"))])
  = Geo.Failed Py.IndexError.
Proof.
  apply (short_reply_two_pages Sample.net_truncated "AL" "ALB" "Albania"
           "NY.GDP.PCAP.CD" "GDP" (2016, 2023)
           [Py.JObj [("message", Py.JArr [Py.JObj [("id", Py.JStr "120")]])]]
           [("Serbia", ("RS", "SRB"))]).
  - eexists. split; [ reflexivity | split; reflexivity ].
  - simpl. lia.
Defined.

(** ** Currency conversion *)

Section Conversion.
Import Py.
Variable float_str : Q -> string.

(** X18.  The currency handler shows a conversion only for two different
    currencies and an amount other than zero, after a fetch that returned a
    body holding the converted value, a number, and the date.  The rate it
    shows is the quotient of the converted value by the amount, rounded once
    as a float division is; the product of that rate by the amount need not
    give the converted value back. *)
Theorem conversion_shown (net : network) (from_code to_code : string)
    (amount : Q) (rate : Float.float) (converted date : json) :
  Currency.convert_button float_str net from_code to_code amount
  = Currency.Converted rate converted date ->
  from_code <> to_code /\
  ~ (amount == 0)%Q /\
  (exists c, Currency.operand converted = Ok (Float.Fin c) /\
             rate = Float.rnd (c / amount)) /\
  exists data rates,
    Currency.fetch_exchange_rate float_str net from_code to_code amount = Ok data /\
    getitem_str data "rates" = Ok rates /\
    getitem_str rates to_code = Ok converted /\
    getitem_str data "date" = Ok date.
Proof.
  unfold Currency.convert_button.
  destruct (String.eqb from_code to_code) eqn:E; [ discriminate | ].
  apply String.eqb_neq in E.
  destruct (Currency.fetch_exchange_rate float_str net from_code to_code amount)
    as [data | x]; [ | discriminate ].
  destruct (getitem_str data "rates") as [rates | x] eqn:R; cbn [bind];
    [ | discriminate ].
  destruct (getitem_str rates to_code) as [v | x] eqn:C; [ | discriminate ].
  destruct (Currency.operand v) as [c | x] eqn:O; [ | discriminate ].
  destruct (Qeq_bool amount 0) eqn:Z; [ discriminate | ].
  destruct (getitem_str data "date") as [d | x] eqn:D; [ | discriminate ].
  intros [= <- <- <-].
  assert (NZ : ~ (amount == 0)%Q).
  { intros H. apply Qeq_bool_iff in H. congruence. }
  split; [ exact E | ]. split; [ exact NZ | ]. split.
  - assert (Fc : exists q, c = Float.Fin q).
    { unfold Currency.operand in O. destruct v; try discriminate.
      - destruct (Float.of_Z z); try discriminate. injection O as <-. eauto.
      - injection O as <-. eauto. }
    destruct Fc as [q ->]. exists q. split; [ exact O | ].
    cbn [Float.div]. rewrite Z. reflexivity.
  - exists data, rates. auto.
Qed.

End Conversion.

Lemma conversion_shown_witness :
  "USD" <> "EUR" /\
  ~ (100 == 0)%Q /\
  (exists c, Currency.operand (Py.JNum 920) = Py.Ok (Float.Fin c) /\
             Float.rnd (920 / 100) = Float.rnd (c / 100)) /\
  exists data rates,
    Currency.fetch_exchange_rate (fun _ => "100.0")
      (fun _ => Sample.reply
                  (Py.JObj [("amount", Py.JNum 100); ("base", Py.JStr "USD");
                            ("date", Py.JStr "2024-01-02");
                            ("rates", Py.JObj [("EUR", Py.JNum 920)])]))
      "USD" "EUR" 100 = Py.Ok data /\
    Py.getitem_str data "rates" = Py.Ok rates /\
    Py.getitem_str rates "EUR" = Py.Ok (Py.JNum 920) /\
    Py.getitem_str data "date" = Py.Ok (Py.JStr "2024-01-02").
Proof.
  apply (conversion_shown (fun _ => "100.0")
           (fun _ => Sample.reply
                  (Py.JObj [("amount", Py.JNum 100); ("base", Py.JStr "USD");
                            ("date", Py.JStr "2024-01-02");
                            ("rates", Py.JObj [("EUR", Py.JNum 920)])]))
           "USD" "EUR" 100 (Float.rnd (920 / 100)) (Py.JNum 920)
           (Py.JStr "2024-01-02")).
  reflexivity.
Defined.

(** The rate of 920 for 100 is the float nearest to 9.2, and a hundred
    times that float is rounded to 919.9999999999999, not to 920. *)
Example rate_times_amount :
  Currency.convert_button (fun _ => "100.0")
    (fun _ => Sample.reply
                (Py.JObj [("amount", Py.JNum 100); ("base", Py.JStr "USD");
                          ("date", Py.JStr "2024-01-02");
                          ("rates", Py.JObj [("EUR", Py.JNum 920)])]))
    "USD" "EUR" 100
  = Currency.Converted (Float.rnd (92 # 10)) (Py.JNum 920) (Py.JStr "2024-01-02") /\
  Float.mul (Float.rnd (92 # 10)) (Float.Fin 100)
  = Float.rnd (9199999999999999 # 10000000000000) /\
  Float.mul (Float.rnd (92 # 10)) (Float.Fin 100) <> Float.Fin 920.
Proof. repeat split; try (vm_compute; reflexivity). vm_compute. discriminate. Qed.

(** ** The tables and the session state of the batch page *)

Section Tables.
Import Py Automation Spec Terms.
Variable net : network.
Variable sel : string.
Variable yr : Z * Z.

Lemma dict_set_fresh {A : Type} (k : string) (v : A) (d : list (string * A)) :
  ~ In k (map fst d) -> dict_set k v d = (d ++ [(k, v)])%list.
Proof.
  induction d as [ | [k0 w] rest IH]; intros N; [ reflexivity | ].
  cbn [dict_set]. destruct (String.eqb k k0) eqn:E.
  - apply String.eqb_eq in E. subst k0. exfalso. apply N. now left.
  - rewrite IH by (intros H; apply N; now right). reflexivity.
Qed.

Lemma summarize_Country (name : string) (records : list obs) (s : summary) :
  summarize name records = Ok (Some s) -> Country s = name.
Proof.
  unfold summarize. destruct records as [ | o0 t]; [ discriminate | ].
  destruct (Value_column (sort_values (o0 :: t))) as [[l | l] | x]; cbn [bind];
    [ | | discriminate ]; intros [= <-]; reflexivity.
Qed.

Lemma fetched_Country (e : entity) (s : summary) :
  fetched net sel yr e = Ok (Some s) -> Country s = fst e.
Proof.
  destruct e as [name [iso2 iso3]]. unfold fetched, fetch_country_data.
  destruct (lookup sel indicators) as [code | ]; cbn [bind]; [ | discriminate ].
  destruct (net (url iso2 code)) as [response | ]; cbn [bind]; [ | discriminate ].
  destruct (response_json response) as [raw | ]; cbn [bind]; [ | discriminate ].
  destruct (len raw) as [n | ]; cbn [bind]; [ | discriminate ].
  destruct (n <? 2)%nat; [ discriminate | ].
  destruct (getitem_int raw 1) as [raw1 | ]; cbn [bind]; [ | discriminate ].
  destruct (negb (truthy raw1)); [ discriminate | ].
  destruct (iter raw1) as [items | ]; cbn [bind]; [ | discriminate ].
  destruct (records_of items yr) as [records | ]; cbn [bind]; [ | discriminate ].
  apply summarize_Country.
Qed.

Lemma batch_loop_aligned (l : list entity) :
  forall total i st,
    NoDup (map fst l) ->
    (forall k, In k (map fst (full_series st)) -> ~ In k (map fst l)) ->
    aligned st -> NoDup (map fst (full_series st)) ->
    aligned (fst (batch_loop net sel yr total i l st)) /\
    NoDup (map fst (full_series (fst (batch_loop net sel yr total i l st)))) /\
    forall k, In k (map fst (full_series (fst (batch_loop net sel yr total i l st)))) ->
              In k (map fst (full_series st)) \/ In k (map fst l).
Proof.
  induction l as [ | e l IH]; intros total i st N D A U.
  - simpl. auto.
  - rewrite batch_loop_cons. cbn [map] in N, D. inversion N as [ | ? ? Ne Nl]; subst.
    destruct (fetched net sel yr e) as [[s | ] | x] eqn:F.
    + assert (Fresh : ~ In (fst e) (map fst (full_series st))).
      { intros H. apply (D _ H). now left. }
      assert (K : full_series (keep (fst e) s (report (fraction i total) st))
                  = (full_series st ++ [(fst e, _data s)])%list).
      { unfold keep. cbn [pop_data full_series report]. apply dict_set_fresh, Fresh. }
      assert (R : results (keep (fst e) s (report (fraction i total) st))
                  = (results st ++ [snd (pop_data s)])%list) by reflexivity.
      destruct (IH total (S i) (keep (fst e) s (report (fraction i total) st)) Nl)
        as (A' & U' & I').
      * intros k. rewrite K, map_app, in_app_iff. cbn [map fst].
        intros [H | [<- | []]] Hl; [ apply (D _ H); now right | contradiction ].
      * unfold aligned. rewrite K, R, !map_app. cbn [map fst pop_data snd row_Country].
        rewrite (fetched_Country e s F). f_equal. exact A.
      * rewrite K, map_app. cbn [map fst]. apply NoDup_app; [ exact U | | ].
        -- repeat constructor. intros [].
        -- intros k Hk [<- | []]. contradiction.
      * split; [ exact A' | ]. split; [ exact U' | ].
        intros k Hk. destruct (I' k Hk) as [H | H]; [ | right; now right ].
        rewrite K, map_app, in_app_iff in H. cbn [map fst] in H.
        destruct H as [H | [<- | []]]; [ now left | right; now left ].
    + destruct (IH total (S i) (report (fraction i total) st) Nl) as (A' & U' & I').
      * intros k H Hl. apply (D _ H). now right.
      * exact A.
      * exact U.
      * split; [ exact A' | ]. split; [ exact U' | ].
        intros k Hk. destruct (I' k Hk) as [H | H]; [ now left | right; now right ].
    + cbn [fst]. split; [ exact A | ]. split; [ exact U | ]. intros k H. now left.
Qed.

(** X19.  Whatever happens in a run over entities with distinct names
    (the keys of a dict), the two tables it builds stay aligned: the summary
    rows and the kept series name the same countries in the same order, each
    once, and only listed countries. *)
Theorem batch_tables_aligned (entities : list entity) :
  NoDup (map fst entities) ->
  let st := fst (run_batch net sel yr entities) in
  map row_Country (results st) = map fst (full_series st) /\
  NoDup (map fst (full_series st)) /\
  forall k, In k (map fst (full_series st)) -> In k (map fst entities).
Proof.
  intros N st.
  destruct (batch_loop_aligned entities (List.length entities) 0%nat initial_state N)
    as (A & U & I).
  - intros k [].
  - reflexivity.
  - constructor.
  - subst st. unfold run_batch.
    destruct (batch_loop net sel yr (List.length entities) 0 entities initial_state)
      as [s [x | ]]; cbn [fst] in *.
    + split; [ exact A | ]. split; [ exact U | ].
      intros k H. destruct (I k H) as [[] | H']. exact H'.
    + split; [ exact A | ]. split; [ exact U | ].
      intros k H. destruct (I k H) as [[] | H']. exact H'.
Qed.

Lemma batch_loop_series (l : list entity) :
  Forall (fun e => returns (fetched net sel yr e)) l ->
  forall total i st,
    NoDup (map fst l) ->
    (forall k, In k (map fst (full_series st)) -> ~ In k (map fst l)) ->
    full_series (fst (batch_loop net sel yr total i l st))
    = (full_series st ++ flat_map (series_of net sel yr) l)%list.
Proof.
  induction 1 as [ | e l He _ IH]; intros total i st N D.
  - simpl. rewrite app_nil_r. reflexivity.
  - rewrite batch_loop_cons. cbn [map] in N, D. inversion N as [ | ? ? Ne Nl]; subst.
    cbn [flat_map]. unfold series_of at 1.
    destruct (fetched net sel yr e) as [[s | ] | x] eqn:F; [ | | destruct He ].
    + assert (Fresh : ~ In (fst e) (map fst (full_series st))).
      { intros H. apply (D _ H). now left. }
      assert (K : full_series (keep (fst e) s (report (fraction i total) st))
                  = (full_series st ++ [(fst e, _data s)])%list).
      { unfold keep. cbn [pop_data full_series report]. apply dict_set_fresh, Fresh. }
      rewrite IH; [ rewrite K, <- app_assoc; reflexivity | exact Nl | ].
      intros k. rewrite K, map_app, in_app_iff. cbn [map fst].
      intros [H | [<- | []]] Hl; [ apply (D _ H); now right | contradiction ].
    + rewrite IH; [ reflexivity | exact Nl | ].
      intros k H Hl. apply (D _ H). now right.
Qed.

Lemma summarized_count (l : list entity) :
  Forall (fun e => returns (fetched net sel yr e)) l ->
  (List.length (summarized net sel yr l)
   + List.length (filter (skipped net sel yr) l) = List.length l)%nat /\
  map row_Country (summarized net sel yr l)
  = map fst (filter (has_summary net sel yr) l).
Proof.
  induction 1 as [ | e l He _ [IH1 IH2]]; [ split; reflexivity | ].
  cbn [summarized filter]. unfold skipped at 1, has_summary at 1.
  pose proof (fetched_Country e) as C.
  destruct (fetched net sel yr e) as [[s | ] | x]; [ | | destruct He ].
  - cbn [List.length map pop_data snd row_Country]. rewrite (C s eq_refl), IH2.
    split; [ lia | reflexivity ].
  - cbn [List.length]. split; [ lia | exact IH2 ].
Qed.

(** X20.  In a run over entities with distinct names in which no fetch
    raises, the summary table has one row per entity whose fetch gave a
    summary, in the order of the entities, so that rows and skipped entities
    add up to the number of entities; and the series table holds, under each
    of those names, the frame of that summary. *)
Theorem complete_run_tables (entities : list entity) :
  NoDup (map fst entities) ->
  Forall (fun e => returns (fetched net sel yr e)) entities ->
  let st := fst (run_batch net sel yr entities) in
  snd (run_batch net sel yr entities) = None /\
  map row_Country (results st) = map fst (filter (has_summary net sel yr) entities) /\
  (List.length (results st)
   + List.length (filter (skipped net sel yr) entities)
   = List.length entities)%nat /\
  full_series st = flat_map (series_of net sel yr) entities.
Proof.
  intros N F st. subst st. unfold run_batch.
  destruct (batch_loop_returns net sel yr entities F (List.length entities) 0%nat
              initial_state) as (R1 & R2 & _).
  pose proof (batch_loop_series entities F (List.length entities) 0%nat initial_state N)
    as S.
  destruct (batch_loop net sel yr (List.length entities) 0 entities initial_state)
    as [s r]. cbn [fst snd] in *. subst r. cbn [fst snd results full_series report].
  cbn [results initial_state app] in R2.
  destruct (summarized_count entities F) as [C1 C2].
  rewrite R2. split; [ reflexivity | ]. split; [ exact C2 | ]. split; [ exact C1 | ].
  apply S. intros k [].
Qed.


End Tables.

Ltac distinct_names :=
  repeat (constructor; [ simpl; intuition discriminate | ]); constructor.

Lemma batch_tables_aligned_witness :
  map Automation.row_Country
    (Automation.results
       (fst (Automation.run_batch Sample.net_timeout Sample.gdp (2016, 2023)
               [("Serbia", ("RS", "SRB")); ("Albania", ("AL", "ALB"))])))
  = map fst
      (Automation.full_series
         (fst (Automation.run_batch Sample.net_timeout Sample.gdp (2016, 2023)
                 [("Serbia", ("RS", "SRB")); ("Albania", ("AL", "ALB"))]))) /\
  NoDup
    (map fst
       (Automation.full_series
          (fst (Automation.run_batch Sample.net_timeout Sample.gdp (2016, 2023)
                  [("Serbia", ("RS", "SRB")); ("Albania", ("AL", "ALB"))])))) /\
  forall k,
    In k (map fst
            (Automation.full_series
               (fst (Automation.run_batch Sample.net_timeout Sample.gdp (2016, 2023)
                       [("Serbia", ("RS", "SRB")); ("Albania", ("AL", "ALB"))])))) ->
    In k (map fst [("Serbia", ("RS", "SRB")); ("Albania", ("AL", "ALB"))]).
Proof.
  apply (batch_tables_aligned Sample.net_timeout Sample.gdp (2016, 2023)
           [("Serbia", ("RS", "SRB")); ("Albania", ("AL", "ALB"))]).
  distinct_names.
Defined.

Lemma complete_run_tables_witness :
  snd (Automation.run_batch Sample.net Sample.gdp (2016, 2023) Sample.two_countries)
  = None /\
  map Automation.row_Country
    (Automation.results
       (fst (Automation.run_batch Sample.net Sample.gdp (2016, 2023)
               Sample.two_countries)))
  = map fst (filter (Terms.has_summary Sample.net Sample.gdp (2016, 2023))
               Sample.two_countries) /\
  (List.length
     (Automation.results
        (fst (Automation.run_batch Sample.net Sample.gdp (2016%Z, 2023%Z)
                Sample.two_countries)))
   + List.length (filter (Terms.skipped Sample.net Sample.gdp (2016%Z, 2023%Z))
                    Sample.two_countries)
   = List.length Sample.two_countries)%nat /\
  Automation.full_series
    (fst (Automation.run_batch Sample.net Sample.gdp (2016, 2023)
            Sample.two_countries))
  = flat_map (Terms.series_of Sample.net Sample.gdp (2016, 2023))
      Sample.two_countries.
Proof.
  apply (complete_run_tables Sample.net Sample.gdp (2016, 2023) Sample.two_countries).
  - distinct_names.
  - repeat (apply Forall_cons; [ exact I | ]). apply Forall_nil.
Defined.


(** ** More on the summary of one country *)

Section SummaryFacts.
Import Py Automation Spec Terms.

(** X23.  In every summary the latest value lies between the minimum and
    the maximum: the three are values of the series put through the same
    [round(x, 2)], which keeps their order, in [float64] too. *)
Theorem summary_consistent (net : network) (iso2 iso3 name code : string)
    (yr : Z * Z) (meta : json) (items rest : list json)
    (observations : list obs) (o : obs) :
  serves net (url iso2 code) (wb_payload meta items rest) ->
  Forall2 reads items observations ->
  Forall int64_or_float_or_null observations ->
  int64 (fst yr) -> int64 (snd yr) ->
  In o observations -> kept yr o = true ->
  exists s,
    fetch_country_data net iso2 iso3 name code yr = Ok (Some s) /\
    le (Min s) (Latest_value s) /\ le (Latest_value s) (Max s).
Proof.
  intros Sv R F _ _ Ho K.
  rewrite (fetch_payload net iso2 iso3 name code yr meta items rest observations Sv R).
  pose proof (kept_scalars yr observations F) as Fk.
  destruct (summarize_scalars name (filter (kept yr) observations)
              (kept_nonempty yr observations o Ho K) Fk)
    as (s & lo & hi & latest & Hs & _ & _ & _ & Ilo & Ihi & B & Hmin & Hmax
        & Il & _ & Hv & _).
  exists s. split; [ exact Hs | ]. rewrite Hmin, Hmax, Hv.
  split; apply round2_scalars; try assumption; apply (B latest Il).
Qed.

Lemma summary_consistent_witness :
  exists s,
    fetch_country_data Sample.net "AL" "ALB" "Albania" "NY.GDP.PCAP.CD" (2016, 2023)
    = Ok (Some s) /\
    le (Min s) (Latest_value s) /\ le (Latest_value s) (Max s).
Proof.
  apply (summary_consistent Sample.net "AL" "ALB" "Albania" "NY.GDP.PCAP.CD"
           (2016, 2023) Sample.meta Sample.items [] Sample.observations
           {| Year := 2021; Value := JNum 20 |}).
  - eexists. split; reflexivity.
  - repeat constructor.
  - repeat (apply Forall_cons; [ exact I | ]). apply Forall_nil.
  - unfold int64. simpl. lia.
  - unfold int64. simpl. lia.
  - simpl. auto.
  - reflexivity.
Defined.

Lemma iloc_last_default {A : Type} (l : list A) (d d' : A) :
  l <> [] -> iloc_last l d = iloc_last l d'.
Proof.
  unfold iloc_last. destruct l as [ | h r]; [ congruence | intros _ ].
  revert h. induction r as [ | x r IH]; intros h; [ reflexivity | ].
  apply (IH x).
Qed.

Lemma ascending_head_least (o : obs) (l : DataFrame) :
  ascending (o :: l) -> forall x, In x (o :: l) -> Year o <= Year x.
Proof.
  intros S x [<- | I]; [ lia | ].
  inversion S as [ | ? ? _ F]; subst. rewrite Forall_forall in F. apply F, I.
Qed.

Lemma ascending_unique (l1 l2 : DataFrame) :
  ascending l1 -> ascending l2 -> NoDup (map Year l1) -> Permutation l1 l2 ->
  l1 = l2.
Proof.
  revert l2. induction l1 as [ | a t1 IH]; intros l2 S1 S2 N P.
  - apply Permutation_nil in P. congruence.
  - destruct l2 as [ | b t2]; [ apply Permutation_sym, Permutation_nil in P; discriminate | ].
    assert (Ia : In a (b :: t2)) by (apply (Permutation_in _ P); now left).
    assert (Ib : In b (a :: t1))
      by (apply (Permutation_in _ (Permutation_sym P)); now left).
    pose proof (ascending_head_least a t1 S1 b Ib) as L1.
    pose proof (ascending_head_least b t2 S2 a Ia) as L2.
    assert (E : a = b).
    { destruct Ib as [E | Ib]; [ exact E | ]. exfalso.
      cbn [map] in N. inversion N as [ | ? ? Na _]; subst. apply Na.
      replace (Year a) with (Year b) by lia. apply in_map, Ib. }
    subst b. f_equal.
    inversion S1; inversion S2; subst. cbn [map] in N. inversion N; subst.
    apply IH; try assumption. apply (Permutation_cons_inv P).
Qed.

(** X24.  The summary does not depend on the order in which the reply
    lists the years: two replies that carry the same observations in any
    order, with no year retained twice, give the same result. *)
Theorem summary_order_independent (net net' : network)
    (iso2 iso3 name code : string) (yr : Z * Z)
    (meta meta' : json) (items items' rest rest' : list json)
    (observations observations' : list obs) :
  serves net (url iso2 code) (wb_payload meta items rest) ->
  serves net' (url iso2 code) (wb_payload meta' items' rest') ->
  Forall2 reads items observations ->
  Forall2 reads items' observations' ->
  Permutation observations observations' ->
  NoDup (map Year (filter (kept yr) observations)) ->
  fetch_country_data net iso2 iso3 name code yr
  = fetch_country_data net' iso2 iso3 name code yr.
Proof.
  intros Sv Sv' R R' P N.
  rewrite (fetch_payload net iso2 iso3 name code yr meta items rest observations Sv R).
  rewrite (fetch_payload net' iso2 iso3 name code yr meta' items' rest' observations'
             Sv' R').
  pose proof (filter_perm (kept yr) _ _ P) as Pk.
  set (k := filter (kept yr) observations) in *.
  set (k' := filter (kept yr) observations') in *.
  assert (E : sort_values k = sort_values k').
  { apply ascending_unique.
    - apply sort_values_ascending.
    - apply sort_values_ascending.
    - eapply Permutation_NoDup; [ | exact N ].
      apply Permutation_map. symmetry. apply sort_values_perm.
    - rewrite (sort_values_perm k), (sort_values_perm k'). exact Pk. }
  unfold summarize. destruct k as [ | a t], k' as [ | a' t'].
  - reflexivity.
  - apply Permutation_nil in Pk. discriminate.
  - apply Permutation_sym, Permutation_nil in Pk. discriminate.
  - assert (Ne : sort_values (a' :: t') <> []).
    { intros H. pose proof (sort_values_perm (a' :: t')) as Q. rewrite H in Q.
      apply Permutation_nil in Q. discriminate. }
    rewrite E, (iloc_last_default _ a a' Ne). reflexivity.
Qed.

Lemma summary_order_independent_witness :
  fetch_country_data Sample.net "AL" "ALB" "Albania" "NY.GDP.PCAP.CD" (2016, 2023)
  = fetch_country_data
      (fun _ => Sample.reply (wb_payload Sample.meta (rev Sample.items) []))
      "AL" "ALB" "Albania" "NY.GDP.PCAP.CD" (2016, 2023).
Proof.
  apply (summary_order_independent Sample.net
           (fun _ => Sample.reply (wb_payload Sample.meta (rev Sample.items) []))
           "AL" "ALB" "Albania" "NY.GDP.PCAP.CD" (2016, 2023)
           Sample.meta Sample.meta Sample.items (rev Sample.items) [] []
           Sample.observations (rev Sample.observations)).
  - eexists. split; reflexivity.
  - eexists. split; reflexivity.
  - repeat constructor.
  - repeat constructor.
  - apply Permutation_rev.
  - simpl. repeat (constructor; [ simpl; intuition discriminate | ]). constructor.
Defined.

End SummaryFacts.
